(** * gdelt-app: the ingestion, aggregation and scoring pipeline

    A shallow embedding of the JavaScript sources of the GDELT trend
    service, and the properties of its specification stated over it.

    Conventions of the embedding.
    - A JavaScript string is a [string]; its code units are taken in
      0..255 (Latin-1), and [toLowerCase], [trim], [\s], [\w] and [\d]
      are the ECMAScript ones on that range.
    - A JavaScript integer number (a count, [topN], a number of days) is a
      [Z]; an instant ([Date]) is a [Z] of milliseconds since the epoch,
      and the invalid date is [None] where a function can produce it.
    - The scores of the trend scorer are real numbers: the arithmetic of
      [Math.log1p], [Math.sqrt] and of the division is the exact one, not
      its rounding to IEEE doubles.
    - [null]/[undefined] are [None].
    - A thrown exception is a value of [exn] in the error side of a result.
    - The document store is the list of its documents, in insertion order;
      [findOne] returns the first match.
    - Asynchronous calls that are awaited run to their end, in the order
      in which they are started; the calls that are started and not
      awaited complete as a schedule says, which the caller is given. *)

From Stdlib Require Import List String Ascii ZArith NArith Lia Bool.
From Stdlib Require Import Permutation Sorted.
From Stdlib Require Import DecimalString.
From Stdlib Require Import Reals Lra.
Import ListNotations.

Set Implicit Arguments.

Local Open Scope string_scope.
Local Open Scope list_scope.
Local Open Scope Z_scope.

(* ================================================================== *)
(** * Part I: the embedding of the sources *)

(* ================================================================== *)
(** ** JavaScript strings *)

Module JSString.

Definition chars (s : string) : list ascii := list_ascii_of_string s.
Definition str (l : list ascii) : string := string_of_list_ascii l.

Definition code (c : ascii) : N := N_of_ascii c.

Definition between (lo hi : N) (c : ascii) : bool :=
  ((lo <=? code c) && (code c <=? hi))%N.

(** [\d] *)
Definition is_digit : ascii -> bool := between 48 57.
(** [[a-z]] *)
Definition is_lower_az : ascii -> bool := between 97 122.
Definition is_upper_az : ascii -> bool := between 65 90.
(** [\w] = [[A-Za-z0-9_]] *)
Definition is_word (c : ascii) : bool :=
  is_lower_az c || is_upper_az c || is_digit c || (code c =? 95)%N.
(** [\s], which is also what [trim] strips: TAB, LF, VT, FF, CR, SP, NBSP. *)
Definition is_space (c : ascii) : bool :=
  between 9 13 c || (code c =? 32)%N || (code c =? 160)%N.

(** [String.prototype.toLowerCase] on one code unit below 256. *)
Definition lower_char (c : ascii) : ascii :=
  if is_upper_az c then ascii_of_N (code c + 32)
  else if between 192 222 c && negb (code c =? 215)%N
       then ascii_of_N (code c + 32)
       else c.

Definition toLowerCase (s : list ascii) : list ascii := map lower_char s.

Fixpoint dropWhile (p : ascii -> bool) (l : list ascii) : list ascii :=
  match l with
  | [] => []
  | c :: r => if p c then dropWhile p r else l
  end.

Fixpoint takeWhile (p : ascii -> bool) (l : list ascii) : list ascii :=
  match l with
  | [] => []
  | c :: r => if p c then c :: takeWhile p r else []
  end.

Definition dropWhileEnd (p : ascii -> bool) (l : list ascii) : list ascii :=
  rev (dropWhile p (rev l)).

(** [String.prototype.trim] *)
Definition trim (s : list ascii) : list ascii :=
  dropWhileEnd is_space (dropWhile is_space s).

(** [s.split(sep)] for a one-character separator: always at least one
    part. *)
Fixpoint split (sep : ascii) (s : list ascii) : list (list ascii) :=
  match s with
  | [] => [[]]
  | c :: r =>
      if Ascii.eqb c sep then [] :: split sep r
      else match split sep r with
           | [] => [[c]]
           | p :: ps => (c :: p) :: ps
           end
  end.

Fixpoint startsWith (p s : list ascii) : bool :=
  match p, s with
  | [], _ => true
  | _ :: _, [] => false
  | a :: p', b :: s' => Ascii.eqb a b && startsWith p' s'
  end.

Definition includes_char (c : ascii) (s : list ascii) : bool :=
  existsb (Ascii.eqb c) s.

Definition len (s : list ascii) : Z := Z.of_nat (List.length s).

End JSString.

(* ================================================================== *)
(** ** src/utils/cleaner.js *)

Module Cleaner.
Import JSString.

Definition STOPWORDS : list string :=
  ["the"; "a"; "an"; "and"; "or"; "of"; "in"; "for"; "on"; "with"; "to";
   "from"; "by"; "at"; "is"; "was"; "are"].

Definition is_stopword (s : string) : bool :=
  existsb (String.eqb s) STOPWORDS.

(** [s.replace(/^[^\w]+|[^\w]+$/g, '')]: the leading and the trailing
    run of non-word characters are removed. *)
Definition strip_nonword (s : list ascii) : list ascii :=
  dropWhileEnd (fun c => negb (is_word c))
               (dropWhile (fun c => negb (is_word c)) s).

(** [s.replace(/\s+/g, ' ')]: every maximal run of white space becomes
    one space; [in_run] tells that the previous character was white
    space. *)
Fixpoint collapse_from (in_run : bool) (s : list ascii) : list ascii :=
  match s with
  | [] => []
  | c :: r =>
      if is_space c
      then if in_run then collapse_from true r
           else " "%char :: collapse_from true r
      else c :: collapse_from false r
  end.

Definition collapse_spaces : list ascii -> list ascii := collapse_from false.

(** [cleanKeyword(raw)]; [None] is [null]. *)
Definition cleanKeyword (raw : string) : option string :=
  if String.eqb raw EmptyString then None
  else
    let s := trim (toLowerCase (chars raw)) in
    let s := strip_nonword s in
    let s := collapse_spaces s in
    if (List.length s =? 0)%nat then None
    else if is_stopword (str s) then None
    else Some (str s).

(** [/^[a-z0-9.-]+\.[a-z]{2,}$/] *)
Definition domain_char (c : ascii) : bool :=
  is_lower_az c || is_digit c || Ascii.eqb c "."%char || Ascii.eqb c "-"%char.

Definition re_strict_domain (s : list ascii) : bool :=
  let r := rev s in
  let tld := takeWhile is_lower_az r in
  match dropWhile is_lower_az r with
  | dot :: pre =>
      Ascii.eqb dot "."%char && (2 <=? List.length tld)%nat
      && negb (List.length pre =? 0)%nat && forallb domain_char pre
  | [] => false
  end.

Definition isStrictDomain (token : string) : bool :=
  let s := toLowerCase (chars token) in
  re_strict_domain s && negb (includes_char " "%char s).

(** [/^https?:\/\//] or [/^www\./] *)
Definition isUrl (token : string) : bool :=
  let s := toLowerCase (chars token) in
  startsWith (chars "http://") s || startsWith (chars "https://") s
  || startsWith (chars "www.") s.

(** [\d+(?:\.\d+)?] *)
Definition re_number (p : list ascii) : bool :=
  let int := takeWhile is_digit p in
  match dropWhile is_digit p with
  | [] => negb (List.length int =? 0)%nat
  | dot :: frac =>
      negb (List.length int =? 0)%nat && Ascii.eqb dot "."%char
      && negb (List.length frac =? 0)%nat && forallb is_digit frac
  end.

(** [/^\d+(?:\.\d+)?(?:,\d+(?:\.\d+)?){3,}$/] *)
Definition re_numeric_vector (s : list ascii) : bool :=
  let parts := split ","%char s in
  (4 <=? List.length parts)%nat && forallb re_number parts.

Definition isNumericVector (token : string) : bool :=
  if String.eqb token EmptyString then false
  else re_numeric_vector (chars token).

Definition count_digits (s : list ascii) : Z :=
  Z.of_nat (List.length (filter is_digit s)).

(** [digits / Math.max(s.length, 1) > 0.6].  The quotient of two
    integers below 2^53 is compared with the double nearest to 3/5: the
    correctly rounded quotient exceeds it exactly when
    [5 * digits > 3 * max(length, 1)]. *)
Definition isMostlyDigitsOrPunct (token : string) : bool :=
  if String.eqb token EmptyString then false
  else
    let s := chars token in
    3 * Z.max (len s) 1 <? 5 * count_digits s.

Definition isNoiseToken (token : string) : bool :=
  if String.eqb token EmptyString then true
  else
    let s := str (trim (chars token)) in
    if len (chars s) <? 3 then true
    else if isUrl s || isStrictDomain s then true
    else if isNumericVector s then true
    else if isMostlyDigitsOrPunct s then true
    else false.

(** [parts.map(cleanKeyword).filter(Boolean)] *)
Fixpoint cleaned (parts : list (list ascii)) : list string :=
  match parts with
  | [] => []
  | p :: ps =>
      match cleanKeyword (str p) with
      | Some tok => tok :: cleaned ps
      | None => cleaned ps
      end
  end.

Definition splitAndClean (fieldValue : string) : list string :=
  if String.eqb fieldValue EmptyString then []
  else
    let parts := split ";"%char (chars fieldValue) in
    filter (fun token => negb (isNoiseToken token)) (cleaned parts).

(** The older revision of the same function, before noise filtering
    was added. *)
Definition splitAndClean_v0 (fieldValue : string) : list string :=
  if String.eqb fieldValue EmptyString then []
  else cleaned (split ";"%char (chars fieldValue)).

End Cleaner.

(* ================================================================== *)
(** ** The tokenizer's regular expressions, stated declaratively *)

Module Regex.
Import JSString Cleaner.

(** [^https?://] or [^www\.] *)
Definition matches_url (s : list ascii) : Prop :=
  exists rest,
    s = chars "http://" ++ rest \/ s = chars "https://" ++ rest
    \/ s = chars "www." ++ rest.

(** [^[a-z0-9.-]+\.[a-z]{2,}$] *)
Definition matches_strict_domain (s : list ascii) : Prop :=
  exists x y,
    s = x ++ "."%char :: y /\ x <> [] /\
    Forall (fun c => domain_char c = true) x /\
    Forall (fun c => is_lower_az c = true) y /\ (2 <= List.length y)%nat.

(** [\d+(?:\.\d+)?] *)
Definition matches_number (p : list ascii) : Prop :=
  (p <> [] /\ Forall (fun c => is_digit c = true) p) \/
  exists i f,
    p = i ++ "."%char :: f /\ i <> [] /\ f <> [] /\
    Forall (fun c => is_digit c = true) i /\
    Forall (fun c => is_digit c = true) f.

(** [^N(?:,N){3,}$] with [N] a number as above: four or more
    comma-separated numbers. *)
Definition matches_numeric_vector (s : list ascii) : Prop :=
  exists n0 ns,
    s = n0 ++ List.concat (map (fun n => ","%char :: n) ns) /\
    matches_number n0 /\ Forall matches_number ns /\
    (3 <= List.length ns)%nat.

End Regex.

(* ================================================================== *)
(** ** JavaScript numbers, arrays and objects *)

(** [v || d] on a number that may be absent: [undefined] and 0 are
    falsy. *)
Definition or_default (v : option Z) (d : Z) : Z :=
  match v with Some n => if n =? 0 then d else n | None => d end.

Module JSArray.

Section Sort.
Variable A : Type.

(** [Array.prototype.sort(cmp)] is stable: an element moves in front
    of another one only when the comparator orders it strictly
    before.  [cmp a b <= 0] keeps [a] in front of [b]. *)
Variable cmp : A -> A -> Z.

Fixpoint insert (x : A) (l : list A) : list A :=
  match l with
  | [] => [x]
  | y :: r => if cmp x y <=? 0 then x :: l else y :: insert x r
  end.

Definition sort (l : list A) : list A := fold_right insert [] l.

(** [l.slice(0, e)]: a negative [e] counts from the end. *)
Definition slice0 (l : list A) (e : Z) : list A :=
  let n := Z.of_nat (List.length l) in
  let k := if e <? 0 then Z.max (n + e) 0 else Z.min e n in
  firstn (Z.to_nat k) l.
End Sort.

End JSArray.

Module JSObject.

(** An object used as a dictionary: its own string-keyed properties in
    the order of their creation. *)
Definition t : Type := list (string * Z).

Fixpoint get (o : t) (k : string) : option Z :=
  match o with
  | [] => None
  | (k', v) :: r => if String.eqb k k' then Some v else get r k
  end.

Fixpoint set (o : t) (k : string) (v : Z) : t :=
  match o with
  | [] => [(k, v)]
  | (k', v') :: r =>
      if String.eqb k k' then (k', v) :: r else (k', v') :: set r k v
  end.

Definition digit_value (c : ascii) : N := (JSString.code c - 48)%N.

Definition decimal_value (s : list ascii) : N :=
  fold_left (fun n c => (10 * n + digit_value c)%N) s 0%N.

(** A property key is an array index when it is the canonical decimal
    form of an integer in [0, 2^32 - 2]. *)
Definition array_index (k : string) : option N :=
  let s := JSString.chars k in
  match s with
  | [] => None
  | c :: r =>
      if forallb JSString.is_digit s
         && (negb (Ascii.eqb c "0"%char) || (List.length r =? 0)%nat)
         && (decimal_value s <? 4294967295)%N
      then Some (decimal_value s)
      else None
  end.

Definition is_index (kv : string * Z) : bool :=
  match array_index (fst kv) with Some _ => true | None => false end.

Definition index_of_key (kv : string * Z) : Z :=
  match array_index (fst kv) with Some n => Z.of_N n | None => 0 end.

(** [Object.entries(o)]: array-index keys first, in ascending numeric
    order, then the other keys in creation order. *)
Definition entries (o : t) : list (string * Z) :=
  JSArray.sort (fun a b => index_of_key a - index_of_key b)
               (filter is_index o)
  ++ filter (fun kv => negb (is_index kv)) o.

End JSObject.

Module JSSet.

(** A [Set] of strings, in insertion order. *)
Definition add (set : list string) (x : string) : list string :=
  if existsb (String.eqb x) set then set else set ++ [x].

(** [new Set(l)] *)
Definition from_list (l : list string) : list string := fold_left add l [].

Definition has (set : list string) (x : string) : bool :=
  existsb (String.eqb x) set.

End JSSet.

(* ================================================================== *)
(** ** src/utils/ranker.js *)

Module Ranker.

Record Entry : Type := mkEntry { word : string; count : Z }.

(** [arr.forEach(k => { counts[k] = (counts[k] || 0) + 1; })] *)
Definition tally (arr : list string) : JSObject.t :=
  fold_left
    (fun counts k => JSObject.set counts k (or_default (JSObject.get counts k) 0 + 1))
    arr [].

(** [rankByCount(arr, topN = 50)] *)
Definition rankByCount (arr : list string) (topN : option Z) : list Entry :=
  let topN := match topN with Some n => n | None => 50 end in
  let counts := tally arr in
  let result :=
    JSArray.slice0
      (JSArray.sort (fun a b => count b - count a)
         (map (fun kv => mkEntry (fst kv) (snd kv))
              (JSObject.entries counts)))
      topN in
  result.

End Ranker.

(* ================================================================== *)
(** ** JavaScript dates *)

Module JSDate.

(** A valid [Date] is its time value: milliseconds since 1970-01-01T00:00Z.
    The invalid date is [None] where a function can produce it. *)
Definition Date : Type := Z.

Definition msPerDay : Z := 86400000.

(** Time values lie within 100,000,000 days of the epoch. *)
Definition maxTime : Z := 8640000000000000.

(** [TimeClip(t)]: a number outside that range is the invalid date. *)
Definition TimeClip (t : Z) : option Date :=
  if Z.abs t <=? maxTime then Some t else None.

Definition Day (t : Date) : Z := t / msPerDay.
Definition TimeWithinDay (t : Date) : Z := t mod msPerDay.

(** Year, month (1..12) and day of the month of a day number, in the
    proleptic Gregorian calendar. *)
Definition civil_from_days (z : Z) : Z * Z * Z :=
  let z := z + 719468 in
  let era := z / 146097 in
  let doe := z - era * 146097 in
  let yoe := (doe - doe / 1460 + doe / 36524 - doe / 146096) / 365 in
  let y := yoe + era * 400 in
  let doy := doe - (365 * yoe + yoe / 4 - yoe / 100) in
  let mp := (5 * doy + 2) / 153 in
  let d := doy - (153 * mp + 2) / 5 + 1 in
  let m := if mp <? 10 then mp + 3 else mp - 9 in
  (if m <=? 2 then y + 1 else y, m, d).

(** Day number of the first day of month [m] (1..12) of year [y]. *)
Definition days_from_civil (y m d : Z) : Z :=
  let y := if m <=? 2 then y - 1 else y in
  let era := y / 400 in
  let yoe := y - era * 400 in
  let doy := (153 * (if 2 <? m then m - 3 else m + 9) + 2) / 5 + d - 1 in
  let doe := yoe * 365 + yoe / 4 - yoe / 100 + doy in
  era * 146097 + doe - 719468.

Definition getUTCFullYear (t : Date) : Z :=
  let '(y, _, _) := civil_from_days (Day t) in y.
(** 0-based, as in JavaScript. *)
Definition getUTCMonth (t : Date) : Z :=
  let '(_, m, _) := civil_from_days (Day t) in m - 1.
Definition getUTCDate (t : Date) : Z :=
  let '(_, _, d) := civil_from_days (Day t) in d.
Definition getUTCHours (t : Date) : Z := TimeWithinDay t / 3600000.
Definition getUTCMinutes (t : Date) : Z := (TimeWithinDay t / 60000) mod 60.

(** [new Date(Date.UTC(year, month, date))] for a month in 0..11; a
    [date] outside the month carries over, as [MakeDay] does, and a
    year in 0..99 stands for 1900 + year. *)
Definition UTC (year month date : Z) : Date :=
  let year := if (0 <=? year) && (year <=? 99) then 1900 + year else year in
  (days_from_civil year (month + 1) 1 + (date - 1)) * msPerDay.

(** [String(n)] for an integer. *)
Definition String_of (n : Z) : string :=
  NilZero.string_of_int (Z.to_int n).

Fixpoint zeros (n : nat) : string :=
  match n with O => EmptyString | S k => String "0" (zeros k) end.

(** [s.padStart(n, '0')] *)
Definition padStart0 (n : nat) (s : string) : string :=
  (zeros (n - String.length s) ++ s)%string.

(** [t.toISOString().slice(0, 10)]: years outside 0..9999 are written
    with a sign and six digits, of which the slice keeps the month. *)
Definition isoDate (t : Date) : string :=
  let '(y, m, d) := civil_from_days (Day t) in
  if (0 <=? y) && (y <=? 9999)
  then (padStart0 4 (String_of y) ++ "-" ++ padStart0 2 (String_of m)
        ++ "-" ++ padStart0 2 (String_of d))%string
  else ((if (y <? 0)%Z then "-" else "+") ++ padStart0 6 (String_of (Z.abs y))
        ++ "-" ++ padStart0 2 (String_of m))%string.

(** *** Parsing [YYYY-MM-DD] *)

Definition digits_value (s : list ascii) : option Z :=
  if forallb JSString.is_digit s
  then Some (Z.of_N (JSObject.decimal_value s))
  else None.

(** The day number of the day written [YYYY-MM-DD], as V8 reads the date
    of an ISO string: a month from 01 to 12 and a day from 01 to 31 in
    every month, a day beyond the end of the month carrying over into the
    next one, as [MakeDay] does ([2024-02-30] is 1 March 2024).  [None]
    is the invalid date.  Strings of another form are taken as invalid:
    the properties that depend on a date string are stated for the
    strings that [parse_day] reads. *)
Definition parse_day (s : string) : option Z :=
  match JSString.chars s with
  | [y1; y2; y3; y4; "-"%char; m1; m2; "-"%char; d1; d2] =>
      match digits_value [y1; y2; y3; y4],
            digits_value [m1; m2], digits_value [d1; d2] with
      | Some y, Some m, Some d =>
          if (1 <=? m) && (m <=? 12) && (1 <=? d) && (d <=? 31)
          then Some (days_from_civil y m 1 + (d - 1))
          else None
      | _, _, _ => None
      end
  | _ => None
  end.

End JSDate.

(* ================================================================== *)
(** ** Exceptions and the document store *)

Inductive exn : Type :=
| TypeError (msg : string)
| ReferenceError (name : string)
| RangeError (msg : string)
| FetchError (url : string).

Inductive result (A : Type) : Type :=
| Ok (a : A)
| Throw (e : exn).

Arguments Ok {A} a.

Arguments Throw {A} e.

Inductive TrendType : Type := realtime | daily | ranked.

Inductive Category : Type := themes | persons | orgs | documents.

Definition TrendType_eqb (a b : TrendType) : bool :=
  match a, b with
  | realtime, realtime | daily, daily | ranked, ranked => true
  | _, _ => false
  end.

Definition Category_eqb (a b : Category) : bool :=
  match a, b with
  | themes, themes | persons, persons | orgs, orgs
  | documents, documents => true
  | _, _ => false
  end.

Module Keyword.
Record t : Type := make {
  word : string;
  count : Z;
  score : option Z;
  documents : option (list string)
}.
End Keyword.

Module Trend.
Record t : Type := make {
  timestamp : JSDate.Date;
  type : TrendType;
  date : string;
  category : Category;
  keywords : list Keyword.t
}.
End Trend.

Module Store.

(** The collection of Trend documents, in insertion order. *)
Definition t : Type := list Trend.t.

(** The query [{ type, date, category }]. *)
Definition by_key (ty : TrendType) (dt : string) (cat : Category)
    (d : Trend.t) : bool :=
  TrendType_eqb (Trend.type d) ty && String.eqb (Trend.date d) dt
  && Category_eqb (Trend.category d) cat.

(** The query [{ type, date, category, timestamp }]. *)
Definition by_key_and_time (ty : TrendType) (dt : string) (cat : Category)
    (ts : JSDate.Date) (d : Trend.t) : bool :=
  by_key ty dt cat d && (Trend.timestamp d =? ts).

Definition findOne (q : Trend.t -> bool) (s : t) : option Trend.t :=
  find q s.

Definition findMany (q : Trend.t -> bool) (s : t) : list Trend.t :=
  filter q s.

(** The first document matching [q] is replaced by its update. *)
Fixpoint update_first (q : Trend.t -> bool) (upd : Trend.t -> Trend.t)
    (s : t) : option t :=
  match s with
  | [] => None
  | d :: r =>
      if q d then Some (upd d :: r)
      else match update_first q upd r with
           | Some r' => Some (d :: r')
           | None => None
           end
  end.

(** [findOneAndUpdate(q, update, { upsert: true })]: the first match is
    updated; without a match the document [ins], built from the query
    and the update, is inserted. *)
Definition findOneAndUpdate (q : Trend.t -> bool)
    (upd : Trend.t -> Trend.t) (ins : Trend.t) (s : t) : t :=
  match update_first q upd s with
  | Some s' => s'
  | None => s ++ [ins]
  end.

End Store.

(** Computations that read and write the store and may throw. *)
Definition M (A : Type) : Type := Store.t -> Store.t * result A.

Definition ret {A} (a : A) : M A := fun s => (s, Ok a).

Definition throw {A} (e : exn) : M A := fun s => (s, Throw e).

Definition bind {A B} (m : M A) (k : A -> M B) : M B :=
  fun s => match m s with
           | (s', Ok a) => k a s'
           | (s', Throw e) => (s', Throw e)
           end.

Definition write (f : Store.t -> Store.t) : M unit := fun s => (f s, Ok tt).

Definition read {A} (f : Store.t -> A) : M A := fun s => (s, Ok (f s)).

(** [try { m } catch (err) { h }] *)
Definition try_catch {A} (m : M A) (h : exn -> M A) : M A :=
  fun s => match m s with
           | (s', Ok a) => (s', Ok a)
           | (s', Throw e) => h e s'
           end.

(** A value computed by code that may throw. *)
Definition lift {A} (r : result A) : M A := fun s => (s, r).

Notation "x <- m ;; k" := (bind m (fun x => k))
  (at level 61, m at next level, right associativity).

Notation "m ;;; k" := (bind m (fun _ => k))
  (at level 61, right associativity).

(* ================================================================== *)
(** ** src/config/index.js *)

Module Config.
Record t : Type := make {
  gdeltBaseUrl : string;
  gdeltDailyBaseUrl : string;
  topN : Z
}.

(** [config.topN || 50] *)
Definition topN_or_50 (cfg : t) : Z := if topN cfg =? 0 then 50 else topN cfg.
End Config.

(* ================================================================== *)
(** ** src/services/aggregator.js

    The cache writes are left out: they do not touch the store. *)

Module Aggregator.

(** An input item [{word, count?, documents?}]; an item without a
    [word] property has [word = None]. *)
Record Item : Type := mkItem {
  item_word : option string;
  item_count : option Z;
  item_documents : option (list string)
}.

(** A value of the [Map], and an element of the result. *)
Record Entry : Type := mkEntry {
  e_word : string;
  e_count : Z;
  e_documents : list string
}.

(** [set.add(doc)] on a [Set] kept in insertion order. *)
Definition set_add (docs : list string) (doc : string) : list string :=
  JSSet.add docs doc.

Definition has (map : list Entry) (w : string) : bool :=
  existsb (fun e => String.eqb (e_word e) w) map.

(** The mutation of [map.get(w)]: the count grows by [n] and the
    documents are added. *)
Fixpoint bump (map : list Entry) (w : string) (n : Z) (docs : list string)
    : list Entry :=
  match map with
  | [] => []
  | e :: r =>
      if String.eqb (e_word e) w
      then mkEntry (e_word e) (e_count e + n)
                   (fold_left set_add docs (e_documents e)) :: r
      else e :: bump r w n docs
  end.

(** One iteration of [for (const item of arr)]. *)
Definition step (map : list Entry) (item : Item) : result (list Entry) :=
  match item_word item with
  | None =>
      Throw (TypeError
        "Cannot read properties of undefined (reading 'toLowerCase')")
  | Some wd =>
      let w := JSString.str (JSString.toLowerCase (JSString.chars wd)) in
      let map := if has map w then map else map ++ [mkEntry w 0 []] in
      Ok (bump map w (or_default (item_count item) 1)
               (match item_documents item with Some ds => ds | None => [] end))
  end.

Fixpoint loop (map : list Entry) (arr : list Item) : result (list Entry) :=
  match arr with
  | [] => Ok map
  | item :: rest =>
      match step map item with
      | Ok map' => loop map' rest
      | Throw e => Throw e
      end
  end.

Definition rankByCount (arr : list Item) (topN : Z) : result (list Entry) :=
  match loop [] arr with
  | Ok map =>
      Ok (JSArray.slice0
            (JSArray.sort (fun a b => e_count b - e_count a) map) topN)
  | Throw e => Throw e
  end.

Record Collector : Type := mkCollector {
  c_themes : list Item;
  c_persons : list Item;
  c_orgs : list Item;
  c_documentIdentifiers : list string
}.

(** [collector[cat] || []] *)
Definition bag (collector : Collector) (cat : Category) : list Item :=
  match cat with
  | themes => c_themes collector
  | persons => c_persons collector
  | orgs => c_orgs collector
  | documents => []
  end.

Inductive CategoryArg : Type := all | only (cat : Category).

Definition categoriesToProcess (category : CategoryArg) : list Category :=
  match category with
  | all => [themes; persons; orgs]
  | only cat => [cat]
  end.

Definition keyword_of (e : Entry) : Keyword.t :=
  Keyword.make (e_word e) (e_count e) None (Some (e_documents e)).

(** [Array.from(new Set(ids))] *)
Definition unique (ids : list string) : list string := JSSet.from_list ids.

Definition id_keyword (id : string) : Keyword.t :=
  Keyword.make id 1 None None.

(** The upserts are issued in program order; an exception of
    [rankByCount] leaves the ones already issued in place. *)
Fixpoint upsert_ranked (topN : Z) (collector : Collector)
    (put : Category -> list Keyword.t -> M unit) (cats : list Category)
    : M unit :=
  match cats with
  | [] => ret tt
  | cat :: rest =>
      ranked <- lift (rankByCount (bag collector cat) topN) ;;
      put cat (map keyword_of ranked) ;;;
      upsert_ranked topN collector put rest
  end.

Definition aggregateFromFile (cfg : Config.t) (collector : Collector)
    (timestamp : JSDate.Date) (category : CategoryArg) : M bool :=
  let dateStr := JSDate.isoDate timestamp in
  let topN := Config.topN_or_50 cfg in
  let put cat kws :=
    let doc := Trend.make timestamp realtime dateStr cat kws in
    write (Store.findOneAndUpdate
             (Store.by_key_and_time realtime dateStr cat timestamp)
             (fun _ => doc) doc) in
  upsert_ranked topN collector put (categoriesToProcess category) ;;;
  let docIdsUnique := unique (c_documentIdentifiers collector) in
  (if (0 <? Z.of_nat (List.length docIdsUnique))
   then put documents (map id_keyword docIdsUnique)
   else ret tt) ;;;
  ret true.

Definition merge (collectorsArray : list Collector) : Collector :=
  mkCollector (flat_map c_themes collectorsArray)
              (flat_map c_persons collectorsArray)
              (flat_map c_orgs collectorsArray)
              (flat_map c_documentIdentifiers collectorsArray).

(** [now] is the value of [new Date()]. *)
Definition aggregateDaily (cfg : Config.t) (now : JSDate.Date)
    (collectorsArray : list Collector) (date : string)
    (category : CategoryArg) : M bool :=
  let topN := Config.topN_or_50 cfg in
  let merged := merge collectorsArray in
  let timestamp := now in
  let put cat kws :=
    let doc := Trend.make timestamp daily date cat kws in
    write (Store.findOneAndUpdate (Store.by_key daily date cat)
             (fun _ => doc) doc) in
  upsert_ranked topN merged put (categoriesToProcess category) ;;;
  let docIdsUnique := unique (c_documentIdentifiers merged) in
  (if (0 <? Z.of_nat (List.length docIdsUnique))
   then put documents (map id_keyword docIdsUnique)
   else ret tt) ;;;
  ret true.

End Aggregator.

(* ================================================================== *)
(** ** src/services/gdeltFetcher.js *)

Module Fetcher.

Record Collector : Type := mkCollector {
  c_themes : list string;
  c_persons : list string;
  c_orgs : list string;
  c_documentIdentifiers : list string
}.

(** What [downloadAndParse(url)] resolves to: the collector parsed from
    the archive at [url], or [None] when the request, the decompression
    or the parse fails. *)
Definition World : Type := string -> option Collector.

Record Options : Type := mkOptions {
  o_timestamp : option JSDate.Date;
  o_jobType : option TrendType
}.

(** The argument of [new Date(...)]: a [Date] or a string. *)
Inductive DateValue : Type :=
| DateObj (t : JSDate.Date)
| DateStr (s : string).

(** [new Date(v)]; [None] is the invalid date.  Of the date strings
    only [YYYY-MM-DD] is modelled. *)
Definition new_Date (v : DateValue) : option JSDate.Date :=
  match v with
  | DateObj t => Some t
  | DateStr s =>
      match JSDate.parse_day s with
      | Some day => Some (day * JSDate.msPerDay)
      | None => None
      end
  end.

Definition toISOString_date (t : option JSDate.Date) : result string :=
  match t with
  | Some t => Ok (JSDate.isoDate t)
  | None => Throw (RangeError "Invalid time value")
  end.

Record SaveArgs : Type := mkSaveArgs {
  date : DateValue;
  timestamp : JSDate.Date;
  jobType : option TrendType;
  s_themes : option (list Ranker.Entry);
  s_persons : option (list Ranker.Entry);
  s_orgs : option (list Ranker.Entry);
  documentIdentifiers : list string
}.

Definition pad2 (n : Z) : string := JSDate.padStart0 2 (JSDate.String_of n).

Definition getFilenameForUTC (date : JSDate.Date) : string :=
  let year := JSDate.String_of (JSDate.getUTCFullYear date) in
  let month := pad2 (JSDate.getUTCMonth date + 1) in
  let day := pad2 (JSDate.getUTCDate date) in
  let hours := pad2 (JSDate.getUTCHours date) in
  let minutes := pad2 (JSDate.getUTCMinutes date / 15 * 15) in
  (year ++ month ++ day ++ hours ++ minutes ++ "00.gkg.csv.zip")%string.

Definition getDailyFilenameForUTC (date : JSDate.Date) : string :=
  let year := JSDate.String_of (JSDate.getUTCFullYear date) in
  let month := pad2 (JSDate.getUTCMonth date + 1) in
  let day := pad2 (JSDate.getUTCDate date) in
  (year ++ month ++ day ++ ".gkg.csv.zip")%string.

Definition keyword_of (e : Ranker.Entry) : Keyword.t :=
  Keyword.make (Ranker.word e) (Ranker.count e) None None.

Definition id_keyword (id : string) : Keyword.t :=
  Keyword.make id 1 None None.

(** One element of [trends]: the category and its [keywords]. *)
Definition TrendData : Type := (Category * option (list Keyword.t))%type.

(** The body of [for (const trendData of trends)]. *)
Definition save_one (ty : TrendType) (isoDate : string)
    (timestamp : JSDate.Date) (trendData : TrendData) : M unit :=
  let '(cat, keywords) := trendData in
  match keywords with
  | Some (k :: ks) =>
      write (Store.findOneAndUpdate (Store.by_key ty isoDate cat)
               (fun d => Trend.make timestamp (Trend.type d) (Trend.date d)
                           (Trend.category d) (k :: ks))
               (Trend.make timestamp ty isoDate cat (k :: ks)))
  | Some [] | None => ret tt
  end.

Fixpoint for_each {A} (body : A -> M unit) (l : list A) : M unit :=
  match l with
  | [] => ret tt
  | a :: r => body a ;;; for_each body r
  end.

Definition trends_of (a : SaveArgs) : list TrendData :=
  [ (themes, option_map (map keyword_of) (s_themes a));
    (persons, option_map (map keyword_of) (s_persons a));
    (orgs, option_map (map keyword_of) (s_orgs a)) ]
  ++ (if 0 <? Z.of_nat (List.length (documentIdentifiers a))
      then [(documents, Some (map id_keyword (documentIdentifiers a)))]
      else []).

(** [type: jobType || 'realtime'] *)
Definition type_of (jobType : option TrendType) : TrendType :=
  match jobType with Some ty => ty | None => realtime end.

Definition saveTrends (a : SaveArgs) : M unit :=
  isoDate <- lift (toISOString_date (new_Date (date a))) ;;
  for_each (save_one (type_of (jobType a)) isoDate (timestamp a))
           (trends_of a).

Section WithWorld.
Variable cfg : Config.t.
Variable W : World.

Definition downloadAndParse (url : string) : M Collector :=
  match W url with
  | Some collector => ret collector
  | None => throw (FetchError url)
  end.

Record Ranked : Type := mkRanked {
  r_themes : list Ranker.Entry;
  r_persons : list Ranker.Entry;
  r_orgs : list Ranker.Entry
}.

Definition rankCollector (collector : Collector) : Ranked :=
  let topN := Config.topN_or_50 cfg in
  mkRanked (Ranker.rankByCount (c_themes collector) (Some topN))
           (Ranker.rankByCount (c_persons collector) (Some topN))
           (Ranker.rankByCount (c_orgs collector) (Some topN)).

Definition fifteenUrl (date : JSDate.Date) : string :=
  (Config.gdeltBaseUrl cfg ++ "/" ++ getFilenameForUTC date)%string.

Definition dailyUrl (d : JSDate.Date) : string :=
  (Config.gdeltDailyBaseUrl cfg ++ "/" ++ getDailyFilenameForUTC d)%string.

(** The [try] block of the 15-minute attempt.  Its third statement
    reads [d], and the call of [saveTrends] reads [dailyDate]: both
    names are declared only inside the loop of the fallback, so that
    evaluating them here throws a [ReferenceError]. *)
Definition try_fifteen (date : JSDate.Date) : M bool :=
  collector <- downloadAndParse (fifteenUrl date) ;;
  let ranked := rankCollector collector in
  d <- throw (ReferenceError "d") ;;
  let dailyDateStr := JSDate.isoDate d in
  dailyDate <- throw (ReferenceError "dailyDate") ;;
  saveTrends (mkSaveArgs (DateStr dailyDateStr) dailyDate (Some daily)
                (Some (r_themes ranked)) (Some (r_persons ranked))
                (Some (r_orgs ranked))
                (c_documentIdentifiers collector)) ;;;
  ret true.

(** The day [offsetDays] before [date], at 00:00 UTC. *)
Definition day_before (date : JSDate.Date) (offsetDays : Z) : JSDate.Date :=
  JSDate.UTC (JSDate.getUTCFullYear date) (JSDate.getUTCMonth date)
             (JSDate.getUTCDate date - offsetDays).

(** The [try] block of one daily attempt. *)
Definition try_daily (d : JSDate.Date) : M bool :=
  collector <- downloadAndParse (dailyUrl d) ;;
  let ranked := rankCollector collector in
  let dailyDate :=
    JSDate.UTC (JSDate.getUTCFullYear d) (JSDate.getUTCMonth d)
               (JSDate.getUTCDate d) in
  saveTrends (mkSaveArgs (DateObj dailyDate) dailyDate (Some daily)
                (Some (r_themes ranked)) (Some (r_persons ranked))
                (Some (r_orgs ranked))
                (c_documentIdentifiers collector)) ;;;
  ret true.

(** [for (const offsetDays of offsets)], then the final
    [return false]. *)
Fixpoint fallback (date : JSDate.Date) (offsets : list Z) : M bool :=
  match offsets with
  | [] => ret false
  | offsetDays :: rest =>
      let d := day_before date offsetDays in
      returned <- try_catch (try_daily d) (fun err => ret false) ;;
      if returned then ret true else fallback date rest
  end.

Definition fetchAndProcess (date : JSDate.Date) (options : Options)
    : M bool :=
  let timestamp :=
    match o_timestamp options with Some t => t | None => date end in
  returned <- try_catch (try_fifteen date) (fun err => ret false) ;;
  if returned then ret true else fallback date [0; 1].

End WithWorld.

End Fetcher.

(** The revision of the fetcher before document identifiers were added
    (the second file of [unnamed/part_000]). *)
Module FetcherV0.
Import Fetcher.

Definition saveTrends (date : JSDate.Date) (timestamp : JSDate.Date)
    (jobType : option TrendType) (ranked : Ranked) : M unit :=
  let isoDate := JSDate.isoDate date in
  for_each (save_one (type_of jobType) isoDate timestamp)
    [ (themes, Some (map keyword_of (r_themes ranked)));
      (persons, Some (map keyword_of (r_persons ranked)));
      (orgs, Some (map keyword_of (r_orgs ranked))) ].

Section WithWorld.
Variable cfg : Config.t.
Variable W : World.

Definition try_fifteen (date : JSDate.Date) (options : Options) : M bool :=
  let timestamp :=
    match o_timestamp options with Some t => t | None => date end in
  collector <- downloadAndParse W (fifteenUrl cfg date) ;;
  let ranked := rankCollector cfg collector in
  saveTrends date timestamp (Some (type_of (o_jobType options))) ranked ;;;
  ret true.

Definition try_daily (d : JSDate.Date) : M bool :=
  collector <- downloadAndParse W (dailyUrl cfg d) ;;
  let ranked := rankCollector cfg collector in
  let dailyDate :=
    JSDate.UTC (JSDate.getUTCFullYear d) (JSDate.getUTCMonth d)
               (JSDate.getUTCDate d) in
  saveTrends dailyDate dailyDate (Some daily) ranked ;;;
  ret true.

Fixpoint fallback (date : JSDate.Date) (offsets : list Z) : M bool :=
  match offsets with
  | [] => ret false
  | offsetDays :: rest =>
      let d := day_before date offsetDays in
      returned <- try_catch (try_daily d) (fun err => ret false) ;;
      if returned then ret true else fallback date rest
  end.

Definition fetchAndProcess (date : JSDate.Date) (options : Options)
    : M bool :=
  returned <- try_catch (try_fifteen date options) (fun err => ret false) ;;
  if returned then ret true else fallback date [0; 1].
End WithWorld.

End FetcherV0.

(* ================================================================== *)
(** ** src/services/trendScorer.js *)

Module JSMap.

(** A [Map] from strings to numbers, in insertion order. *)
Definition t : Type := list (string * Z).

Fixpoint get (m : t) (k : string) : option Z :=
  match m with
  | [] => None
  | (k', v) :: r => if String.eqb k k' then Some v else get r k
  end.

Fixpoint set (m : t) (k : string) (v : Z) : t :=
  match m with
  | [] => [(k, v)]
  | (k', v') :: r =>
      if String.eqb k k' then (k', v) :: r else (k', v') :: set r k v
  end.

Definition values (m : t) : list Z := map snd m.

End JSMap.

Module Scorer.

Local Open Scope R_scope.

(** [Math.round(x)]: the integer nearest to [x], a tie going up. *)
Definition round (x : R) : Z := Zfloor (x + / 2).

(** [Math.max(v, ...vs)] *)
Definition maximum (v : R) (vs : list R) : R := fold_left Rmax vs v.

Definition normalizeTo100 (values : list R) : list Z :=
  match values with
  | [] => []
  | v :: vs =>
      let max := maximum v vs in
      if Rle_dec max 0 then map (fun _ => 0%Z) values
      else map (fun v => round (v / max * 100)) values
  end.

Definition sum (arr : list R) : R := fold_left Rplus arr 0.

(** [computeStats(arr)]: the mean and the standard deviation of the
    population [arr]. *)
Definition computeStats (arr : list R) : R * R :=
  let n := IZR (or_default (Some (Z.of_nat (List.length arr))) 1) in
  let mean := sum arr / n in
  let variance := sum (map (fun b => (b - mean) ^ 2) arr) / n in
  let std := sqrt variance in
  (mean, std).

(** The truthiness of [k.word]. *)
Definition has_word (k : Keyword.t) : bool :=
  negb (String.eqb (Keyword.word k) EmptyString).

(** [mergeCounts(docs)], on the keyword lists of the documents. *)
Definition mergeCounts (docs : list (list Keyword.t)) : JSMap.t :=
  fold_left
    (fun map keywords =>
       fold_left
         (fun map k =>
            if has_word k
            then JSMap.set map (Keyword.word k)
                   (or_default (JSMap.get map (Keyword.word k)) 0
                    + or_default (Some (Keyword.count k)) 0)%Z
            else map)
         keywords map)
    docs [].

(** [Math.log1p(x)], for [x > -1].  Elsewhere JavaScript gives
    [-Infinity] or [NaN], which the real numbers do not have, as they do
    not have the [Infinity] of a division by 0: the properties of the
    scores are stated for counts and baseline totals that are not
    negative, for which neither occurs. *)
Definition log1p (x : R) : R := ln (1 + x).

Record Scored : Type := mkScored { s_word : string; s_score : Z }.

Definition rawScore (baselineMap : JSMap.t) (mean std : R) (windowDays : Z)
    (k : Keyword.t) : R :=
  let count := IZR (Keyword.count k) in
  let base := IZR (or_default (JSMap.get baselineMap (Keyword.word k)) 0) in
  let volume := log1p count in
  let growth := (count + 1) / (base / IZR (Z.max windowDays 1) + 1) in
  let z := if Rlt_dec 0 std then (count - mean) / std else 0 in
  0.6 * volume + 0.3 * log1p growth + 0.1 * Rmax 0 z.

(** The statistics of the baseline: of its values, or of [[0]] when it
    has none. *)
Definition baseline_stats (baselineMap : JSMap.t) : R * R :=
  let baselineValues := map IZR (JSMap.values baselineMap) in
  computeStats (match baselineValues with [] => [0] | _ => baselineValues end).

Definition rawScores (current : list Keyword.t) (baselineMap : JSMap.t)
    (windowDays : Z) : list R :=
  let '(mean, std) := baseline_stats baselineMap in
  map (rawScore baselineMap mean std windowDays) current.

Definition scoreCore (current : list Keyword.t) (baselineMap : JSMap.t)
    (windowDays topN : Z) : list Scored :=
  let scores := rawScores current baselineMap windowDays in
  let normalized := normalizeTo100 scores in
  JSArray.slice0
    (JSArray.sort (fun a b => (s_score b - s_score a)%Z)
       (map (fun wi => mkScored (Keyword.word (fst wi)) (snd wi))
            (combine current normalized)))
    topN.

End Scorer.

Module ScoreTrends.

(** [toDate(dstr)]: noon UTC of the day; [None] is the invalid date. *)
Definition toDate (dstr : string) : option JSDate.Date :=
  match JSDate.parse_day dstr with
  | Some day => Some (day * JSDate.msPerDay + 43200000)
  | None => None
  end.

Definition isoDay (d : JSDate.Date) : string :=
  JSDate.isoDate
    (JSDate.UTC (JSDate.getUTCFullYear d) (JSDate.getUTCMonth d)
                (JSDate.getUTCDate d)).

(** [d.setUTCDate(d.getUTCDate() + n)] on a valid date: [n] days later,
    at the same time of the day, or the invalid date beyond the range of
    time values. *)
Definition addUTCDays (d : JSDate.Date) (n : Z) : option JSDate.Date :=
  JSDate.TimeClip (d + n * JSDate.msPerDay).

(** The days from [windowDays] days before [dateStr] up to the day before
    it; none when [dateStr] or the start of the window is no date, whose
    comparisons all fail. *)
Definition generateWindowDates (dateStr : string) (windowDays : Z)
    : list string :=
  match toDate dateStr with
  | None => []
  | Some end_ =>
      match addUTCDays end_ (- windowDays) with
      | None => []
      | Some start =>
          map (fun i => isoDay (start + Z.of_nat i * JSDate.msPerDay))
              (seq 0 (Z.to_nat windowDays))
      end
  end.

Record RankedKeyword : Type := mkRankedKeyword {
  word : string;
  score : Z;
  count : Z
}.

Definition filterNoiseKeywords (keywords : list Keyword.t) : list Keyword.t :=
  filter (fun k => Scorer.has_word k
                   && negb (Cleaner.isNoiseToken (Keyword.word k)))
         keywords.

Section WithWorld.
Variable cfg : Config.t.
Variable W : Fetcher.World.

(** [fetchAndProcess(toDate(ds), { jobType: 'daily', timestamp: toDate(ds) })]
    with its rejection ignored.  On an invalid date no file name denotes
    a day and [saveTrends] cannot format the date: nothing is written. *)
Definition fetch_day (ds : string) : M unit :=
  match toDate ds with
  | Some t =>
      try_catch
        (Fetcher.fetchAndProcess cfg W t
           (Fetcher.mkOptions (Some t) (Some daily)) ;;; ret tt)
        (fun _ => ret tt)
  | None => ret tt
  end.

(** [ensureDailyCoverage(dateStr, windowDays)].  The fetches that are
    awaited are taken one after the other, in the order in which they are
    started.  The fetches of [toBackground] are started and not awaited:
    they are still running when the function returns, and the result
    lists their days. *)
Definition ensureDailyCoverage (dateStr : string) (windowDays : Z)
    : M (list string) :=
  let allNeeded :=
    JSSet.from_list (dateStr :: generateWindowDates dateStr windowDays) in
  existing <- read (Store.findMany
                      (fun d => TrendType_eqb (Trend.type d) daily
                                && JSSet.has allNeeded (Trend.date d))) ;;
  let have := JSSet.from_list (map Trend.date existing) in
  let missing := filter (fun d => negb (JSSet.has have d)) allNeeded in
  if (List.length missing =? 0)%nat then ret []
  else
    let softAwaitLimit := 31%nat in
    let toAwait := firstn softAwaitLimit missing in
    let toBackground := skipn softAwaitLimit missing in
    Fetcher.for_each fetch_day toAwait ;;;
    ret toBackground.

(** The fetches left running by [ensureDailyCoverage] go on while
    [scoreTrends] does.  A schedule tells which of them complete, and in
    which order, before the documents are loaded, and which complete
    after that and before the call returns; the others are still running
    then.  The documents that are loaded are those of one category, of
    which a fetch writes one. *)
Record Schedule : Type := mkSchedule {
  before_load : list string;
  before_return : list string
}.

(** The fetches of [running] that [completed] lists come to their end. *)
Definition complete (running completed : list string) : M unit :=
  Fetcher.for_each fetch_day (filter (JSSet.has running) completed).

(** The three tiers: the keywords scored, and their scores. *)
Definition rank_tiers (currentDoc : Trend.t) (baselineDocs : list Trend.t)
    (windowDays topN : Z) : list Keyword.t * list Scorer.Scored :=
  let usedCurrent := filterNoiseKeywords (Trend.keywords currentDoc) in
  let baselineMap :=
    Scorer.mergeCounts
      (map (fun d => filterNoiseKeywords (Trend.keywords d)) baselineDocs) in
  let ranked := Scorer.scoreCore usedCurrent baselineMap windowDays topN in
  if negb (List.length ranked =? 0)%nat then (usedCurrent, ranked)
  else
    let loose k :=
      Scorer.has_word k && negb (Cleaner.isNumericVector (Keyword.word k)) in
    let usedCurrent := filter loose (Trend.keywords currentDoc) in
    let baselineLoose :=
      Scorer.mergeCounts
        (map (fun d => filter loose (Trend.keywords d)) baselineDocs) in
    let ranked := Scorer.scoreCore usedCurrent baselineLoose windowDays topN in
    if negb (List.length ranked =? 0)%nat then (usedCurrent, ranked)
    else
      let usedCurrent :=
        filter (fun k => Scorer.has_word k
                         && negb (Cleaner.isNoiseToken (Keyword.word k)))
               (Trend.keywords currentDoc) in
      let fallback :=
        map (fun k => Scorer.mkScored (Keyword.word k) 100)
            (JSArray.slice0
               (JSArray.sort (fun a b => Keyword.count b - Keyword.count a)
                             usedCurrent)
               topN) in
      (usedCurrent, fallback).

(** The query [{ date: { $gte: start, $lt: date } }] compares strings. *)
Definition in_window (start date : string) (category : Category)
    (d : Trend.t) : bool :=
  TrendType_eqb (Trend.type d) daily
  && String.leb start (Trend.date d) && String.ltb (Trend.date d) date
  && Category_eqb (Trend.category d) category.

(** Phases B to D; [now] is the value of [new Date()].  The start of the
    window is formatted first: [toISOString] throws on the invalid date,
    which is what [startDate] is when [date] is no date or when the window
    reaches beyond the range of time values. *)
Definition score_loaded (now : JSDate.Date) (date : string)
    (category : Category) (windowDays topN : Z) : M (list RankedKeyword) :=
  let targetDate :=
    option_map (fun day => day * JSDate.msPerDay) (JSDate.parse_day date) in
  let startDate :=
    match targetDate with
    | Some t => addUTCDays t (- windowDays)
    | None => None
    end in
  start <- lift (Fetcher.toISOString_date startDate) ;;
  currentDoc <- read (Store.findOne (Store.by_key daily date category)) ;;
  baselineDocs <- read (Store.findMany (in_window start date category)) ;;
  match currentDoc with
  | None => ret []
  | Some currentDoc =>
      match Trend.keywords currentDoc with
      | [] => ret []
      | _ :: _ =>
          let '(usedCurrent, scored) :=
            rank_tiers currentDoc baselineDocs windowDays topN in
          let currentCountMap := Scorer.mergeCounts [usedCurrent] in
          let rankedWithCounts :=
            map (fun r =>
                   mkRankedKeyword (Scorer.s_word r) (Scorer.s_score r)
                     (or_default
                        (JSMap.get currentCountMap (Scorer.s_word r)) 0))
                scored in
          let resultDoc :=
            Trend.make now ranked date category
              (map (fun k => Keyword.make (word k) (count k)
                                          (Some (score k)) None)
                   rankedWithCounts) in
          write (Store.findOneAndUpdate
                   (Store.by_key ranked date category)
                   (fun _ => resultDoc) resultDoc) ;;;
          ret rankedWithCounts
      end
  end.

Definition scoreTrends (now : JSDate.Date) (date : string)
    (category : Category) (windowDays topN : Z) (sch : Schedule)
    : M (list RankedKeyword) :=
  running <- ensureDailyCoverage date windowDays ;;
  complete running (before_load sch) ;;;
  rankedWithCounts <- score_loaded now date category windowDays topN ;;
  complete running (before_return sch) ;;;
  ret rankedWithCounts.

End WithWorld.

End ScoreTrends.

(* ================================================================== *)
(** ** src/routes/trends.js: [parseWindowDays] *)
Module Routes.
Import JSString.

(** What [parseWindowDays] returns: a number of days or, when the lookup
    [presets[raw]] finds a property that the table inherits from
    [Object.prototype], that property. *)
Inductive WindowDays : Type :=
| Days (n : Z)
| Inherited (name : string).

Definition presets : list (string * Z) :=
  [("7d", 7); ("30d", 30); ("3m", 90); ("1y", 365); ("3y", 365 * 3)].

(** The names of the properties of [Object.prototype] that are written in
    lower case. *)
Definition inherited : list string := ["constructor"; "__proto__"].

(** [parseInt(digits, 10)] on a string of decimal digits: the number that
    the digits write, which is what JavaScript computes below [2 ^ 53]. *)
Definition parseInt10 (digits : list ascii) : Z :=
  Z.of_N (JSObject.decimal_value digits).

(** The match of [/^(\d+)\s*([dmy])$/]: the digits and the unit. *)
Definition match_unit (raw : list ascii) : option (list ascii * ascii) :=
  let digits := takeWhile is_digit raw in
  match dropWhile is_space (dropWhile is_digit raw) with
  | [unit] =>
      if negb (List.length digits =? 0)%nat
         && (Ascii.eqb unit "d" || Ascii.eqb unit "m" || Ascii.eqb unit "y")
      then Some (digits, unit)
      else None
  | _ => None
  end.

Fixpoint lookup (raw : string) (table : list (string * Z)) : option Z :=
  match table with
  | [] => None
  | (k, v) :: r => if String.eqb raw k then Some v else lookup raw r
  end.

(** [parseWindowDays(input)]; [None] is [undefined]. *)
Definition parseWindowDays (input : option string) : WindowDays :=
  match input with
  | None => Days 7
  | Some input =>
      if String.eqb input EmptyString then Days 7
      else
        let raw := toLowerCase (trim (chars input)) in
        if negb (List.length raw =? 0)%nat && forallb is_digit raw
        then Days (Z.max 1 (parseInt10 raw))
        else
          match match_unit raw with
          | Some (digits, unit) =>
              let n := parseInt10 digits in
              if Ascii.eqb unit "d" then Days (Z.max 1 n)
              else if Ascii.eqb unit "m" then Days (Z.max 1 (n * 30))
              else Days (Z.max 1 (n * 365))
          | None =>
              match lookup (str raw) presets with
              | Some days => Days days
              | None =>
                  if existsb (String.eqb (str raw)) inherited
                  then Inherited (str raw)
                  else Days 7
              end
          end
  end.

End Routes.

(* ================================================================== *)
(** ** The rows of a GKG file

    [fast-csv] hands every record of the file to the ['data'] handler as
    an array of strings; a file is the list of its rows. *)
Module Rows.
Import JSString.

Definition Row : Type := list string.

(** [row.join('|').toLowerCase()] *)
Definition rowStr (row : Row) : list ascii :=
  toLowerCase (chars (String.concat "|" row)).

(** [s.includes(sub)] *)
Fixpoint includes (sub s : list ascii) : bool :=
  startsWith sub s
  || match s with
     | [] => false
     | _ :: r => includes sub r
     end.

Definition mentions (name : string) (s : list ascii) : bool :=
  includes (chars name) s.

(** [row.map(c => String(c).toLowerCase())] *)
Definition header_of (row : Row) : list (list ascii) :=
  map (fun c => toLowerCase (chars c)) row.

(** [header.findIndex(h => h.includes(name))]; [None] is [-1]. *)
Fixpoint findIndex (name : string) (header : list (list ascii)) : option Z :=
  match header with
  | [] => None
  | h :: r =>
      if mentions name h then Some 0
      else option_map Z.succ (findIndex name r)
  end.

(** [config.columnIndices], which every parser reads and updates: an
    index is a number or [null]/[undefined]. *)
Record ColumnIndices : Type := mkIndices {
  i_themes : option Z;
  i_persons : option Z;
  i_orgs : option Z;
  i_documentIdentifier : option Z
}.

(** [const i = header.findIndex(...); if (i >= 0) config.columnIndices.x = i] *)
Definition remap_one (name : string) (header : list (list ascii))
    (old : option Z) : option Z :=
  match findIndex name header with
  | Some i => Some i
  | None => old
  end.

(** [getCol(idx)]: [row[idx]], or [null] when the index is [null] or the
    row has no such element. *)
Definition getCol (row : Row) (idx : option Z) : option string :=
  match idx with
  | Some i => if i <? 0 then None else nth_error row (Z.to_nat i)
  | None => None
  end.

(** [if (raw) ... splitAndClean(raw)]: the tokens of a cell, none for a
    missing or empty one. *)
Definition tokens (raw : option string) : list string :=
  match raw with
  | Some s => if String.eqb s EmptyString then [] else Cleaner.splitAndClean s
  | None => []
  end.

End Rows.

(* ================================================================== *)
(** ** src/services/gdeltFetcher.js: [parseCsvStreamToCollector] *)
Module FetcherParse.
Import JSString Rows.

Record State : Type := mkState {
  headerDetected : bool;
  indices : ColumnIndices;
  collector : Fetcher.Collector
}.

Definition or_index (v : option Z) (d : Z) : option Z :=
  match v with Some _ => v | None => Some d end.

(** The defaults that the function writes into [config.columnIndices]
    before it reads the first row. *)
Definition with_defaults (idx : ColumnIndices) : ColumnIndices :=
  mkIndices (or_index (i_themes idx) 7) (or_index (i_persons idx) 9)
            (or_index (i_orgs idx) 10) (or_index (i_documentIdentifier idx) 4).

Definition is_header (row : Row) : bool :=
  let rowStr := rowStr row in
  mentions "v2themes" rowStr || mentions "v2persons" rowStr
  || mentions "v2organizations" rowStr || mentions "documentidentifier" rowStr.

Definition remap (idx : ColumnIndices) (row : Row) : ColumnIndices :=
  let header := header_of row in
  mkIndices (remap_one "v2themes" header (i_themes idx))
            (remap_one "v2persons" header (i_persons idx))
            (remap_one "v2organizations" header (i_orgs idx))
            (remap_one "documentidentifier" header (i_documentIdentifier idx)).

(** [if (documentIdentifier)
       collector.documentIdentifiers.push(documentIdentifier)] *)
Definition identifier (raw : option string) : list string :=
  match raw with
  | Some id => if String.eqb id EmptyString then [] else [id]
  | None => []
  end.

(** The ['data'] handler. *)
Definition on_data (st : State) (row : Row) : State :=
  if negb (headerDetected st) && is_header row
  then mkState true (remap (indices st) row) (collector st)
  else
    let idx := indices st in
    let c := collector st in
    mkState (headerDetected st) idx
      (Fetcher.mkCollector
         (Fetcher.c_themes c ++ tokens (getCol row (i_themes idx)))
         (Fetcher.c_persons c ++ tokens (getCol row (i_persons idx)))
         (Fetcher.c_orgs c ++ tokens (getCol row (i_orgs idx)))
         (Fetcher.c_documentIdentifiers c
          ++ identifier (getCol row (i_documentIdentifier idx)))).

(** [parseCsvStreamToCollector(stream)] on the rows of the stream, from
    the column indices [idx] of the configuration: the indices it leaves
    there and the collector it resolves to. *)
Definition parseCsvStreamToCollector (idx : ColumnIndices) (rows : list Row)
    : ColumnIndices * Fetcher.Collector :=
  let st :=
    fold_left on_data rows
      (mkState false (with_defaults idx) (Fetcher.mkCollector [] [] [] [])) in
  (indices st, collector st).

End FetcherParse.

(* ================================================================== *)
(** ** src/services/parser.js

    The revision that attaches the document identifiers of a row to its
    keywords. *)
Module Parser.
Import JSString Rows.

Record Options : Type := mkOptions {
  o_category : option Aggregator.CategoryArg;
  o_timestamp : option JSDate.Date
}.

Record State : Type := mkState {
  headerDetected : bool;
  rowCount : Z;
  indices : ColumnIndices;
  collector : Aggregator.Collector
}.

Definition is_header (row : Row) : bool :=
  let rowStr := rowStr row in
  mentions "v2themes" rowStr || mentions "v2persons" rowStr
  || mentions "v2organizations" rowStr || mentions "documentidentifier" rowStr.

Definition remap (idx : ColumnIndices) (row : Row) : ColumnIndices :=
  let header := header_of row in
  mkIndices (remap_one "v2themes" header (i_themes idx))
            (remap_one "v2persons" header (i_persons idx))
            (remap_one "v2organizations" header (i_orgs idx))
            (remap_one "documentidentifier" header (i_documentIdentifier idx)).

(** [rawDocId ? rawDocId.split('|').filter(id => id.trim() !== '') : []] *)
Definition docIds_of (rawDocId : option string) : list string :=
  match rawDocId with
  | Some raw =>
      if String.eqb raw EmptyString then []
      else
        map str
          (filter (fun id => negb (List.length (trim id) =? 0)%nat)
                  (split "|"%char (chars raw)))
  | None => []
  end.

(** [buildKeywordObjs(raw)], guarded by [if (raw)]. *)
Definition buildKeywordObjs (docIds : list string) (raw : option string)
    : list Aggregator.Item :=
  map (fun word => Aggregator.mkItem (Some word) (Some 1) (Some docIds))
      (tokens raw).

(** [category === 'all' || category === cat] *)
Definition selected (category : Aggregator.CategoryArg) (cat : Category)
    : bool :=
  match category with
  | Aggregator.all => true
  | Aggregator.only c => Category_eqb c cat
  end.

(** The ['data'] handler. *)
Definition on_data (category : Aggregator.CategoryArg) (st : State)
    (row : Row) : State :=
  let rowCount := rowCount st + 1 in
  if negb (headerDetected st) && (rowCount =? 1) && is_header row
  then mkState true rowCount (remap (indices st) row) (collector st)
  else
    let idx := indices st in
    let c := collector st in
    let rawDocId := getCol row (i_documentIdentifier idx) in
    let docIds := docIds_of rawDocId in
    let add cat (bag : list Aggregator.Item) (i : option Z) :=
      if selected category cat
      then bag ++ buildKeywordObjs docIds (getCol row i)
      else bag in
    mkState (headerDetected st) rowCount idx
      (Aggregator.mkCollector
         (add themes (Aggregator.c_themes c) (i_themes idx))
         (add persons (Aggregator.c_persons c) (i_persons idx))
         (add orgs (Aggregator.c_orgs c) (i_orgs idx))
         (Aggregator.c_documentIdentifiers c ++ docIds)).

(** [parseCsvStream(stream, opts)] on the rows of the stream: the column
    indices it leaves in the configuration, and the aggregation that its
    ['end'] handler runs; [now] is the value of [new Date()]. *)
Definition parseCsvStream (cfg : Config.t) (now : JSDate.Date)
    (idx : ColumnIndices) (rows : list Row) (opts : Options)
    : ColumnIndices * M bool :=
  let category :=
    match o_category opts with Some c => c | None => Aggregator.all end in
  let timestamp :=
    match o_timestamp opts with Some t => t | None => now end in
  let st :=
    fold_left (on_data category) rows
      (mkState false 0 idx (Aggregator.mkCollector [] [] [] [])) in
  (indices st,
   Aggregator.aggregateFromFile cfg (collector st) timestamp category).

End Parser.

(* ================================================================== *)
(** ** src/scheduler.js: the daily job *)
Module Scheduler.
Import JSString Rows.

(** [new Date(Date.UTC(year, month, date, hours, minutes, 0))] *)
Definition UTC (year month date hours minutes : Z) : JSDate.Date :=
  JSDate.UTC year month date + hours * 3600000 + minutes * 60000.

(** The [localCollector] of one file. *)
Record Local : Type := mkLocal {
  l_themes : list string;
  l_persons : list string;
  l_orgs : list string
}.

(** The truthiness of an index: [null], [undefined] and 0 are falsy. *)
Definition truthy (i : option Z) : bool :=
  match i with Some n => negb (n =? 0) | None => false end.

Definition is_header (row : Row) : bool :=
  let rowStr := rowStr row in
  mentions "v2themes" rowStr || mentions "v2persons" rowStr
  || mentions "v2organizations" rowStr.

Definition remap (idx : ColumnIndices) (row : Row) : ColumnIndices :=
  let header := header_of row in
  mkIndices (remap_one "v2themes" header (i_themes idx))
            (remap_one "v2persons" header (i_persons idx))
            (remap_one "v2organizations" header (i_orgs idx))
            (i_documentIdentifier idx).

(** The ['data'] handler of the daily job. *)
Definition on_data (st : ColumnIndices * Local) (row : Row)
    : ColumnIndices * Local :=
  let '(idx, c) := st in
  if negb (truthy (i_themes idx)) && is_header row
  then (remap idx row, c)
  else
    let add (bag : list string) (i : option Z) :=
      if truthy i then bag ++ tokens (getCol row i) else bag in
    (idx, mkLocal (add (l_themes c) (i_themes idx))
                  (add (l_persons c) (i_persons idx))
                  (add (l_orgs c) (i_orgs idx))).

(** What the request for [url] yields: the rows of the file, or [None]
    when the request or the decompression fails. *)
Definition World : Type := string -> option (list Row).

(** [config.realtimeIntervalMin || 15] *)
Definition intervalMin (realtimeIntervalMin : Z) : Z :=
  or_default (Some realtimeIntervalMin) 15.

(** The [fileDate] of the iteration [i] of the loop. *)
Definition fileDate (now : JSDate.Date) (intervalMin : Z) (i : Z)
    : JSDate.Date :=
  let minutesBack := i * intervalMin in
  let date := now - minutesBack * 60000 in
  let m := JSDate.getUTCMinutes date / intervalMin * intervalMin in
  UTC (JSDate.getUTCFullYear date) (JSDate.getUTCMonth date)
      (JSDate.getUTCDate date) (JSDate.getUTCHours date) m.

Section WithWorld.
Variable cfg : Config.t.
Variable realtimeIntervalMin : Z.
Variable W : World.

(** One iteration of [for (let i = 0; i < filesToFetch; i++)]: a file
    that cannot be fetched is skipped. *)
Definition fetch_file (now : JSDate.Date)
    (st : ColumnIndices * list Local) (i : nat) : ColumnIndices * list Local :=
  let '(idx, collectors) := st in
  let filename :=
    Fetcher.getFilenameForUTC
      (fileDate now (intervalMin realtimeIntervalMin) (Z.of_nat i)) in
  let url := (Config.gdeltBaseUrl cfg ++ "/" ++ filename)%string in
  match W url with
  | Some rows =>
      let '(idx', localCollector) :=
        fold_left on_data rows (idx, mkLocal [] [] []) in
      (idx', collectors ++ [localCollector])
  | None => (idx, collectors)
  end.

Definition filesToFetch : nat := 96.

(** A token, which is a string, as an item of the Aggregator: a string has
    no property [word], [count] or [documents]. *)
Definition item_of_token (token : string) : Aggregator.Item :=
  Aggregator.mkItem None None None.

(** A [localCollector] as the Aggregator reads it: it has no
    [documentIdentifiers]. *)
Definition collector_of (c : Local) : Aggregator.Collector :=
  Aggregator.mkCollector (map item_of_token (l_themes c))
                         (map item_of_token (l_persons c))
                         (map item_of_token (l_orgs c)) [].

(** The body of the [try] of the daily job; [now], [now1] and [now2] are
    the values of its three [new Date()], the last one inside
    [aggregateDaily]. *)
Definition dailyJob_try (now now1 now2 : JSDate.Date) (idx : ColumnIndices)
    : ColumnIndices * M bool :=
  let '(idx', collectors) :=
    fold_left (fetch_file now) (seq 0 filesToFetch) (idx, []) in
  let dateStr := JSDate.isoDate now1 in
  (idx',
   Aggregator.aggregateDaily cfg now2 (map collector_of collectors) dateStr
     Aggregator.all).

(** The daily job: an error is logged. *)
Definition dailyJob (now now1 now2 : JSDate.Date) (idx : ColumnIndices)
    : ColumnIndices * M unit :=
  let '(idx', job) := dailyJob_try now now1 now2 idx in
  (idx', try_catch (job ;;; ret tt) (fun _ => ret tt)).

End WithWorld.

End Scheduler.

(* ================================================================== *)
(** * Part II: the vocabulary of the properties *)

Import JSString Cleaner Regex.

Definition head_not (p : ascii -> bool) (l : list ascii) : Prop :=
  match l with [] => True | c :: _ => p c = false end.

(** Sorted by non-increasing [key]. *)
Definition key_desc (A : Type) (key : A -> Z) (a b : A) : Prop :=
  key a >= key b.

(** Sorted by decreasing [key], and by increasing [ord] within one key. *)
Definition key_desc_then_ord (A : Type) (key : A -> Z) (ord : A -> nat)
    (a b : A) : Prop :=
  key a > key b \/ (key a = key b /\ (ord a < ord b)%nat).

Definition total (A : Type) (key : A -> Z) (l : list A) : Z :=
  fold_right (fun a s => key a + s) 0 l.

Definition keys (o : JSObject.t) : list string := map fst o.

Definition sum_values (o : JSObject.t) : Z := total (@snd string Z) o.

(** Position of the first occurrence of [w] in [l] ([length l] if none). *)
Fixpoint index_of (w : string) (l : list string) : nat :=
  match l with
  | [] => O
  | x :: r => if String.eqb w x then O else S (index_of w r)
  end.

Record tally_inv (arr : list string) (o : JSObject.t) : Prop := {
  inv_keys : forall k, In k (keys o) <-> In k arr;
  inv_order :
    StronglySorted (fun a b => (index_of a arr < index_of b arr)%nat) (keys o);
  inv_pos : Forall (fun kv => 1 <= snd kv) o;
  inv_sum : sum_values o = Z.of_nat (List.length arr)
}.

Definition entry_of (kv : string * Z) : Ranker.Entry :=
  Ranker.mkEntry (fst kv) (snd kv).

Definition sum_counts (l : list Ranker.Entry) : Z := total Ranker.count l.

(** The first-occurrence clause of the tie-break, as the specification
    words it. *)
Definition ties_in_first_seen_order
    (arr : list string) (out : list Ranker.Entry) : Prop :=
  forall i j a b,
    (i < j)%nat -> nth_error out i = Some a -> nth_error out j = Some b ->
    Ranker.count a = Ranker.count b ->
    (index_of (Ranker.word a) arr < index_of (Ranker.word b) arr)%nat.

Definition key3 (d : Trend.t) : TrendType * string * Category :=
  (Trend.type d, Trend.date d, Trend.category d).

Definition key4 (d : Trend.t) : TrendType * string * Category * Z :=
  (key3 d, Trend.timestamp d).

(** At most one document per [(type, date, category)]. *)
Definition unique3 (s : Store.t) : Prop := NoDup (map key3 s).

(** At most one document per [(type, date, category, timestamp)]. *)
Definition unique4 (s : Store.t) : Prop := NoDup (map key4 s).

Definition has_category (cat : Category) (d : Trend.t) : bool :=
  Category_eqb (Trend.category d) cat.

(** The keyword list that [saveTrends] receives for a category is absent
    or empty. *)
Definition category_empty (a : Fetcher.SaveArgs) (cat : Category) : Prop :=
  match cat with
  | themes => Fetcher.s_themes a = None \/ Fetcher.s_themes a = Some []
  | persons => Fetcher.s_persons a = None \/ Fetcher.s_persons a = Some []
  | orgs => Fetcher.s_orgs a = None \/ Fetcher.s_orgs a = Some []
  | documents => Fetcher.documentIdentifiers a = []
  end.

(** The writes that the Aggregator and the Fetcher issue. *)
Inductive StoreWrite : Type :=
| SaveTrends (a : Fetcher.SaveArgs)
| AggregateDaily (cfg : Config.t) (now : JSDate.Date)
    (collectorsArray : list Aggregator.Collector) (date : string)
    (category : Aggregator.CategoryArg)
| AggregateFromFile (cfg : Config.t) (collector : Aggregator.Collector)
    (timestamp : JSDate.Date) (category : Aggregator.CategoryArg).

Definition perform (w : StoreWrite) (s : Store.t) : Store.t :=
  match w with
  | SaveTrends a => fst (Fetcher.saveTrends a s)
  | AggregateDaily cfg now cs date category =>
      fst (Aggregator.aggregateDaily cfg now cs date category s)
  | AggregateFromFile cfg c timestamp category =>
      fst (Aggregator.aggregateFromFile cfg c timestamp category s)
  end.

Definition perform_all (ws : list StoreWrite) (s : Store.t) : Store.t :=
  fold_left (fun s w => perform w s) ws s.

Definition from_file (w : StoreWrite) : Prop :=
  match w with AggregateFromFile _ _ _ _ => True | _ => False end.

Definition keyed_by_triple (w : StoreWrite) : Prop := ~ from_file w.

(** The documents that a snapshot of all categories adds to a store
    without a document of its timestamp. *)
Definition snapshot (ts : JSDate.Date) (dt : string)
    (k1 k2 k3 : list Keyword.t) (ids : option (list Keyword.t)) : Store.t :=
  [Trend.make ts realtime dt themes k1; Trend.make ts realtime dt persons k2;
   Trend.make ts realtime dt orgs k3]
  ++ match ids with
     | Some k4 => [Trend.make ts realtime dt documents k4]
     | None => []
     end.

Definition cfg0 : Config.t :=
  Config.make "http://data.gdeltproject.org/gkg"
              "http://data.gdeltproject.org/gkg" 50.

Definition one_theme : Aggregator.Collector :=
  Aggregator.mkCollector
    [Aggregator.mkItem (Some "TAX_POLITICAL") (Some 1) (Some ["doc1"])]
    [] [] ["doc1"].

Definition has_word (item : Aggregator.Item) : Prop :=
  Aggregator.item_word item <> None.

Definition lowered (item : Aggregator.Item) : string :=
  match Aggregator.item_word item with
  | Some wd => JSString.str (JSString.toLowerCase (JSString.chars wd))
  | None => EmptyString
  end.

Definition weight (item : Aggregator.Item) : Z :=
  or_default (Aggregator.item_count item) 1.

Definition map_keys (m : list Aggregator.Entry) : list string :=
  map Aggregator.e_word m.

(** What the loop has built after the items [seen]. *)
Record loop_inv (seen : list Aggregator.Item) (m : list Aggregator.Entry)
    : Prop := {
  linv_keys : forall w, In w (map_keys m) <-> In w (map lowered seen);
  linv_order :
    StronglySorted
      (fun a b => (index_of a (map lowered seen)
                   < index_of b (map lowered seen))%nat)
      (map_keys m);
  linv_total :
    total Aggregator.e_count m = total weight seen;
  linv_nonneg :
    Forall (fun item => 0 <= weight item) seen ->
    Forall (fun e => 0 <= Aggregator.e_count e) m
}.

(** The arguments of the call of [saveTrends] in a daily attempt. *)
Definition daily_args (cfg : Config.t) (d : JSDate.Date)
    (collector : Fetcher.Collector) : Fetcher.SaveArgs :=
  let ranked := Fetcher.rankCollector cfg collector in
  let dailyDate :=
    JSDate.UTC (JSDate.getUTCFullYear d) (JSDate.getUTCMonth d)
               (JSDate.getUTCDate d) in
  Fetcher.mkSaveArgs (Fetcher.DateObj dailyDate) dailyDate (Some daily)
    (Some (Fetcher.r_themes ranked)) (Some (Fetcher.r_persons ranked))
    (Some (Fetcher.r_orgs ranked)) (Fetcher.c_documentIdentifiers collector).

Definition has_type (ty : TrendType) (d : Trend.t) : bool :=
  TrendType_eqb (Trend.type d) ty.

(** 2024-05-01T08:22:17Z *)
Definition may1 : JSDate.Date := 1714551737000.

Definition sample : Fetcher.Collector :=
  Fetcher.mkCollector ["tax"; "covid-19"; "tax"] ["merkel"] []
                      ["http://example.org/a"].

(** Only yesterday's daily file can be fetched. *)
Definition world_S6 : Fetcher.World :=
  fun url =>
    if String.eqb url "http://data.gdeltproject.org/gkg/20240430.gkg.csv.zip"
    then Some sample else None.

(** Only the 15-minute file can be fetched. *)
Definition world_15 : Fetcher.World :=
  fun url =>
    if String.eqb url
         "http://data.gdeltproject.org/gkg/20240501081500.gkg.csv.zip"
    then Some sample else None.

Definition opts_default : Fetcher.Options :=
  Fetcher.mkOptions (Some may1) None.


(** No file can be fetched. *)
Definition world_none : Fetcher.World := fun _ => None.

(** Only the daily file of 2024-05-01 can be fetched. *)
Definition world_today : Fetcher.World :=
  fun url =>
    if String.eqb url "http://data.gdeltproject.org/gkg/20240501.gkg.csv.zip"
    then Some sample else None.

(** The keywords that a daily attempt saves for a category: the ranking
    of the collector, or its document identifiers. *)
Definition fetched_keywords (cfg : Config.t) (c : Fetcher.Collector)
    (cat : Category) : list Keyword.t :=
  let ranked := Fetcher.rankCollector cfg c in
  match cat with
  | themes => map Fetcher.keyword_of (Fetcher.r_themes ranked)
  | persons => map Fetcher.keyword_of (Fetcher.r_persons ranked)
  | orgs => map Fetcher.keyword_of (Fetcher.r_orgs ranked)
  | documents => map Fetcher.id_keyword (Fetcher.c_documentIdentifiers c)
  end.

(** The days whose fetch [ensureDailyCoverage] leaves running. *)
Definition left_running (cfg : Config.t) (W : Fetcher.World)
    (date : string) (windowDays : Z) (s : Store.t) : list string :=
  match snd (ScoreTrends.ensureDailyCoverage cfg W date windowDays s) with
  | Ok running => running
  | Throw _ => []
  end.

(** The store from which [scoreTrends] loads the documents: the store
    that the coverage leaves, with what the fetches left running have
    written by then. *)
Definition loaded_store (cfg : Config.t) (W : Fetcher.World)
    (date : string) (windowDays : Z) (sch : ScoreTrends.Schedule)
    (s : Store.t) : Store.t :=
  fst (ScoreTrends.complete cfg W (left_running cfg W date windowDays s)
         (ScoreTrends.before_load sch)
         (fst (ScoreTrends.ensureDailyCoverage cfg W date windowDays s))).

(** The number of occurrences of [w] in [arr]. *)
Definition occurrences (arr : list string) (w : string) : Z :=
  Z.of_nat (count_occ string_dec arr w).

(** The words of [arr] without repetition. *)
Definition distinct (arr : list string) : list string := nodup string_dec arr.

(** The items of [arr] whose word is [w] once lower-cased. *)
Definition items_of (w : string) (arr : list Aggregator.Item)
    : list Aggregator.Item :=
  filter (fun item => String.eqb (lowered item) w) arr.

(** The documents that an item carries. *)
Definition item_docs (item : Aggregator.Item) : list string :=
  match Aggregator.item_documents item with Some ds => ds | None => [] end.

(** An entry of the ranking of [arr]: its count is the total weight of the
    items of its word, and its documents are theirs, each listed once, in
    the order of their first occurrence. *)
Definition entry_of_items (arr : list Aggregator.Item) (e : Aggregator.Entry)
    : Prop :=
  Aggregator.e_count e = total weight (items_of (Aggregator.e_word e) arr) /\
  Aggregator.e_documents e
  = JSSet.from_list (flat_map item_docs (items_of (Aggregator.e_word e) arr)).

(** The first match of [q] is left as it is by [upd]. *)
Definition settled (q : Trend.t -> bool) (upd : Trend.t -> Trend.t)
    (s : Store.t) : Prop :=
  Store.update_first q upd s = Some s.

(** Saving [td] again changes nothing. *)
Definition at_rest (ty : TrendType) (isoDate : string)
    (timestamp : JSDate.Date) (td : Fetcher.TrendData) (s : Store.t) : Prop :=
  Fetcher.save_one ty isoDate timestamp td s = (s, Ok tt).

(** 00:00 UTC of the day of [t]. *)
Definition midnight (t : JSDate.Date) : JSDate.Date :=
  JSDate.Day t * JSDate.msPerDay.


(** The filter of the second tier of [scoreTrends]. *)
Definition loose_keyword (k : Keyword.t) : bool :=
  Scorer.has_word k && negb (isNumericVector (Keyword.word k)).

(** The keywords of [docs] that count for the word [w]. *)
Definition keywords_of (w : string) (docs : list (list Keyword.t))
    : list Keyword.t :=
  filter (fun k => Scorer.has_word k && String.eqb (Keyword.word k) w)
         (List.concat docs).

(** The keyword that [scoreTrends] stores for an element of its result. *)
Definition stored_keyword (r : ScoreTrends.RankedKeyword) : Keyword.t :=
  Keyword.make (ScoreTrends.word r) (ScoreTrends.count r)
               (Some (ScoreTrends.score r)) None.

(** What [mergeCounts] holds for [w] after the keywords [ks], from a map
    that holds [acc] for it. *)
Definition merged_value (acc : option Z) (ks : list Keyword.t) : option Z :=
  match ks with
  | [] => acc
  | _ :: _ => Some (or_default acc 0 + total Keyword.count ks)
  end.

(** The days that one unit of a window stands for. *)
Definition unit_days (unit : ascii) : Z :=
  if Ascii.eqb unit "d" then 1 else if Ascii.eqb unit "m" then 30 else 365.

(** A token that the tokenizer returns: not noise, and clean. *)
Definition clean_token (tok : string) : Prop :=
  isNoiseToken tok = false /\ cleanKeyword tok = Some tok.

(** The rows before the first header row, and that row with the rows
    after it. *)
Fixpoint split_header (rows : list Rows.Row)
    : list Rows.Row * option (Rows.Row * list Rows.Row) :=
  match rows with
  | [] => ([], None)
  | row :: r =>
      if FetcherParse.is_header row then ([], Some (row, r))
      else let '(pre, h) := split_header r in (row :: pre, h)
  end.

(** The data rows [rows] read with the column indices [idx]. *)
Definition collect (idx : Rows.ColumnIndices) (rows : list Rows.Row)
    : Fetcher.Collector :=
  Fetcher.mkCollector
    (flat_map (fun row => Rows.tokens (Rows.getCol row (Rows.i_themes idx)))
              rows)
    (flat_map (fun row => Rows.tokens (Rows.getCol row (Rows.i_persons idx)))
              rows)
    (flat_map (fun row => Rows.tokens (Rows.getCol row (Rows.i_orgs idx)))
              rows)
    (flat_map (fun row =>
                 FetcherParse.identifier
                   (Rows.getCol row (Rows.i_documentIdentifier idx)))
              rows).

(** Two collectors, one after the other. *)
Definition collector_app (c c' : Fetcher.Collector) : Fetcher.Collector :=
  Fetcher.mkCollector
    (Fetcher.c_themes c ++ Fetcher.c_themes c')
    (Fetcher.c_persons c ++ Fetcher.c_persons c')
    (Fetcher.c_orgs c ++ Fetcher.c_orgs c')
    (Fetcher.c_documentIdentifiers c ++ Fetcher.c_documentIdentifiers c').

(** Every item of the collector has a word. *)
Definition worded (c : Aggregator.Collector) : Prop :=
  Forall has_word (Aggregator.c_themes c) /\
  Forall has_word (Aggregator.c_persons c) /\
  Forall has_word (Aggregator.c_orgs c).

(** No token was collected. *)
Definition no_token (c : Scheduler.Local) : Prop :=
  Scheduler.l_themes c = [] /\ Scheduler.l_persons c = [] /\
  Scheduler.l_orgs c = [].

(** The local collectors of the files that the daily job fetches. *)
Definition collected (cfg : Config.t) (realtimeIntervalMin : Z)
    (W : Scheduler.World) (now : JSDate.Date) (idx : Rows.ColumnIndices)
    : list Scheduler.Local :=
  snd (fold_left (Scheduler.fetch_file cfg realtimeIntervalMin W now)
                 (seq 0 Scheduler.filesToFetch) (idx, [])).

(* ================================================================== *)
(** * Part III: the properties *)

(* ================================================================== *)
(** ** Properties of the tokenizer *)

Section StringLemmas.

Variable p : ascii -> bool.

Lemma dropWhile_head_not l : head_not p (dropWhile p l).
Proof.
  induction l as [|c r IH]; simpl; auto.
  destruct (p c) eqn:E; simpl; auto.
Qed.

Lemma dropWhile_id l : head_not p l -> dropWhile p l = l.
Proof. destruct l as [|c r]; simpl; auto. intros ->. reflexivity. Qed.

Lemma dropWhile_snoc l c :
  p c = false -> dropWhile p (l ++ [c]) = dropWhile p l ++ [c].
Proof.
  intros Hc. induction l as [|a r IH]; simpl.
  - now rewrite Hc.
  - destruct (p a); auto.
Qed.

Lemma dropWhileEnd_cons c r :
  p c = false -> dropWhileEnd p (c :: r) = c :: dropWhileEnd p r.
Proof.
  intros Hc. unfold dropWhileEnd. simpl.
  rewrite dropWhile_snoc by assumption.
  rewrite rev_app_distr. reflexivity.
Qed.

Lemma dropWhileEnd_rev_head_not l : head_not p (rev (dropWhileEnd p l)).
Proof.
  unfold dropWhileEnd. rewrite rev_involutive. apply dropWhile_head_not.
Qed.

Lemma dropWhileEnd_head_not l : head_not p l -> head_not p (dropWhileEnd p l).
Proof.
  destruct l as [|c r]; simpl; intros H.
  - exact I.
  - rewrite dropWhileEnd_cons by assumption. exact H.
Qed.

Lemma dropWhileEnd_id l : head_not p (rev l) -> dropWhileEnd p l = l.
Proof.
  intros H. unfold dropWhileEnd.
  rewrite dropWhile_id by assumption. apply rev_involutive.
Qed.

Lemma takeWhile_app x c r :
  forallb p x = true -> p c = false -> takeWhile p (x ++ c :: r) = x.
Proof.
  intros Hx Hc. induction x as [|a x IH]; simpl in *.
  - now rewrite Hc.
  - apply andb_prop in Hx as [Ha Hx]. rewrite Ha. f_equal. auto.
Qed.

Lemma dropWhile_app x c r :
  forallb p x = true -> p c = false -> dropWhile p (x ++ c :: r) = c :: r.
Proof.
  intros Hx Hc. induction x as [|a x IH]; simpl in *.
  - now rewrite Hc.
  - apply andb_prop in Hx as [Ha Hx]. rewrite Ha. auto.
Qed.

Lemma takeWhile_all x : forallb p x = true -> takeWhile p x = x.
Proof.
  induction x as [|a x IH]; simpl; auto.
  intros H. apply andb_prop in H as [Ha Hx]. rewrite Ha. f_equal. auto.
Qed.

Lemma dropWhile_all x : forallb p x = true -> dropWhile p x = [].
Proof.
  induction x as [|a x IH]; simpl; auto.
  intros H. apply andb_prop in H as [Ha Hx]. rewrite Ha. auto.
Qed.

End StringLemmas.

Lemma Forall_dropWhile (P : ascii -> Prop) p l :
  Forall P l -> Forall P (dropWhile p l).
Proof.
  induction 1 as [|c r Hc Hr IH]; simpl; auto.
  destruct (p c); auto.
Qed.

Lemma Forall_dropWhileEnd (P : ascii -> Prop) p l :
  Forall P l -> Forall P (dropWhileEnd p l).
Proof.
  intros H. unfold dropWhileEnd.
  apply Forall_rev, Forall_dropWhile, Forall_rev, H.
Qed.

Lemma is_word_not_space c : is_word c = true -> is_space c = false.
Proof.
  destruct c as [[] [] [] [] [] [] [] []]; vm_compute; congruence.
Qed.

Lemma lower_char_idem c : lower_char (lower_char c) = lower_char c.
Proof. destruct c as [[] [] [] [] [] [] [] []]; vm_compute; reflexivity. Qed.

Lemma collapse_from_snoc b l c :
  is_space c = false -> collapse_from b (l ++ [c]) = collapse_from b l ++ [c].
Proof.
  intros Hc. revert b. induction l as [|a r IH]; intros b; simpl.
  - now rewrite Hc.
  - destruct (is_space a); [destruct b|]; simpl; now rewrite IH.
Qed.

Lemma collapse_from_Forall (P : ascii -> Prop) b l :
  P " "%char -> Forall P l -> Forall P (collapse_from b l).
Proof.
  intros Hsp H. revert b.
  induction H as [|a r Ha Hr IH]; intros b; simpl; auto.
  destruct (is_space a); [destruct b|]; auto.
Qed.

(** What [cleanKeyword] returns is lower case, and starts and ends with a
    word character. *)
Lemma cleanKeyword_shape raw tok :
  cleanKeyword raw = Some tok ->
  is_stopword tok = false /\
  toLowerCase (chars tok) = chars tok /\
  trim (chars tok) = chars tok.
Proof.
  unfold cleanKeyword.
  destruct (String.eqb raw EmptyString); [discriminate|].
  set (s0 := trim (toLowerCase (chars raw))).
  set (s1 := strip_nonword s0).
  set (s := collapse_spaces s1).
  destruct (List.length s =? 0)%nat; [discriminate|].
  destruct (is_stopword (str s)) eqn:Hstop; [discriminate|].
  intros [= <-]. split; [assumption|].
  unfold chars, str. rewrite list_ascii_of_string_of_list_ascii.
  assert (Hlow : Forall (fun c => lower_char c = c) s).
  { apply collapse_from_Forall; [reflexivity|].
    apply Forall_dropWhileEnd, Forall_dropWhile.
    apply Forall_dropWhileEnd, Forall_dropWhile.
    unfold toLowerCase. apply Forall_forall. intros c Hc.
    apply in_map_iff in Hc as [c0 [<- _]]. apply lower_char_idem. }
  assert (Hhd : head_not is_space s).
  { assert (H1 : head_not (fun c => negb (is_word c)) s1).
    { apply dropWhileEnd_head_not, dropWhile_head_not. }
    subst s. destruct s1 as [|c r]; simpl in *; [exact I|].
    apply negb_false_iff in H1. apply is_word_not_space in H1.
    unfold collapse_spaces. simpl. rewrite H1. simpl. exact H1. }
  assert (Hlast : head_not is_space (rev s)).
  { assert (H1 : head_not (fun c => negb (is_word c)) (rev s1)).
    { apply dropWhileEnd_rev_head_not. }
    subst s. destruct (rev s1) as [|c r] eqn:E.
    - apply (f_equal (@rev ascii)) in E. rewrite rev_involutive in E.
      rewrite E. exact I.
    - apply (f_equal (@rev ascii)) in E. rewrite rev_involutive in E.
      simpl in E. simpl in H1. apply negb_false_iff in H1.
      rewrite E. unfold collapse_spaces.
      rewrite collapse_from_snoc by now apply is_word_not_space.
      rewrite rev_app_distr. simpl. now apply is_word_not_space. }
  split.
  - unfold toLowerCase. rewrite <- (map_id s) at 2.
    apply map_ext_in. intros c Hc.
    rewrite Forall_forall in Hlow. auto.
  - unfold trim. rewrite (dropWhile_id _ _ Hhd).
    now apply dropWhileEnd_id.
Qed.

Lemma cleaned_In parts tok :
  In tok (cleaned parts) -> exists raw, cleanKeyword raw = Some tok.
Proof.
  induction parts as [|q ps IH]; simpl; [tauto|].
  destruct (cleanKeyword (str q)) eqn:E; simpl; auto.
  intros [<- | H]; eauto.
Qed.

(* ================================================================== *)
(** *** The boolean matchers accept every string of their regular
    expression *)

Lemma startsWith_app p rest : startsWith p (p ++ rest) = true.
Proof.
  induction p as [|a p IH]; simpl; auto.
  now rewrite Ascii.eqb_refl.
Qed.

Lemma Forall_forallb (f : ascii -> bool) l :
  Forall (fun c => f c = true) l -> forallb f l = true.
Proof. intros H. apply forallb_forall. now apply Forall_forall. Qed.

Lemma matches_url_complete s :
  matches_url s ->
  startsWith (chars "http://") s || startsWith (chars "https://") s
  || startsWith (chars "www.") s = true.
Proof.
  intros [rest [-> | [-> | ->]]]; rewrite startsWith_app;
    rewrite ?orb_true_r; reflexivity.
Qed.

Lemma matches_strict_domain_complete s :
  matches_strict_domain s -> re_strict_domain s = true.
Proof.
  intros (x & y & -> & Hx & Fx & Fy & Hy).
  unfold re_strict_domain. rewrite rev_app_distr.
  change (rev ("."%char :: y)) with (rev y ++ ["."%char]).
  rewrite <- app_assoc.
  change (["."%char] ++ rev x) with ("."%char :: rev x).
  assert (Hry : forallb is_lower_az (rev y) = true)
    by now apply Forall_forallb, Forall_rev.
  rewrite takeWhile_app, dropWhile_app by (auto; reflexivity).
  rewrite !length_rev.
  apply Nat.leb_le in Hy. rewrite Hy.
  assert (Fx' : forallb domain_char (rev x) = true)
    by now apply Forall_forallb, Forall_rev.
  rewrite Fx'.
  destruct x as [|a x]; [congruence|]. reflexivity.
Qed.

Lemma split_no_sep sep p :
  Forall (fun c => Ascii.eqb c sep = false) p -> split sep p = [p].
Proof.
  induction 1 as [|c r Hc Hr IH]; simpl; auto.
  now rewrite Hc, IH.
Qed.

Lemma split_app_sep sep p r :
  Forall (fun c => Ascii.eqb c sep = false) p ->
  split sep (p ++ sep :: r) = p :: split sep r.
Proof.
  induction 1 as [|c q Hc Hq IH]; simpl.
  - now rewrite Ascii.eqb_refl.
  - now rewrite Hc, IH.
Qed.

Lemma digit_not_comma c : is_digit c = true -> Ascii.eqb c ","%char = false.
Proof.
  destruct c as [[] [] [] [] [] [] [] []]; vm_compute; congruence.
Qed.

Lemma matches_number_no_comma p :
  matches_number p -> Forall (fun c => Ascii.eqb c ","%char = false) p.
Proof.
  intros [[_ H] | (i & f & -> & _ & _ & Hi & Hf)].
  - eapply Forall_impl; [|exact H]. apply digit_not_comma.
  - apply Forall_app; split; [|constructor; [reflexivity|]];
      (eapply Forall_impl; [|eassumption]); apply digit_not_comma.
Qed.

Lemma matches_number_complete p : matches_number p -> re_number p = true.
Proof.
  unfold re_number.
  intros [[Hne H] | (i & f & -> & Hi & Hf & Fi & Ff)].
  - apply Forall_forallb in H.
    rewrite takeWhile_all, dropWhile_all by assumption.
    destruct p; [congruence|reflexivity].
  - apply Forall_forallb in Fi. apply Forall_forallb in Ff.
    rewrite takeWhile_app, dropWhile_app by (auto; reflexivity).
    rewrite Ff. destruct i; [congruence|]. destruct f; [congruence|].
    reflexivity.
Qed.

Lemma split_numbers n0 ns :
  matches_number n0 -> Forall matches_number ns ->
  split ","%char (n0 ++ List.concat (map (fun n => ","%char :: n) ns))
  = n0 :: ns.
Proof.
  intros H0 Hns. revert n0 H0.
  induction Hns as [|n ns Hn Hns IH]; intros n0 H0; simpl.
  - rewrite app_nil_r. now apply split_no_sep, matches_number_no_comma.
  - rewrite split_app_sep by now apply matches_number_no_comma.
    f_equal. now apply IH.
Qed.

Lemma matches_numeric_vector_complete s :
  matches_numeric_vector s -> re_numeric_vector s = true.
Proof.
  intros (n0 & ns & -> & H0 & Hns & Hlen).
  unfold re_numeric_vector. rewrite split_numbers by assumption.
  apply andb_true_intro; split.
  - apply Nat.leb_le. simpl. lia.
  - simpl. rewrite (matches_number_complete H0). simpl.
    apply forallb_forall. intros n Hn.
    apply matches_number_complete. rewrite Forall_forall in Hns. auto.
Qed.

(* ================================================================== *)
(** *** ... and nothing else *)

Lemma takeWhile_dropWhile p l : takeWhile p l ++ dropWhile p l = l.
Proof.
  induction l as [|c r IH]; simpl; auto.
  destruct (p c); simpl; congruence.
Qed.

Lemma takeWhile_Forall p l : Forall (fun c => p c = true) (takeWhile p l).
Proof.
  induction l as [|c r IH]; simpl; auto.
  destruct (p c) eqn:E; auto.
Qed.

Lemma forallb_Forall (f : ascii -> bool) l :
  forallb f l = true -> Forall (fun c => f c = true) l.
Proof. intros H. apply Forall_forall. now apply forallb_forall. Qed.

Lemma length_nonzero (A : Type) (l : list A) :
  negb (List.length l =? 0)%nat = true -> l <> [].
Proof. destruct l; simpl; congruence. Qed.

Lemma matches_strict_domain_sound s :
  re_strict_domain s = true -> matches_strict_domain s.
Proof.
  unfold re_strict_domain. intros H.
  pose proof (takeWhile_dropWhile is_lower_az (rev s)) as Hsplit.
  pose proof (takeWhile_Forall is_lower_az (rev s)) as Htld.
  destruct (dropWhile is_lower_az (rev s)) as [|dot pre]; [discriminate|].
  apply andb_prop in H as [H Hpre]. apply andb_prop in H as [H Hne].
  apply andb_prop in H as [Hdot Hlen].
  apply Ascii.eqb_eq in Hdot. subst dot.
  exists (rev pre), (rev (takeWhile is_lower_az (rev s))).
  split; [|split; [|split; [|split]]].
  - rewrite <- (rev_involutive s), <- Hsplit at 1.
    rewrite rev_app_distr. simpl. now rewrite <- app_assoc.
  - apply length_nonzero in Hne. intros E. apply Hne.
    now rewrite <- (rev_involutive pre), E.
  - apply Forall_rev. now apply forallb_Forall.
  - now apply Forall_rev.
  - rewrite length_rev. now apply Nat.leb_le.
Qed.

Lemma matches_number_sound p : re_number p = true -> matches_number p.
Proof.
  unfold re_number. intros H.
  pose proof (takeWhile_dropWhile is_digit p) as Hsplit.
  pose proof (takeWhile_Forall is_digit p) as Hint.
  destruct (dropWhile is_digit p) as [|dot frac].
  - left. rewrite app_nil_r in Hsplit. rewrite Hsplit in *.
    split; [now apply length_nonzero | exact Hint].
  - right. apply andb_prop in H as [H Hfrac]. apply andb_prop in H as [H Hf].
    apply andb_prop in H as [Hi Hdot].
    apply Ascii.eqb_eq in Hdot. subst dot.
    exists (takeWhile is_digit p), frac.
    repeat split; auto using length_nonzero, forallb_Forall.
Qed.

Lemma split_join sep s :
  match split sep s with
  | p0 :: ps => s = p0 ++ List.concat (map (fun p => sep :: p) ps)
  | [] => False
  end.
Proof.
  induction s as [|c r IH]; simpl; auto.
  destruct (Ascii.eqb_spec c sep) as [-> | Hne].
  - destruct (split sep r) as [|p0 ps]; [contradiction|].
    simpl. now rewrite <- IH.
  - destruct (split sep r) as [|p0 ps]; [contradiction|].
    simpl. now rewrite <- IH.
Qed.

Lemma matches_numeric_vector_sound s :
  re_numeric_vector s = true -> matches_numeric_vector s.
Proof.
  unfold re_numeric_vector. intros H.
  pose proof (split_join ","%char s) as Hjoin.
  destruct (split ","%char s) as [|n0 ns]; [contradiction|].
  apply andb_prop in H as [Hlen Hall]. simpl in Hall.
  apply andb_prop in Hall as [H0 Hns].
  exists n0, ns. split; [exact Hjoin|].
  split; [now apply matches_number_sound|]. split.
  - apply Forall_forall. intros n Hn. apply matches_number_sound.
    rewrite forallb_forall in Hns. auto.
  - apply Nat.leb_le in Hlen. simpl in Hlen. lia.
Qed.

(** A token that [isNoiseToken] lets through, once it is known to be in
    the form [cleanKeyword] returns. *)
Lemma isNoiseToken_false tok :
  toLowerCase (chars tok) = chars tok ->
  trim (chars tok) = chars tok ->
  isNoiseToken tok = false ->
  3 <= len (chars tok) /\
  ~ matches_url (chars tok) /\
  ~ (matches_strict_domain (chars tok) /\ ~ In " "%char (chars tok)) /\
  ~ matches_numeric_vector (chars tok) /\
  5 * count_digits (chars tok) <= 3 * len (chars tok).
Proof.
  intros Hlow Htrim. unfold isNoiseToken.
  destruct (String.eqb tok EmptyString) eqn:Hemp; [discriminate|].
  rewrite Htrim. unfold str, chars at 1.
  rewrite string_of_list_ascii_of_string. fold (chars tok).
  destruct (len (chars tok) <? 3) eqn:Hlen; [discriminate|].
  destruct (isUrl tok) eqn:Hurl; [discriminate|].
  destruct (isStrictDomain tok) eqn:Hdom; [discriminate|]. cbn [orb].
  destruct (isNumericVector tok) eqn:Hvec; [discriminate|].
  destruct (isMostlyDigitsOrPunct tok) eqn:Hdig; [discriminate|].
  intros _. apply Z.ltb_ge in Hlen.
  unfold isUrl in Hurl. unfold isStrictDomain in Hdom.
  unfold isNumericVector in Hvec. unfold isMostlyDigitsOrPunct in Hdig.
  rewrite Hlow in *. rewrite Hemp in *.
  repeat split.
  - exact Hlen.
  - intros H. apply matches_url_complete in H. congruence.
  - intros [H Hsp]. apply matches_strict_domain_complete in H.
    rewrite H in Hdom. simpl in Hdom. apply negb_false_iff in Hdom.
    apply Hsp. unfold includes_char in Hdom.
    apply existsb_exists in Hdom as [c [Hin Hc]].
    apply Ascii.eqb_eq in Hc. now subst c.
  - intros H. apply matches_numeric_vector_complete in H. congruence.
  - apply Z.ltb_ge in Hdig. lia.
Qed.

Lemma is_stopword_false tok : is_stopword tok = false -> ~ In tok STOPWORDS.
Proof.
  intros H Hin. unfold is_stopword in H.
  assert (existsb (String.eqb tok) STOPWORDS = true).
  { apply existsb_exists. exists tok. split; [assumption|].
    apply String.eqb_refl. }
  congruence.
Qed.

(** C7.  Every token returned by [splitAndClean] is a non-stopword of at
    least three characters that is no URL, no bare domain, no numeric
    vector, and has at most 60% of digits. *)
Theorem splitAndClean_rejects_noise (t tok : string) :
  In tok (splitAndClean t) ->
  ~ In tok STOPWORDS /\
  3 <= len (chars tok) /\
  ~ matches_url (chars tok) /\
  ~ (matches_strict_domain (chars tok) /\ ~ In " "%char (chars tok)) /\
  ~ matches_numeric_vector (chars tok) /\
  5 * count_digits (chars tok) <= 3 * len (chars tok).
Proof.
  unfold splitAndClean. destruct (String.eqb t EmptyString); [intros []|].
  intros H. apply filter_In in H as [Hin Hnoise].
  apply negb_true_iff in Hnoise.
  apply cleaned_In in Hin as [raw Hraw].
  apply cleanKeyword_shape in Hraw as (Hstop & Hlow & Htrim).
  split; [now apply is_stopword_false|].
  now apply isNoiseToken_false.
Qed.

Lemma splitAndClean_rejects_noise_witness :
  In "covid-19" (splitAndClean "AND;covid-19;example.com") /\
  3 <= len (chars "covid-19") /\
  ~ matches_url (chars "covid-19").
Proof.
  assert (H : In "covid-19" (splitAndClean "AND;covid-19;example.com"))
    by (vm_compute; auto).
  split; [exact H|].
  split; apply (splitAndClean_rejects_noise _ _ H).
Defined.

(** C8.  On the scenario string the tokenizer keeps three tokens: the
    path [google.com/news] neither starts with a URL scheme or [www.], nor
    is it a bare domain, so it stays. *)
Theorem splitAndClean_scenario :
  splitAndClean
    "TAX_POLITICAL;AND;example.com;google.com/news;1.2,3.4,5.6,7.8;covid-19;TH"
  = ["tax_political"; "google.com/news"; "covid-19"].
Proof. vm_compute. reflexivity. Qed.

Lemma splitAndClean_scenario_not_two :
  splitAndClean
    "TAX_POLITICAL;AND;example.com;google.com/news;1.2,3.4,5.6,7.8;covid-19;TH"
  <> ["tax_political"; "covid-19"].
Proof. vm_compute. discriminate. Qed.

(** The revision of [splitAndClean] before the noise filter kept what
    [cleanKeyword] returns, a domain included. *)
Example splitAndClean_v0_keeps_domain :
  splitAndClean_v0 "AND;example.com;TH" = ["example.com"; "th"].
Proof. vm_compute. reflexivity. Qed.

(* ================================================================== *)
(** ** Properties of the stable sort and of [slice] *)

Section SortFacts.
Variable A : Type.
Variable cmp : A -> A -> Z.

Lemma insert_perm x l : Permutation (JSArray.insert cmp x l) (x :: l).
Proof.
  induction l as [|y r IH]; simpl; auto.
  destruct (cmp x y <=? 0); auto.
  rewrite IH. apply perm_swap.
Qed.

Lemma sort_perm l : Permutation (JSArray.sort cmp l) l.
Proof.
  induction l as [|x r IH]; simpl; auto.
  rewrite insert_perm. now constructor.
Qed.

Lemma slice0_firstn (l : list A) e :
  exists k, JSArray.slice0 l e = firstn k l /\
            (0 <= e -> Z.of_nat k <= e).
Proof.
  unfold JSArray.slice0. eexists. split; [reflexivity|].
  intros He. destruct (e <? 0) eqn:E; lia.
Qed.

Lemma slice0_length (l : list A) e :
  0 <= e -> Z.of_nat (List.length (JSArray.slice0 l e)) <= e.
Proof.
  intros He. destruct (slice0_firstn l e) as (k & -> & Hk).
  rewrite length_firstn. specialize (Hk He). lia.
Qed.

Lemma StronglySorted_firstn (R : A -> A -> Prop) k l :
  StronglySorted R l -> StronglySorted R (firstn k l).
Proof.
  intros H. revert k. induction H as [|x l Hl IH Hx]; intros k.
  - rewrite firstn_nil. constructor.
  - destruct k; simpl; constructor; auto.
    apply Forall_forall. intros y Hy.
    rewrite Forall_forall in Hx. apply Hx.
    rewrite <- (firstn_skipn k l). apply in_or_app. now left.
Qed.

Lemma StronglySorted_snoc (R : A -> A -> Prop) l x :
  StronglySorted R l -> Forall (fun a => R a x) l ->
  StronglySorted R (l ++ [x]).
Proof.
  induction 1 as [|a l Hl IH Ha]; intros Hx; simpl.
  - repeat constructor.
  - inversion Hx; subst. constructor; auto.
    apply Forall_app. split; auto.
Qed.

Lemma StronglySorted_nth (R : A -> A -> Prop) l :
  StronglySorted R l ->
  forall i j a b, (i < j)%nat ->
    nth_error l i = Some a -> nth_error l j = Some b -> R a b.
Proof.
  induction 1 as [|x l Hl IH Hx]; intros i j a b Hij Ha Hb.
  - destruct i; discriminate.
  - destruct j as [|j]; [lia|]. simpl in Hb.
    destruct i as [|i]; simpl in Ha.
    + injection Ha as <-. rewrite Forall_forall in Hx.
      apply Hx. eapply nth_error_In; eauto.
    + apply (IH i j); auto. lia.
Qed.

End SortFacts.

Section ByKey.
(** Sorting by descending [key], as [(a, b) => b.key - a.key] does. *)
Variable A : Type.
Variable key : A -> Z.
Variable ord : A -> nat.

Let by_key (a b : A) : Z := key b - key a.

Lemma insert_key_desc x l :
  StronglySorted (key_desc key) l ->
  StronglySorted (key_desc key) (JSArray.insert by_key x l).
Proof.
  induction 1 as [|y r Hr IH Hy]; simpl.
  - repeat constructor.
  - unfold by_key at 1. destruct (key y - key x <=? 0) eqn:E.
    + apply Z.leb_le in E. constructor; [now constructor|].
      constructor; [unfold key_desc; lia|].
      eapply Forall_impl; [|exact Hy]. unfold key_desc. intros; lia.
    + apply Z.leb_gt in E. constructor; auto.
      eapply Permutation_Forall; [symmetry; apply insert_perm|].
      constructor; auto. unfold key_desc. lia.
Qed.

Lemma sort_key_desc l : StronglySorted (key_desc key) (JSArray.sort by_key l).
Proof.
  induction l as [|x r IH]; simpl; [constructor|].
  now apply insert_key_desc.
Qed.

Lemma insert_stable x l :
  StronglySorted (key_desc_then_ord key ord) l ->
  Forall (fun y => (ord x < ord y)%nat) l ->
  StronglySorted (key_desc_then_ord key ord) (JSArray.insert by_key x l).
Proof.
  induction 1 as [|y r Hr IH Hy]; intros Hx; simpl.
  - repeat constructor.
  - inversion Hx as [|? ? Hxy Hxr]; subst.
    unfold by_key at 1. destruct (key y - key x <=? 0) eqn:E.
    + apply Z.leb_le in E. constructor; [now constructor|].
      constructor; [unfold key_desc_then_ord; lia|].
      rewrite Forall_forall in *. intros z Hz.
      specialize (Hy z Hz). specialize (Hxr z Hz).
      unfold key_desc_then_ord in *. lia.
    + apply Z.leb_gt in E. constructor; auto.
      eapply Permutation_Forall; [symmetry; apply insert_perm|].
      constructor; auto. unfold key_desc_then_ord. lia.
Qed.

Lemma sort_stable l :
  StronglySorted (fun a b => (ord a < ord b)%nat) l ->
  StronglySorted (key_desc_then_ord key ord) (JSArray.sort by_key l).
Proof.
  induction 1 as [|x r Hr IH Hx]; simpl; [constructor|].
  apply insert_stable; auto.
  eapply Permutation_Forall; [symmetry; apply sort_perm|]. exact Hx.
Qed.

Lemma total_perm l l' : Permutation l l' -> total key l = total key l'.
Proof. induction 1; simpl; lia. Qed.

Lemma total_firstn k l :
  Forall (fun a => 0 <= key a) l -> total key (firstn k l) <= total key l.
Proof.
  intros H. revert k. induction H as [|x l Hx Hl IH]; intros k.
  - rewrite firstn_nil. simpl. lia.
  - destruct k; simpl.
    + assert (0 <= total key l).
      { clear IH. induction Hl; simpl; lia. }
      lia.
    + specialize (IH k). lia.
Qed.
End ByKey.

(* ================================================================== *)
(** ** Properties of the tally object *)

Lemma index_of_app_in w l l' :
  In w l -> index_of w (l ++ l') = index_of w l.
Proof.
  induction l as [|x r IH]; simpl; [tauto|].
  destruct (String.eqb_spec w x); auto.
  intros [H | H]; [congruence|]. f_equal. auto.
Qed.

Lemma index_of_lt w l : In w l -> (index_of w l < List.length l)%nat.
Proof.
  induction l as [|x r IH]; simpl; [tauto|].
  destruct (String.eqb_spec w x); [lia|].
  intros [H | H]; [congruence|]. apply IH in H. lia.
Qed.

Lemma index_of_app_notin w l :
  ~ In w l -> index_of w (l ++ [w]) = List.length l.
Proof.
  induction l as [|x r IH]; simpl; intros H.
  - now rewrite String.eqb_refl.
  - destruct (String.eqb_spec w x); [subst; tauto|]. f_equal. tauto.
Qed.

Lemma get_None o k : JSObject.get o k = None <-> ~ In k (keys o).
Proof.
  unfold keys. induction o as [|[k' v'] r IH]; simpl; [tauto|].
  destruct (String.eqb_spec k k'); subst.
  - split; [discriminate|tauto].
  - rewrite IH. intuition congruence.
Qed.

Lemma get_Some_in o k v : JSObject.get o k = Some v -> In (k, v) o.
Proof.
  induction o as [|[k' v'] r IH]; simpl; [discriminate|].
  destruct (String.eqb_spec k k'); subst.
  - intros [= ->]. now left.
  - auto.
Qed.

Lemma set_fresh o k v :
  JSObject.get o k = None -> JSObject.set o k v = o ++ [(k, v)].
Proof.
  induction o as [|[k' v'] r IH]; simpl; auto.
  destruct (String.eqb k k'); [discriminate|].
  intros H. f_equal. auto.
Qed.

Lemma set_present o k v0 v :
  JSObject.get o k = Some v0 ->
  keys (JSObject.set o k v) = keys o /\
  sum_values (JSObject.set o k v) = sum_values o - v0 + v /\
  (forall P : string * Z -> Prop,
      P (k, v) -> Forall P o -> Forall P (JSObject.set o k v)).
Proof.
  unfold sum_values.
  induction o as [|[k' v'] r IH]; simpl; [discriminate|].
  destruct (String.eqb_spec k k'); subst.
  - intros [= ->]. simpl. repeat split; [lia|].
    intros P HP HF. inversion HF; subst. constructor; auto.
  - intros H. destruct (IH H) as (Hk & Hs & HP). simpl.
    repeat split; [congruence | lia |].
    intros P HPk HF. inversion HF; subst. constructor; auto.
Qed.

Lemma sum_values_app o o' : sum_values (o ++ o') = sum_values o + sum_values o'.
Proof. unfold sum_values. induction o; simpl; lia. Qed.

Lemma StronglySorted_ext (A : Type) (R R' : A -> A -> Prop) l :
  (forall a b, In a l -> In b l -> R a b -> R' a b) ->
  StronglySorted R l -> StronglySorted R' l.
Proof.
  intros HR H. induction H as [|x l Hl IH Hx]; constructor.
  - apply IH. intros a b Ha Hb. apply HR; now right.
  - rewrite Forall_forall in *. intros y Hy.
    apply HR; [now left | now right | auto].
Qed.

Lemma tally_spec arr : tally_inv arr (Ranker.tally arr).
Proof.
  unfold Ranker.tally.
  induction arr as [|k arr IH] using rev_ind.
  - simpl. split; simpl; try constructor; tauto.
  - rewrite fold_left_app. simpl.
    fold (Ranker.tally arr) in *.
    set (o := Ranker.tally arr) in *.
    destruct IH as [Hkeys Hord Hpos Hsum].
    assert (Hord' :
      StronglySorted
        (fun a b => (index_of a (arr ++ [k]) < index_of b (arr ++ [k]))%nat)
        (keys o)).
    { eapply StronglySorted_ext; [|exact Hord]. intros a b Ha Hb.
      apply Hkeys in Ha. apply Hkeys in Hb.
      now rewrite !index_of_app_in. }
    destruct (JSObject.get o k) as [v0|] eqn:Hget.
    + assert (Hv0 : 1 <= v0).
      { apply get_Some_in in Hget. rewrite Forall_forall in Hpos.
        apply (Hpos _ Hget). }
      assert (Hin : In k arr).
      { apply Hkeys. apply get_Some_in in Hget.
        change k with (fst (k, v0)). now apply in_map. }
      unfold or_default. destruct (Z.eqb_spec v0 0); [lia|].
      destruct (@set_present o k v0 (v0 + 1) Hget) as (Hk & Hs & HP).
      split.
      * intros k'. rewrite Hk, Hkeys, in_app_iff. simpl.
        intuition congruence.
      * now rewrite Hk.
      * apply HP; simpl; auto. lia.
      * rewrite Hs, Hsum, length_app. simpl. lia.
    + simpl. rewrite (@set_fresh o k 1 Hget).
      assert (Hnin : ~ In k arr).
      { rewrite <- Hkeys. now apply get_None. }
      split.
      * intros k'. unfold keys. rewrite map_app, !in_app_iff. simpl.
        fold (keys o). rewrite Hkeys. tauto.
      * unfold keys. rewrite map_app. simpl. fold (keys o).
        apply StronglySorted_snoc; auto.
        apply Forall_forall. intros a Ha. apply Hkeys in Ha.
        rewrite index_of_app_in by assumption.
        rewrite index_of_app_notin by assumption.
        now apply index_of_lt.
      * apply Forall_app. split; auto. constructor; simpl; [lia|constructor].
      * rewrite sum_values_app, Hsum, length_app.
        unfold sum_values. simpl. lia.
Qed.

Lemma filter_partition_perm (A : Type) (p : A -> bool) l :
  Permutation (filter p l ++ filter (fun a => negb (p a)) l) l.
Proof.
  induction l as [|x r IH]; simpl; auto.
  destruct (p x); simpl.
  - now constructor.
  - rewrite <- Permutation_middle. now constructor.
Qed.

Lemma entries_perm o : Permutation (JSObject.entries o) o.
Proof.
  unfold JSObject.entries. rewrite sort_perm. apply filter_partition_perm.
Qed.

(** Without array-index keys, [Object.entries] lists the properties in
    creation order. *)
Lemma entries_no_index o :
  Forall (fun k => JSObject.array_index k = None) (keys o) ->
  JSObject.entries o = o.
Proof.
  intros H. unfold JSObject.entries.
  assert (Hf : forall kv, In kv o -> JSObject.is_index kv = false).
  { intros kv Hin. unfold JSObject.is_index.
    rewrite Forall_forall in H. rewrite (H (fst kv)); auto.
    now apply in_map. }
  clear H.
  assert (H1 : filter JSObject.is_index o = []).
  { induction o as [|kv r IH]; simpl; auto.
    rewrite (Hf kv) by now left. apply IH. intros; apply Hf; now right. }
  assert (H2 : filter (fun kv => negb (JSObject.is_index kv)) o = o).
  { induction o as [|kv r IH]; simpl; auto.
    rewrite (Hf kv) by now left. simpl. f_equal.
    - apply IH; [intros; apply Hf; now right|].
      simpl in H1. rewrite (Hf kv) in H1 by now left. exact H1. }
  rewrite H1, H2. reflexivity.
Qed.

(* ================================================================== *)
(** ** Properties of the ranker *)

Lemma sum_counts_entries o : sum_counts (map entry_of o) = sum_values o.
Proof.
  unfold sum_counts, sum_values. induction o; simpl; auto. now rewrite IHo.
Qed.

Lemma StronglySorted_map (A B : Type) (f : A -> B) (R : B -> B -> Prop) l :
  StronglySorted (fun a b => R (f a) (f b)) l -> StronglySorted R (map f l).
Proof.
  induction 1 as [|x l Hl IH Hx]; simpl; constructor; auto.
  apply Forall_map. exact Hx.
Qed.

(** C5 (amended).  For a non-negative [topN], [rankByCount] returns at
    most [topN] entries, sorted by non-increasing count, whose counts sum
    to at most the length of the input; when no input word is an array
    index, entries of equal count are in the order in which their words
    first occurred; and the scenario input gives [a:2, b:2]. *)
Theorem rankByCount_ranked (arr : list string) (topN : Z) :
  0 <= topN ->
  let out := Ranker.rankByCount arr (Some topN) in
  Z.of_nat (List.length out) <= topN /\
  StronglySorted (fun a b => Ranker.count a >= Ranker.count b) out /\
  sum_counts out <= Z.of_nat (List.length arr) /\
  (Forall (fun w => JSObject.array_index w = None) arr ->
   ties_in_first_seen_order arr out) /\
  Ranker.rankByCount ["a"; "b"; "a"; "c"; "b"; "d"] (Some 2)
  = [Ranker.mkEntry "a" 2; Ranker.mkEntry "b" 2].
Proof.
  intros HtopN out. subst out. unfold Ranker.rankByCount.
  fold entry_of.
  set (o := Ranker.tally arr).
  set (E := map entry_of (JSObject.entries o)).
  set (S := JSArray.sort (fun a b => Ranker.count b - Ranker.count a) E).
  destruct (tally_spec arr) as [Hkeys Hord Hpos Hsum]. fold o in Hkeys, Hord, Hpos, Hsum.
  destruct (slice0_firstn S topN) as (k & Hk & _).
  split; [now apply slice0_length|].
  rewrite Hk.
  split; [apply StronglySorted_firstn, sort_key_desc|].
  split; [|split; [|reflexivity]].
  - assert (HE : Permutation E (map entry_of o))
      by apply Permutation_map, entries_perm.
    assert (HS : Permutation S (map entry_of o))
      by (unfold S; now rewrite sort_perm).
    unfold sum_counts. etransitivity; [apply total_firstn|].
    + eapply Permutation_Forall; [symmetry; exact HS|].
      apply Forall_map. eapply Forall_impl; [|exact Hpos].
      simpl. intros; lia.
    + rewrite (total_perm _ HS). fold (sum_counts (map entry_of o)).
      rewrite sum_counts_entries. lia.
  - intros Hno i j a b Hij Ha Hb Hab.
    assert (Hent : JSObject.entries o = o).
    { apply entries_no_index. apply Forall_forall. intros w Hw.
      rewrite Forall_forall in Hno. apply Hno. now apply Hkeys. }
    assert (Hsorted :
      StronglySorted
        (key_desc_then_ord Ranker.count
           (fun e => index_of (Ranker.word e) arr)) S).
    { unfold S, E. apply sort_stable. rewrite Hent.
      apply StronglySorted_map with
        (R := fun a b => (index_of (Ranker.word a) arr
                          < index_of (Ranker.word b) arr)%nat).
      clear -Hord. unfold keys in Hord.
      induction o as [|kv r IH]; [constructor|].
      simpl in Hord. inversion Hord; subst.
      constructor; auto.
      rewrite Forall_map in H2. exact H2. }
    apply (StronglySorted_firstn k) in Hsorted.
    pose proof (StronglySorted_nth Hsorted Hij Ha Hb) as [H | [_ H]];
      [lia | exact H].
Qed.

Lemma rankByCount_ranked_witness :
  0 <= 2 /\
  Z.of_nat (List.length
              (Ranker.rankByCount ["a"; "b"; "a"; "c"; "b"; "d"] (Some 2)))
  <= 2.
Proof.
  assert (H : 0 <= 2) by lia.
  split; [exact H|].
  exact (proj1 (@rankByCount_ranked ["a"; "b"; "a"; "c"; "b"; "d"] 2 H)).
Defined.

(** A word that is an array index is listed by [Object.entries] before
    the words seen earlier. *)
Example rankByCount_index_key :
  Ranker.rankByCount ["b"; "1"] (Some 2)
  = [Ranker.mkEntry "1" 1; Ranker.mkEntry "b" 1].
Proof. vm_compute. reflexivity. Qed.

Lemma rankByCount_ties_counterexample :
  ~ ties_in_first_seen_order ["b"; "1"]
      (Ranker.rankByCount ["b"; "1"] (Some 2)).
Proof.
  intros H.
  specialize (H 0%nat 1%nat (Ranker.mkEntry "1" 1) (Ranker.mkEntry "b" 1)).
  assert (H1 : (index_of "1" ["b"; "1"] < index_of "b" ["b"; "1"])%nat)
    by (apply H; [lia | reflexivity | reflexivity | reflexivity]).
  vm_compute in H1. lia.
Qed.

Lemma TrendType_eqb_spec a b : reflect (a = b) (TrendType_eqb a b).
Proof. destruct a, b; constructor; congruence. Qed.

Lemma Category_eqb_spec a b : reflect (a = b) (Category_eqb a b).
Proof. destruct a, b; constructor; congruence. Qed.

(* ================================================================== *)
(** ** Properties of upserts *)

Section Upsert.
Variable q : Trend.t -> bool.
Variable upd : Trend.t -> Trend.t.
Variable ins : Trend.t.

Lemma update_first_None s :
  Store.update_first q upd s = None -> forall d, In d s -> q d = false.
Proof.
  induction s as [|d r IH]; simpl; [tauto|].
  destruct (q d) eqn:E; [discriminate|].
  destruct (Store.update_first q upd r); [discriminate|].
  intros _ d' [<- | H]; auto.
Qed.

Lemma update_first_map (B : Type) (f : Trend.t -> B) s s' :
  (forall d, q d = true -> f (upd d) = f d) ->
  Store.update_first q upd s = Some s' -> map f s' = map f s.
Proof.
  intros Hf. revert s'. induction s as [|d r IH]; simpl; [discriminate|].
  intros s'. destruct (q d) eqn:E.
  - intros [= <-]. simpl. now rewrite Hf.
  - destruct (Store.update_first q upd r); [|discriminate].
    intros [= <-]. simpl. f_equal. now apply IH.
Qed.

(** An upsert leaves alone the documents that neither its query nor its
    result touch. *)
Lemma findOneAndUpdate_frame (P : Trend.t -> bool) s :
  (forall d, q d = true -> P d = false /\ P (upd d) = false) ->
  P ins = false ->
  filter P (Store.findOneAndUpdate q upd ins s) = filter P s.
Proof.
  intros Hq Hins. unfold Store.findOneAndUpdate.
  destruct (Store.update_first q upd s) as [s'|] eqn:E.
  - revert s' E. induction s as [|d r IH]; simpl; [discriminate|].
    intros s'. destruct (q d) eqn:Eq.
    + intros [= <-]. simpl. destruct (Hq d Eq) as [-> ->]. reflexivity.
    + destruct (Store.update_first q upd r); [|discriminate].
      intros [= <-]. simpl. now rewrite (IH _ eq_refl).
  - rewrite filter_app. simpl. rewrite Hins. apply app_nil_r.
Qed.

(** An upsert keeps the documents distinct under any key that its query
    determines. *)
Lemma findOneAndUpdate_NoDup (B : Type) (key : Trend.t -> B) s :
  (forall d, q d = true -> key (upd d) = key d) ->
  (forall d, key d = key ins -> q d = true) ->
  NoDup (map key s) ->
  NoDup (map key (Store.findOneAndUpdate q upd ins s)).
Proof.
  intros Hupd Hins Hs. unfold Store.findOneAndUpdate.
  destruct (Store.update_first q upd s) as [s'|] eqn:E.
  - erewrite update_first_map; eauto.
  - rewrite map_app. simpl.
    apply NoDup_app; [assumption | repeat constructor; tauto|].
    intros k Hk [<- | []].
    apply in_map_iff in Hk as (d & Hd & Hin).
    pose proof (@update_first_None s E d Hin) as Hq.
    rewrite (Hins d Hd) in Hq. discriminate.
Qed.

End Upsert.

Lemma by_key_true ty dt cat d :
  Store.by_key ty dt cat d = true <-> key3 d = (ty, dt, cat).
Proof.
  unfold Store.by_key, key3. rewrite !andb_true_iff.
  rewrite String.eqb_eq.
  destruct (TrendType_eqb_spec (Trend.type d) ty) as [Hty | Hty];
    destruct (Category_eqb_spec (Trend.category d) cat) as [Hcat | Hcat];
    split; try (intros [[? ?] ?]; try discriminate; congruence);
    intros [= ? ? ?]; try congruence; auto.
Qed.

Lemma by_key_and_time_true ty dt cat ts d :
  Store.by_key_and_time ty dt cat ts d = true <-> key4 d = (ty, dt, cat, ts).
Proof.
  unfold Store.by_key_and_time, key4. split.
  - intros H. apply andb_true_iff in H as [H1 H2].
    apply by_key_true in H1. apply Z.eqb_eq in H2. congruence.
  - intros [= H1 H2 H3 H4]. apply andb_true_iff. split.
    + apply by_key_true. unfold key3. congruence.
    + now apply Z.eqb_eq.
Qed.

(* ================================================================== *)
(** ** Properties of [saveTrends] *)

Lemma findOneAndUpdate_In q upd ins s d :
  In d (Store.findOneAndUpdate q upd ins s) ->
  In d s \/ d = ins \/ exists d0, In d0 s /\ q d0 = true /\ d = upd d0.
Proof.
  unfold Store.findOneAndUpdate.
  destruct (Store.update_first q upd s) as [s'|] eqn:E.
  - revert s' E. induction s as [|d1 r IH]; simpl; [discriminate|].
    intros s'. destruct (q d1) eqn:Eq.
    + intros [= <-] [<- | H]; [|tauto].
      right. right. exists d1. auto.
    + destruct (Store.update_first q upd r); [|discriminate].
      intros [= <-] [<- | H]; [tauto|].
      destruct (IH _ eq_refl H) as [H1 | [H1 | (d0 & H1 & H2 & H3)]];
        [tauto | tauto |].
      right. right. exists d0. auto.
  - intros H. apply in_app_or in H as [H | [<- | []]]; tauto.
Qed.

Lemma has_category_by_key ty dt cat cat' d :
  cat' <> cat -> Store.by_key ty dt cat' d = true -> has_category cat d = false.
Proof.
  intros Hne H. apply by_key_true in H. unfold has_category.
  destruct (Category_eqb_spec (Trend.category d) cat); auto.
  unfold key3 in H. congruence.
Qed.

Section SaveOne.
Import Fetcher.
Variables (ty : TrendType) (isoDate : string) (timestamp : JSDate.Date).

Lemma save_one_ok td s : snd (save_one ty isoDate timestamp td s) = Ok tt.
Proof. destruct td as [cat [[|k ks]|]]; reflexivity. Qed.

Lemma for_each_save_ok tds s :
  snd (for_each (save_one ty isoDate timestamp) tds s) = Ok tt.
Proof.
  revert s. induction tds as [|td r IH]; intros s; simpl; auto.
  unfold bind. pose proof (save_one_ok td s) as H.
  destruct (save_one ty isoDate timestamp td s) as [s' res].
  simpl in H. subst res. apply IH.
Qed.

(** A category whose keywords are absent or empty is not written. *)
Lemma save_one_frame cat td s :
  (fst td = cat -> snd td = None \/ snd td = Some []) ->
  filter (has_category cat) (fst (save_one ty isoDate timestamp td s))
  = filter (has_category cat) s.
Proof.
  destruct td as [cat' [[|k ks]|]]; simpl; auto.
  intros H.
  assert (Hne : cat' <> cat).
  { intros ->. destruct H as [H | H]; auto; discriminate. }
  apply findOneAndUpdate_frame.
  - intros d Hd. split.
    + eapply has_category_by_key; eauto.
    + unfold has_category. simpl.
      apply by_key_true in Hd. unfold key3 in Hd.
      destruct (Category_eqb_spec (Trend.category d) cat); auto.
      congruence.
  - unfold has_category. simpl.
    destruct (Category_eqb_spec cat' cat); auto. congruence.
Qed.

Lemma for_each_save_frame cat tds s :
  Forall (fun td => fst td = cat -> snd td = None \/ snd td = Some []) tds ->
  filter (has_category cat)
         (fst (for_each (save_one ty isoDate timestamp) tds s))
  = filter (has_category cat) s.
Proof.
  intros H. revert s. induction H as [|td r Htd Hr IH]; intros s; simpl; auto.
  unfold bind. pose proof (save_one_ok td s) as Hok.
  pose proof (@save_one_frame cat td s Htd) as Hfr.
  destruct (save_one ty isoDate timestamp td s) as [s' res].
  simpl in Hok, Hfr. subst res. rewrite IH. exact Hfr.
Qed.

(** What a write leaves in the store is a document of a category that
    came with keywords. *)
Lemma for_each_save_In tds s d :
  In d (fst (for_each (save_one ty isoDate timestamp) tds s)) ->
  In d s \/
  (Trend.keywords d <> [] /\
   exists kws, In (Trend.category d, Some kws) tds /\ kws <> []).
Proof.
  revert s. induction tds as [|td r IH]; intros s; simpl; auto.
  unfold bind. pose proof (save_one_ok td s) as Hok.
  destruct (save_one ty isoDate timestamp td s) as [s' res] eqn:E.
  simpl in Hok. subst res. intros H. apply IH in H.
  destruct H as [H | (Hk & kws & Hin & Hne)];
    [|right; split; auto; exists kws; auto].
  destruct td as [cat [[|k ks]|]]; simpl in E;
    try (injection E as <-; auto).
  apply findOneAndUpdate_In in H as [H | [-> | (d0 & H0 & Hq & ->)]]; auto.
  - right. simpl. split; [discriminate|].
    exists (k :: ks). split; [auto | discriminate].
  - right. simpl. split; [discriminate|].
    apply by_key_true in Hq. unfold key3 in Hq.
    injection Hq as _ _ ->.
    exists (k :: ks). split; [auto | discriminate].
Qed.
End SaveOne.

Lemma trends_of_empty a cat :
  category_empty a cat ->
  Forall (fun td => fst td = cat -> snd td = None \/ snd td = Some [])
         (Fetcher.trends_of a).
Proof.
  intros H. unfold Fetcher.trends_of.
  apply Forall_app. split.
  - constructor; [|constructor; [|constructor; [|constructor]]];
      simpl; intros <-; simpl in H;
      destruct H as [-> | ->]; simpl; auto.
  - destruct (Fetcher.documentIdentifiers a) as [|i l] eqn:E; simpl.
    + constructor.
    + constructor; [|constructor].
      simpl. intros <-. simpl in H. congruence.
Qed.

Lemma trends_of_nonempty a cat kws :
  In (cat, Some kws) (Fetcher.trends_of a) -> kws <> [] ->
  ~ category_empty a cat.
Proof.
  unfold Fetcher.trends_of. intros H Hne Hemp.
  apply in_app_or in H as [H | H].
  - simpl in H.
    destruct H as [H | [H | [H | []]]]; injection H as <- Hk; simpl in Hemp;
      destruct Hemp as [Hemp | Hemp]; rewrite Hemp in Hk; simpl in Hk;
      try discriminate; injection Hk as <-; auto.
  - destruct (Fetcher.documentIdentifiers a) as [|i l] eqn:E; simpl in H;
      [tauto|].
    destruct H as [H | []]. injection H as <- _. simpl in Hemp. congruence.
Qed.

Lemma saveTrends_eq a s :
  Fetcher.saveTrends a s =
  match Fetcher.toISOString_date (Fetcher.new_Date (Fetcher.date a)) with
  | Ok isoDate =>
      Fetcher.for_each
        (Fetcher.save_one (Fetcher.type_of (Fetcher.jobType a)) isoDate
                          (Fetcher.timestamp a))
        (Fetcher.trends_of a) s
  | Throw e => (s, Throw e)
  end.
Proof.
  unfold Fetcher.saveTrends, bind, lift.
  destruct (Fetcher.toISOString_date _); reflexivity.
Qed.

Lemma filter_by_key_category ty dt cat (l : Store.t) :
  filter (Store.by_key ty dt cat) l
  = filter (Store.by_key ty dt cat) (filter (has_category cat) l).
Proof.
  induction l as [|d r IH]; simpl; auto.
  destruct (has_category cat d) eqn:E; simpl.
  - now rewrite IH.
  - assert (Hk : Store.by_key ty dt cat d = false).
    { unfold Store.by_key. unfold has_category in E. rewrite E.
      apply andb_false_r. }
    rewrite Hk. exact IH.
Qed.

(** C10.  A category that comes to [saveTrends] without keywords is not
    written: the documents of that category, whatever their type and
    date, are the same after the call; and whatever the call leaves in
    the store that was not there before belongs to a category that came
    with a non-empty keyword list. *)
Theorem saveTrends_skips_empty (a : Fetcher.SaveArgs) (cat : Category)
    (s : Store.t) :
  category_empty a cat ->
  (forall ty dt,
     Store.findMany (Store.by_key ty dt cat) (fst (Fetcher.saveTrends a s))
     = Store.findMany (Store.by_key ty dt cat) s) /\
  Store.findMany (has_category cat) (fst (Fetcher.saveTrends a s))
  = Store.findMany (has_category cat) s /\
  (forall d, In d (fst (Fetcher.saveTrends a s)) ->
     In d s \/
     (Trend.keywords d <> [] /\ ~ category_empty a (Trend.category d))).
Proof.
  intros Hemp.
  assert (Hcat :
    Store.findMany (has_category cat) (fst (Fetcher.saveTrends a s))
    = Store.findMany (has_category cat) s).
  { rewrite saveTrends_eq. unfold Store.findMany.
    destruct (Fetcher.toISOString_date _) as [isoDate|e]; [|reflexivity].
    apply for_each_save_frame. now apply trends_of_empty. }
  split; [|split; [exact Hcat|]].
  - intros ty dt. unfold Store.findMany in *.
    rewrite (filter_by_key_category ty dt cat (fst (Fetcher.saveTrends a s))).
    rewrite Hcat. symmetry. apply filter_by_key_category.
  - intros d. rewrite saveTrends_eq.
    destruct (Fetcher.toISOString_date _) as [isoDate|e]; [|simpl; tauto].
    intros H. apply for_each_save_In in H as [H | (Hk & kws & Hin & Hne)];
      [tauto|].
    right. split; auto. eapply trends_of_nonempty; eauto.
Qed.

Lemma saveTrends_skips_empty_witness :
  let a := Fetcher.mkSaveArgs (Fetcher.DateObj 0) 0 (Some daily)
             (Some []) (Some [Ranker.mkEntry "merkel" 3]) None [] in
  let s := [Trend.make 0 daily "1970-01-01" themes
              [Keyword.make "tax" 7 None None]] in
  category_empty a themes /\
  Store.findMany (has_category themes) (fst (Fetcher.saveTrends a s))
  = Store.findMany (has_category themes) s.
Proof.
  intros a s.
  assert (H : category_empty a themes) by (right; reflexivity).
  split; [exact H|].
  exact (proj1 (proj2 (@saveTrends_skips_empty a themes s H))).
Defined.

(* ================================================================== *)
(** ** The keys of the upserts *)

Section Invariants.
Variable I : Store.t -> Prop.

Lemma upsert_ranked_inv topN collector put cats s :
  (forall cat kws s, I s -> I (fst (put cat kws s))) ->
  I s -> I (fst (Aggregator.upsert_ranked topN collector put cats s)).
Proof.
  intros Hput. revert s.
  induction cats as [|cat rest IH]; intros s Hs; simpl; auto.
  unfold bind, lift.
  destruct (Aggregator.rankByCount _ topN) as [ranked|e]; [|exact Hs].
  specialize (Hput cat (map Aggregator.keyword_of ranked) s Hs).
  destruct (put cat (map Aggregator.keyword_of ranked) s) as [s' [[]|e]];
    simpl in Hput; auto.
Qed.

Lemma for_each_inv (A : Type) (body : A -> M unit) l s :
  (forall a s, I s -> I (fst (body a s))) ->
  I s -> I (fst (Fetcher.for_each body l s)).
Proof.
  intros Hb. revert s. induction l as [|a r IH]; intros s Hs; simpl; auto.
  unfold bind. specialize (Hb a s Hs).
  destruct (body a s) as [s' [[]|e]]; simpl in Hb; auto.
Qed.
End Invariants.

Lemma save_one_unique3 ty isoDate timestamp td s :
  unique3 s -> unique3 (fst (Fetcher.save_one ty isoDate timestamp td s)).
Proof.
  destruct td as [cat [[|k ks]|]]; simpl; auto.
  intros Hs. apply findOneAndUpdate_NoDup; auto.
  intros d Hd. now apply by_key_true.
Qed.

Lemma saveTrends_unique3 a s :
  unique3 s -> unique3 (fst (Fetcher.saveTrends a s)).
Proof.
  intros Hs. rewrite saveTrends_eq.
  destruct (Fetcher.toISOString_date _); auto.
  apply for_each_inv; auto. intros. now apply save_one_unique3.
Qed.

Lemma put_daily_unique3 timestamp date cat kws s :
  unique3 s ->
  unique3 (Store.findOneAndUpdate (Store.by_key daily date cat)
             (fun _ => Trend.make timestamp daily date cat kws)
             (Trend.make timestamp daily date cat kws) s).
Proof.
  intros Hs. apply findOneAndUpdate_NoDup; auto.
  - intros d Hd. apply by_key_true in Hd. now rewrite Hd.
  - intros d Hd. now apply by_key_true.
Qed.

Lemma put_realtime_unique4 timestamp date cat kws s :
  unique4 s ->
  unique4 (Store.findOneAndUpdate
             (Store.by_key_and_time realtime date cat timestamp)
             (fun _ => Trend.make timestamp realtime date cat kws)
             (Trend.make timestamp realtime date cat kws) s).
Proof.
  intros Hs. apply findOneAndUpdate_NoDup; auto.
  - intros d Hd. apply by_key_and_time_true in Hd. now rewrite Hd.
  - intros d Hd. now apply by_key_and_time_true.
Qed.

Lemma aggregateDaily_unique3 cfg now cs date category s :
  unique3 s ->
  unique3 (fst (Aggregator.aggregateDaily cfg now cs date category s)).
Proof.
  intros Hs. unfold Aggregator.aggregateDaily, bind.
  match goal with |- context [Aggregator.upsert_ranked ?n ?c ?p ?l s] =>
    pose proof (@upsert_ranked_inv unique3 n c p l s) as H;
    destruct (Aggregator.upsert_ranked n c p l s) as [s1 [[]|e]]
  end; simpl in H.
  - assert (H1 : unique3 s1).
    { apply H; auto. intros. simpl. now apply put_daily_unique3. }
    destruct (0 <? _); simpl; auto. now apply put_daily_unique3.
  - apply H; auto. intros. simpl. now apply put_daily_unique3.
Qed.

Lemma aggregateFromFile_unique4 cfg c timestamp category s :
  unique4 s ->
  unique4 (fst (Aggregator.aggregateFromFile cfg c timestamp category s)).
Proof.
  intros Hs. unfold Aggregator.aggregateFromFile, bind.
  match goal with |- context [Aggregator.upsert_ranked ?n ?c ?p ?l s] =>
    pose proof (@upsert_ranked_inv unique4 n c p l s) as H;
    destruct (Aggregator.upsert_ranked n c p l s) as [s1 [[]|e]]
  end; simpl in H.
  - assert (H1 : unique4 s1).
    { apply H; auto. intros. simpl. now apply put_realtime_unique4. }
    destruct (0 <? _); simpl; auto. now apply put_realtime_unique4.
  - apply H; auto. intros. simpl. now apply put_realtime_unique4.
Qed.

Lemma perform_all_unique3 ws s :
  Forall keyed_by_triple ws -> unique3 s -> unique3 (perform_all ws s).
Proof.
  intros H. revert s. unfold perform_all.
  induction H as [|w r Hw Hr IH]; intros s Hs; simpl; auto.
  apply IH. destruct w; simpl.
  - now apply saveTrends_unique3.
  - now apply aggregateDaily_unique3.
  - exfalso. apply Hw. exact I.
Qed.

Lemma perform_all_unique4 ws s :
  Forall from_file ws -> unique4 s -> unique4 (perform_all ws s).
Proof.
  intros H. revert s. unfold perform_all.
  induction H as [|w r Hw Hr IH]; intros s Hs; simpl; auto.
  apply IH. destruct w; simpl; try contradiction.
  now apply aggregateFromFile_unique4.
Qed.

Lemma findOneAndUpdate_append q upd ins s :
  (forall d, In d s -> q d = false) ->
  Store.findOneAndUpdate q upd ins s = s ++ [ins].
Proof.
  intros H. unfold Store.findOneAndUpdate.
  assert (E : Store.update_first q upd s = None).
  { induction s as [|d r IH]; simpl; auto.
    rewrite (H d) by now left.
    rewrite IH; auto. intros d' Hd'. apply H. now right. }
  now rewrite E.
Qed.

Lemma by_key_and_time_other_time ty dt cat ts d :
  Trend.timestamp d <> ts -> Store.by_key_and_time ty dt cat ts d = false.
Proof.
  intros H. unfold Store.by_key_and_time.
  apply andb_false_iff. right. now apply Z.eqb_neq.
Qed.

Lemma by_key_and_time_other_category ty dt cat ts d :
  Trend.category d <> cat -> Store.by_key_and_time ty dt cat ts d = false.
Proof.
  intros H. unfold Store.by_key_and_time, Store.by_key.
  destruct (Category_eqb_spec (Trend.category d) cat); [congruence|].
  now rewrite andb_false_r.
Qed.

(** No document of the store matches the query: the old ones have
    another timestamp, the new ones another category. *)
Ltac no_match Hold :=
  let d := fresh "d" in
  let Hd := fresh "Hd" in
  intros d Hd;
  repeat (apply in_app_or in Hd as [Hd | [<- | []]];
          [|apply by_key_and_time_other_category; simpl; discriminate]);
  apply Hold; exact Hd.

Lemma aggregateFromFile_appends cfg c ts s s' :
  (forall d, In d s -> Trend.timestamp d <> ts) ->
  Aggregator.aggregateFromFile cfg c ts Aggregator.all s = (s', Ok true) ->
  exists k1 k2 k3 ids,
    s' = s ++ snapshot ts (JSDate.isoDate ts) k1 k2 k3 ids.
Proof.
  intros Hs H. unfold Aggregator.aggregateFromFile in H.
  set (dt := JSDate.isoDate ts) in *. clearbody dt.
  unfold bind, lift, write, ret in H.
  simpl Aggregator.categoriesToProcess in H.
  unfold Aggregator.upsert_ranked, bind, lift, write, ret in H.
  unfold Aggregator.bag in H.
  destruct (Aggregator.rankByCount (Aggregator.c_themes c) _) as [a1|];
    [|discriminate].
  destruct (Aggregator.rankByCount (Aggregator.c_persons c) _) as [a2|];
    [|discriminate].
  destruct (Aggregator.rankByCount (Aggregator.c_orgs c) _) as [a3|];
    [|discriminate].
  assert (Hold : forall cat d, In d s ->
            Store.by_key_and_time realtime dt cat ts d = false).
  { intros cat d Hd. apply by_key_and_time_other_time. auto. }
  rewrite (@findOneAndUpdate_append _ _ _ s) in H by (apply Hold).
  rewrite (@findOneAndUpdate_append _ _ _ (s ++ _)) in H
    by (no_match Hold).
  rewrite (@findOneAndUpdate_append _ _ _ ((s ++ _) ++ _)) in H
    by (no_match Hold).
  destruct (0 <? _) in H.
  - rewrite (@findOneAndUpdate_append _ _ _ (((s ++ _) ++ _) ++ _)) in H
      by (no_match Hold).
    injection H as <-.
    do 3 eexists. eexists (Some _). unfold snapshot.
    rewrite <- !app_assoc. reflexivity.
  - injection H as <-.
    do 3 eexists. exists None. unfold snapshot.
    rewrite <- !app_assoc. reflexivity.
Qed.

Lemma snapshot_count ts dt k1 k2 k3 ids cat :
  In cat [themes; persons; orgs] ->
  List.length (filter (Store.by_key realtime dt cat)
                      (snapshot ts dt k1 k2 k3 ids)) = 1%nat.
Proof.
  intros Hcat. unfold snapshot. rewrite filter_app.
  assert (Hids : filter (Store.by_key realtime dt cat)
                   match ids with
                   | Some k4 => [Trend.make ts realtime dt documents k4]
                   | None => []
                   end = []).
  { destruct ids; simpl; auto. unfold Store.by_key. simpl.
    destruct Hcat as [<- | [<- | [<- | []]]]; simpl;
      now rewrite andb_false_r. }
  rewrite Hids, app_nil_r. unfold Store.by_key. simpl.
  rewrite String.eqb_refl.
  destruct Hcat as [<- | [<- | [<- | []]]]; reflexivity.
Qed.

Lemma snapshot_timestamp ts dt k1 k2 k3 ids d :
  In d (snapshot ts dt k1 k2 k3 ids) -> Trend.timestamp d = ts.
Proof.
  unfold snapshot. intros H.
  apply in_app_or in H as [[<- | [<- | [<- | []]]] | H]; auto.
  destruct ids; simpl in H; [destruct H as [<- | []]; auto | tauto].
Qed.

(** Two snapshots of one day: each category gets a second document. *)
Lemma aggregateFromFile_twice cfg c1 c2 ts1 ts2 cat s1 s2 :
  JSDate.isoDate ts1 = JSDate.isoDate ts2 -> ts1 <> ts2 ->
  Aggregator.aggregateFromFile cfg c1 ts1 Aggregator.all [] = (s1, Ok true) ->
  Aggregator.aggregateFromFile cfg c2 ts2 Aggregator.all s1 = (s2, Ok true) ->
  In cat [themes; persons; orgs] ->
  List.length
    (Store.findMany (Store.by_key realtime (JSDate.isoDate ts1) cat) s2)
  = 2%nat.
Proof.
  intros Hday Hts H1 H2 Hcat.
  apply aggregateFromFile_appends in H1 as (a1 & a2 & a3 & ids1 & ->);
    [|intros d []].
  apply aggregateFromFile_appends in H2 as (b1 & b2 & b3 & ids2 & ->).
  - unfold Store.findMany. rewrite <- Hday, app_nil_l.
    rewrite filter_app, length_app.
    now rewrite !snapshot_count.
  - intros d Hd. simpl in Hd. apply snapshot_timestamp in Hd. congruence.
Qed.

(** C1 (amended).  The upserts of [saveTrends] and [aggregateDaily] match
    on [(type, date, category)]: they keep at most one document per such
    triple.  The upserts of [aggregateFromFile] match on
    [(type, date, category, timestamp)]: they keep at most one document
    per such quadruple, and two calls on one UTC day with different
    timestamps leave two realtime documents per category. *)
Theorem upserts_keep_keys_unique :
  (forall ws s,
      Forall keyed_by_triple ws -> unique3 s -> unique3 (perform_all ws s)) /\
  (forall ws s,
      Forall from_file ws -> unique4 s -> unique4 (perform_all ws s)) /\
  (forall cfg c1 c2 ts1 ts2 cat s1 s2,
      JSDate.isoDate ts1 = JSDate.isoDate ts2 -> ts1 <> ts2 ->
      Aggregator.aggregateFromFile cfg c1 ts1 Aggregator.all []
        = (s1, Ok true) ->
      Aggregator.aggregateFromFile cfg c2 ts2 Aggregator.all s1
        = (s2, Ok true) ->
      In cat [themes; persons; orgs] ->
      List.length
        (Store.findMany (Store.by_key realtime (JSDate.isoDate ts1) cat) s2)
      = 2%nat).
Proof.
  split; [exact perform_all_unique3|].
  split; [exact perform_all_unique4|].
  exact aggregateFromFile_twice.
Qed.

Lemma upserts_keep_keys_unique_witness :
  let ws := [SaveTrends
               (Fetcher.mkSaveArgs (Fetcher.DateObj 0) 0 (Some daily)
                  (Some [Ranker.mkEntry "tax" 2]) None None []);
             AggregateDaily cfg0 5 [one_theme] "1970-01-01" Aggregator.all;
             SaveTrends
               (Fetcher.mkSaveArgs (Fetcher.DateObj 0) 7 None
                  (Some [Ranker.mkEntry "tax" 3]) None None [])] in
  Forall keyed_by_triple ws /\ unique3 [] /\ unique3 (perform_all ws []).
Proof.
  intros ws.
  assert (H1 : Forall keyed_by_triple ws)
    by (repeat constructor; intros H; exact H).
  assert (H2 : unique3 []) by constructor.
  split; [exact H1|]. split; [exact H2|].
  exact (proj1 upserts_keep_keys_unique ws [] H1 H2).
Defined.

(** Two 15-minute snapshots of 1970-01-01, at 00:00 and at 00:15. *)
Lemma aggregateFromFile_two_snapshots :
  ~ unique3
      (perform_all
         [AggregateFromFile cfg0 one_theme 0 Aggregator.all;
          AggregateFromFile cfg0 one_theme 900000 Aggregator.all] []).
Proof.
  intros H.
  assert (E : map key3
                (perform_all
                   [AggregateFromFile cfg0 one_theme 0 Aggregator.all;
                    AggregateFromFile cfg0 one_theme 900000 Aggregator.all] [])
              = [(realtime, "1970-01-01", themes);
                 (realtime, "1970-01-01", persons);
                 (realtime, "1970-01-01", orgs);
                 (realtime, "1970-01-01", documents);
                 (realtime, "1970-01-01", themes);
                 (realtime, "1970-01-01", persons);
                 (realtime, "1970-01-01", orgs);
                 (realtime, "1970-01-01", documents)])
    by (vm_compute; reflexivity).
  unfold unique3 in H. rewrite E in H.
  apply NoDup_cons_iff in H as [H _]. apply H. simpl. tauto.
Qed.

(* ================================================================== *)
(** ** The Aggregator's [rankByCount] and items without a word *)

Lemma loop_ok map arr :
  Forall has_word arr -> exists map', Aggregator.loop map arr = Ok map'.
Proof.
  intros H. revert map.
  induction H as [|item rest Hi Hr IH]; intros map; simpl; eauto.
  unfold Aggregator.step.
  destruct (Aggregator.item_word item) as [wd|] eqn:E; [|now elim Hi].
  apply IH.
Qed.

Lemma loop_throws map arr :
  ~ Forall has_word arr ->
  Aggregator.loop map arr
  = Throw (TypeError
             "Cannot read properties of undefined (reading 'toLowerCase')").
Proof.
  revert map. induction arr as [|item rest IH]; intros map H; simpl.
  - elim H. constructor.
  - unfold Aggregator.step.
    destruct (Aggregator.item_word item) as [wd|] eqn:E; [|reflexivity].
    apply IH. intros Hr. apply H. constructor; auto.
    unfold has_word. congruence.
Qed.

Lemma Forall_has_word_dec arr : Forall has_word arr \/ ~ Forall has_word arr.
Proof.
  induction arr as [|item rest [IH | IH]].
  - left. constructor.
  - destruct (Aggregator.item_word item) as [wd|] eqn:E.
    + left. constructor; auto. unfold has_word. congruence.
    + right. intros H. inversion H; subst. auto.
  - right. intros H. inversion H; subst. auto.
Qed.

(** C6 (amended).  [rankByCount] does not skip an item without a word:
    reading [item.word.toLowerCase()] throws a [TypeError] and the call
    returns nothing.  It returns a ranking exactly when every item has a
    word. *)
Theorem rankByCount_needs_words (arr : list Aggregator.Item) (topN : Z) :
  ((exists ranked, Aggregator.rankByCount arr topN = Ok ranked)
   <-> Forall has_word arr) /\
  (~ Forall has_word arr ->
   Aggregator.rankByCount arr topN
   = Throw (TypeError
              "Cannot read properties of undefined (reading 'toLowerCase')")).
Proof.
  assert (Hthrow : ~ Forall has_word arr ->
    Aggregator.rankByCount arr topN
    = Throw (TypeError
               "Cannot read properties of undefined (reading 'toLowerCase')")).
  { intros H. unfold Aggregator.rankByCount. now rewrite loop_throws. }
  split; [|exact Hthrow]. split.
  - intros [ranked Hr].
    destruct (Forall_has_word_dec arr) as [H | H]; auto.
    rewrite (Hthrow H) in Hr. discriminate.
  - intros H. unfold Aggregator.rankByCount.
    destruct (loop_ok [] H) as [map' ->]. eauto.
Qed.

Lemma rankByCount_needs_words_witness :
  let arr := [Aggregator.mkItem (Some "a") None None;
              Aggregator.mkItem None (Some 3) None] in
  ~ Forall has_word arr /\
  Aggregator.rankByCount arr 50
  = Throw (TypeError
             "Cannot read properties of undefined (reading 'toLowerCase')").
Proof.
  intros arr.
  assert (H : ~ Forall has_word arr).
  { intros H. inversion H as [|? ? _ H']. inversion H' as [|? ? H'' _].
    apply H''. reflexivity. }
  split; [exact H|].
  exact (proj2 (rankByCount_needs_words arr 50) H).
Defined.

(** The call fails on a list with one item that lacks its word. *)
Lemma rankByCount_missing_word_fails :
  ~ exists ranked,
      Aggregator.rankByCount
        [Aggregator.mkItem (Some "a") None None;
         Aggregator.mkItem None (Some 3) None] 50
      = Ok ranked.
Proof. intros [ranked H]. vm_compute in H. discriminate. Qed.

(** *** The ranking of the Aggregator's [rankByCount] *)

Lemma map_keys_snoc m e :
  map_keys (m ++ [e]) = map_keys m ++ [Aggregator.e_word e].
Proof. unfold map_keys. now rewrite map_app. Qed.

Lemma has_iff m w : Aggregator.has m w = true <-> In w (map_keys m).
Proof.
  unfold Aggregator.has, map_keys. rewrite existsb_exists, in_map_iff.
  split.
  - intros (e & H1 & H2). apply String.eqb_eq in H2. eauto.
  - intros (e & H1 & H2). exists e. split; auto. now apply String.eqb_eq.
Qed.

Lemma bump_keys m w n docs :
  map_keys (Aggregator.bump m w n docs) = map_keys m.
Proof.
  unfold map_keys. induction m as [|e r IH]; simpl; auto.
  destruct (String.eqb (Aggregator.e_word e) w); simpl; congruence.
Qed.

Lemma bump_total m w n docs :
  In w (map_keys m) ->
  total Aggregator.e_count (Aggregator.bump m w n docs)
  = total Aggregator.e_count m + n.
Proof.
  unfold map_keys. induction m as [|e r IH]; simpl; [tauto|].
  destruct (String.eqb_spec (Aggregator.e_word e) w); simpl; [lia|].
  intros [H | H]; [congruence|]. rewrite IH by assumption. lia.
Qed.

Lemma bump_nonneg m w n docs :
  0 <= n ->
  Forall (fun e => 0 <= Aggregator.e_count e) m ->
  Forall (fun e => 0 <= Aggregator.e_count e) (Aggregator.bump m w n docs).
Proof.
  intros Hn. induction 1 as [|e r He Hr IH]; simpl; auto.
  destruct (String.eqb (Aggregator.e_word e) w); constructor; simpl; auto.
  lia.
Qed.

Lemma loop_spec arr seen m m' :
  loop_inv seen m -> Aggregator.loop m arr = Ok m' ->
  loop_inv (seen ++ arr) m'.
Proof.
  revert seen m. induction arr as [|item rest IH]; intros seen m Hinv H.
  - simpl in H. injection H as <-. now rewrite app_nil_r.
  - simpl in H. unfold Aggregator.step in H.
    destruct (Aggregator.item_word item) as [wd|] eqn:Ewd; [|discriminate].
    replace (seen ++ item :: rest) with ((seen ++ [item]) ++ rest)
      by (rewrite <- app_assoc; reflexivity).
    eapply IH; [|exact H]. clear IH H.
    set (w := JSString.str (JSString.toLowerCase (JSString.chars wd))).
    assert (Hw : lowered item = w) by (unfold lowered; now rewrite Ewd).
    destruct Hinv as [Hkeys Hord Htot Hnn].
    assert (Hord' :
      StronglySorted
        (fun a b => (index_of a (map lowered (seen ++ [item]))
                     < index_of b (map lowered (seen ++ [item])))%nat)
        (map_keys m)).
    { eapply StronglySorted_ext; [|exact Hord]. intros a b Ha Hb.
      apply Hkeys in Ha. apply Hkeys in Hb.
      rewrite map_app. now rewrite !index_of_app_in. }
    destruct (Aggregator.has m w) eqn:Ehas.
    + apply has_iff in Ehas. split.
      * intros k. rewrite bump_keys, Hkeys, map_app, in_app_iff. simpl.
        rewrite Hw. apply Hkeys in Ehas. intuition congruence.
      * now rewrite bump_keys.
      * rewrite bump_total by assumption. rewrite Htot.
        unfold total. rewrite !fold_right_app. simpl.
        fold (total weight seen). fold (weight item).
        clear. induction seen; simpl; lia.
      * intros Hall. apply Forall_app in Hall as [Hs Hi].
        inversion Hi; subst. apply bump_nonneg; auto.
    + assert (Hnin : ~ In w (map lowered seen)).
      { rewrite <- Hkeys. intros Hin. apply has_iff in Hin. congruence. }
      assert (Hin' : In w (map_keys (m ++ [Aggregator.mkEntry w 0 []]))).
      { rewrite map_keys_snoc. apply in_or_app. right. now left. }
      split.
      * intros k. rewrite bump_keys, map_keys_snoc, map_app, !in_app_iff.
        rewrite Hkeys. simpl. rewrite Hw. tauto.
      * rewrite bump_keys, map_keys_snoc. simpl Aggregator.e_word.
        apply StronglySorted_snoc; auto.
        apply Forall_forall. intros a Ha. apply Hkeys in Ha.
        rewrite map_app. simpl. rewrite Hw.
        rewrite index_of_app_in by assumption.
        rewrite index_of_app_notin by assumption.
        now apply index_of_lt.
      * rewrite bump_total by assumption.
        unfold total. rewrite !fold_right_app. simpl.
        fold (weight item).
        assert (E : forall (A : Type) (f : A -> Z) l z,
                   fold_right (fun a s => f a + s) z l = total f l + z).
        { clear. intros A f l z. unfold total.
          induction l; simpl; lia. }
        rewrite !E, Htot. lia.
      * intros Hall. apply Forall_app in Hall as [Hs Hi].
        inversion Hi; subst. apply bump_nonneg; auto.
        apply Forall_app. split; auto. constructor; simpl; [lia|constructor].
Qed.

(** X6. When every item has a word, the Aggregator's [rankByCount] ranks
    as the Ranker's does, on the lower-cased words and with the weight
    [count || 1] of each item: at most [topN] entries, sorted by
    non-increasing count, ties in the order of first occurrence, and
    counts that sum to at most the total weight of the items. *)
Theorem aggregator_rankByCount_ranked
    (arr : list Aggregator.Item) (topN : Z) (out : list Aggregator.Entry) :
  0 <= topN ->
  Aggregator.rankByCount arr topN = Ok out ->
  Z.of_nat (List.length out) <= topN /\
  StronglySorted
    (fun a b => Aggregator.e_count a >= Aggregator.e_count b) out /\
  (forall i j a b,
      (i < j)%nat -> nth_error out i = Some a -> nth_error out j = Some b ->
      Aggregator.e_count a = Aggregator.e_count b ->
      (index_of (Aggregator.e_word a) (map lowered arr)
       < index_of (Aggregator.e_word b) (map lowered arr))%nat) /\
  (Forall (fun item => 0 <= weight item) arr ->
   total Aggregator.e_count out <= total weight arr).
Proof.
  intros Htop H. unfold Aggregator.rankByCount in H.
  destruct (Aggregator.loop [] arr) as [m|] eqn:E; [|discriminate].
  injection H as <-.
  assert (Hinv : loop_inv arr m).
  { apply (@loop_spec arr [] [] m); auto.
    split; simpl; try constructor; tauto. }
  destruct Hinv as [Hkeys Hord Htot Hnn].
  set (S := JSArray.sort
              (fun a b => Aggregator.e_count b - Aggregator.e_count a) m).
  destruct (slice0_firstn S topN) as (k & Hk & _).
  split; [now apply slice0_length|]. rewrite Hk.
  split; [apply StronglySorted_firstn, sort_key_desc|]. split.
  - intros i j a b Hij Ha Hb Hab.
    assert (Hsorted :
      StronglySorted
        (key_desc_then_ord Aggregator.e_count
           (fun e => index_of (Aggregator.e_word e) (map lowered arr))) S).
    { unfold S. apply sort_stable. clear -Hord. unfold map_keys in Hord.
      induction m as [|e r IH]; [constructor|].
      simpl in Hord. inversion Hord; subst. constructor; auto.
      rewrite Forall_map in H2. exact H2. }
    apply (StronglySorted_firstn k) in Hsorted.
    pose proof (StronglySorted_nth Hsorted Hij Ha Hb) as [H | [_ H]];
      [lia | exact H].
  - intros Hall. specialize (Hnn Hall).
    assert (HS : Permutation S m) by apply sort_perm.
    etransitivity; [apply total_firstn|].
    + eapply Permutation_Forall; [symmetry; exact HS | exact Hnn].
    + rewrite (total_perm _ HS). lia.
Qed.

Lemma aggregator_rankByCount_ranked_witness :
  let arr := [Aggregator.mkItem (Some "Tax") None None;
              Aggregator.mkItem (Some "covid-19") (Some 2) None;
              Aggregator.mkItem (Some "TAX") (Some 1) None] in
  let out := [Aggregator.mkEntry "tax" 2 []] in
  0 <= 1 /\ Aggregator.rankByCount arr 1 = Ok out /\
  Z.of_nat (List.length out) <= 1.
Proof.
  intros arr out.
  assert (H1 : 0 <= 1) by lia.
  assert (H2 : Aggregator.rankByCount arr 1 = Ok out)
    by (vm_compute; reflexivity).
  split; [exact H1|]. split; [exact H2|].
  exact (proj1 (@aggregator_rankByCount_ranked arr 1 out H1 H2)).
Defined.

(* ================================================================== *)
(** ** Properties of [fetchAndProcess] *)

Section FetchFacts.
Import Fetcher.
Variable cfg : Config.t.
Variable W : World.

Lemma saveTrends_eq_obj a t s :
  date a = DateObj t ->
  saveTrends a s =
  for_each (save_one (type_of (jobType a)) (JSDate.isoDate t) (timestamp a))
           (trends_of a) s.
Proof. intros H. rewrite saveTrends_eq, H. reflexivity. Qed.

Lemma saveTrends_ok a t s :
  date a = DateObj t -> snd (saveTrends a s) = Ok tt.
Proof.
  intros H. rewrite (saveTrends_eq_obj _ s H). apply for_each_save_ok.
Qed.

(** What [saveTrends] adds or replaces has its type and its date. *)
Lemma saveTrends_written a t s d :
  date a = DateObj t ->
  In d (fst (saveTrends a s)) ->
  In d s \/
  (Trend.type d = type_of (jobType a) /\ Trend.date d = JSDate.isoDate t).
Proof.
  intros H. rewrite (saveTrends_eq_obj _ s H).
  generalize (trends_of a). intros tds. revert s.
  induction tds as [|td r IH]; intros s; simpl; auto.
  unfold bind.
  pose proof (save_one_ok (type_of (jobType a)) (JSDate.isoDate t)
                          (timestamp a) td s) as Hok.
  destruct (save_one _ _ _ td s) as [s' res] eqn:E.
  simpl in Hok. subst res. intros Hin. apply IH in Hin as [Hin | Hin]; auto.
  destruct td as [cat [[|k ks]|]]; simpl in E;
    try (injection E as <-; auto).
  apply findOneAndUpdate_In in Hin as [Hin | [-> | (d0 & H0 & Hq & ->)]];
    auto.
  right. simpl. apply by_key_true in Hq. unfold key3 in Hq.
  injection Hq as -> -> _. auto.
Qed.

Lemma try_daily_eq d s :
  try_catch (try_daily cfg W d) (fun _ => ret false) s =
  match W (dailyUrl cfg d) with
  | Some collector => (fst (saveTrends (daily_args cfg d collector) s), Ok true)
  | None => (s, Ok false)
  end.
Proof.
  unfold try_catch, try_daily, bind, downloadAndParse.
  destruct (W (dailyUrl cfg d)) as [collector|]; [|reflexivity].
  unfold ret at 1. fold (daily_args cfg d collector).
  pose proof (@saveTrends_ok (daily_args cfg d collector) _ s eq_refl) as Hok.
  destruct (saveTrends (daily_args cfg d collector) s) as [s' res].
  simpl in Hok. subst res. reflexivity.
Qed.

Lemma fallback_eq date s :
  fallback cfg W date [0; 1] s =
  match W (dailyUrl cfg (day_before date 0)) with
  | Some c =>
      (fst (saveTrends (daily_args cfg (day_before date 0) c) s), Ok true)
  | None =>
      match W (dailyUrl cfg (day_before date 1)) with
      | Some c =>
          (fst (saveTrends (daily_args cfg (day_before date 1) c) s), Ok true)
      | None => (s, Ok false)
      end
  end.
Proof.
  unfold fallback. unfold bind at 1. rewrite try_daily_eq.
  destruct (W (dailyUrl cfg (day_before date 0))); [reflexivity|].
  unfold bind at 1. rewrite try_daily_eq.
  destruct (W (dailyUrl cfg (day_before date 1))); reflexivity.
Qed.

(** The 15-minute attempt never reaches [saveTrends]: it leaves the
    store as it is and ends in the [catch] clause, whether or not the
    file was downloaded. *)
Lemma try_fifteen_throws date s :
  exists e, try_fifteen cfg W date s = (s, Throw e).
Proof.
  unfold try_fifteen, bind, downloadAndParse.
  destruct (W (fifteenUrl cfg date)); eexists; reflexivity.
Qed.

Lemma fetchAndProcess_is_fallback date options s :
  fetchAndProcess cfg W date options s = fallback cfg W date [0; 1] s.
Proof.
  unfold fetchAndProcess, bind at 1, try_catch.
  destruct (try_fifteen_throws date s) as [e ->]. reflexivity.
Qed.

End FetchFacts.

Lemma saveTrends_keeps_other_types a s ty :
  ty <> Fetcher.type_of (Fetcher.jobType a) ->
  filter (has_type ty) (fst (Fetcher.saveTrends a s)) = filter (has_type ty) s.
Proof.
  intros Hty. rewrite saveTrends_eq.
  destruct (Fetcher.toISOString_date _) as [isoDate|]; [|reflexivity].
  generalize (Fetcher.trends_of a). intros tds. revert s.
  induction tds as [|td r IH]; intros s; simpl; auto.
  unfold bind.
  pose proof (save_one_ok (Fetcher.type_of (Fetcher.jobType a)) isoDate
                          (Fetcher.timestamp a) td s) as Hok.
  destruct (Fetcher.save_one _ _ _ td s) as [s' res] eqn:E.
  simpl in Hok. subst res. rewrite IH.
  destruct td as [cat [[|k ks]|]]; simpl in E; try (injection E as <-; auto).
  apply findOneAndUpdate_frame.
  - intros d Hd. apply by_key_true in Hd. unfold key3 in Hd.
    injection Hd as Hd _ _. unfold has_type. simpl. rewrite Hd.
    destruct (TrendType_eqb_spec (Fetcher.type_of (Fetcher.jobType a)) ty);
      [congruence | auto].
  - unfold has_type. simpl.
    destruct (TrendType_eqb_spec (Fetcher.type_of (Fetcher.jobType a)) ty);
      [congruence | auto].
Qed.

(** *** Scenarios *)

(** S6: the 15-minute file and today's daily file are missing and
    yesterday's daily file is there: daily documents dated 2024-04-30 are
    written, and nothing else. *)
Example fallback_to_yesterday :
  let out := Fetcher.fetchAndProcess cfg0 world_S6 may1 opts_default [] in
  snd out = Ok true /\
  map key3 (fst out)
  = [(daily, "2024-04-30", themes); (daily, "2024-04-30", persons);
     (daily, "2024-04-30", documents)].
Proof. vm_compute. split; reflexivity. Qed.

(** C3 (the code at a failing input).  The 15-minute file of
    2024-05-01T08:15Z is fetched and parsed, and both daily files are
    missing: nothing is saved and the call returns [false]. *)
Theorem fifteen_minute_file_not_saved :
  world_15 (Fetcher.fifteenUrl cfg0 may1) = Some sample /\
  Fetcher.fetchAndProcess cfg0 world_15 may1 opts_default []
  = ([], Ok false).
Proof. vm_compute. split; reflexivity. Qed.

(** The earlier revision saves the same file as realtime documents. *)
Example fifteen_minute_file_saved_v0 :
  let out := FetcherV0.fetchAndProcess cfg0 world_15 may1 opts_default [] in
  snd out = Ok true /\
  map key3 (fst out)
  = [(realtime, "2024-05-01", themes); (realtime, "2024-05-01", persons)].
Proof. vm_compute. split; reflexivity. Qed.

(* ================================================================== *)
(** ** Properties of the score *)

Section ScoreFacts.
Import Scorer.
Local Open Scope R_scope.






Lemma normalizeTo100_length values :
  List.length (normalizeTo100 values) = List.length values.
Proof.
  destruct values as [|v vs]; [reflexivity|].
  unfold normalizeTo100. destruct (Rle_dec _ 0); now rewrite length_map.
Qed.







End ScoreFacts.

Section ScoreCore.
Import Scorer.

Variable current : list Keyword.t.
Variable baselineMap : JSMap.t.
Variables windowDays topN : Z.

Let raws : list R := rawScores current baselineMap windowDays.
Let scored : list Scored :=
  map (fun wi => mkScored (Keyword.word (fst wi)) (snd wi))
      (combine current (normalizeTo100 raws)).
Let sorted : list Scored :=
  JSArray.sort (fun a b => (s_score b - s_score a)%Z) scored.






End ScoreCore.







(* ================================================================== *)
(** ** Properties of [scoreTrends] *)

Section ScoreTrendsFacts.
Import ScoreTrends.
Variable cfg : Config.t.
Variable W : Fetcher.World.

(** The fetcher only writes daily documents. *)
Lemma fetchAndProcess_keeps_other_types date options s ty :
  ty <> daily ->
  filter (has_type ty) (fst (Fetcher.fetchAndProcess cfg W date options s))
  = filter (has_type ty) s.
Proof.
  intros Hty. rewrite fetchAndProcess_is_fallback, fallback_eq.
  assert (Hsave : forall d c,
            filter (has_type ty)
                   (fst (Fetcher.saveTrends (daily_args cfg d c) s))
            = filter (has_type ty) s).
  { intros d c. apply saveTrends_keeps_other_types. exact Hty. }
  destruct (W (Fetcher.dailyUrl cfg (Fetcher.day_before date 0))) as [c|];
    [apply Hsave|].
  destruct (W (Fetcher.dailyUrl cfg (Fetcher.day_before date 1))) as [c|];
    [apply Hsave|].
  reflexivity.
Qed.

Lemma fetch_day_spec ds s ty :
  ty <> daily ->
  snd (fetch_day cfg W ds s) = Ok tt /\
  filter (has_type ty) (fst (fetch_day cfg W ds s)) = filter (has_type ty) s.
Proof.
  intros Hty. unfold fetch_day.
  destruct (toDate ds) as [t|]; [|split; reflexivity].
  unfold try_catch, bind.
  pose proof (@fetchAndProcess_keeps_other_types t
                (Fetcher.mkOptions (Some t) (Some daily)) s ty Hty) as H.
  destruct (Fetcher.fetchAndProcess cfg W t _ s) as [s' [b|e]];
    simpl in *; auto.
Qed.

Lemma for_each_fetch_day_spec l s ty :
  ty <> daily ->
  snd (Fetcher.for_each (fetch_day cfg W) l s) = Ok tt /\
  filter (has_type ty) (fst (Fetcher.for_each (fetch_day cfg W) l s))
  = filter (has_type ty) s.
Proof.
  intros Hty. revert s. induction l as [|ds r IH]; intros s; simpl; auto.
  unfold bind. destruct (@fetch_day_spec ds s ty Hty) as [H1 H2].
  destruct (fetch_day cfg W ds s) as [s' res]. simpl in *. subst res.
  destruct (IH s') as [H3 H4]. split; congruence.
Qed.

Lemma complete_spec running completed s ty :
  ty <> daily ->
  snd (complete cfg W running completed s) = Ok tt /\
  filter (has_type ty) (fst (complete cfg W running completed s))
  = filter (has_type ty) s.
Proof. intros Hty. unfold complete. now apply for_each_fetch_day_spec. Qed.

(** Phase A returns normally and only touches daily documents. *)
Lemma ensureDailyCoverage_spec dateStr windowDays s ty :
  ty <> daily ->
  snd (ensureDailyCoverage cfg W dateStr windowDays s)
  = Ok (left_running cfg W dateStr windowDays s) /\
  filter (has_type ty) (fst (ensureDailyCoverage cfg W dateStr windowDays s))
  = filter (has_type ty) s.
Proof.
  intros Hty. unfold left_running, ensureDailyCoverage, read, bind.
  cbv beta iota.
  match goal with |- context [if ?c then _ else _] => destruct c end;
    [split; reflexivity|].
  match goal with |- context [Fetcher.for_each _ ?l s] =>
    destruct (@for_each_fetch_day_spec l s ty Hty) as [H1 H2];
    destruct (Fetcher.for_each (fetch_day cfg W) l s) as [s1 res1]
  end.
  simpl in H1, H2. subst res1. split; [reflexivity | exact H2].
Qed.

(** The store from which the documents are loaded differs from the store
    of the call by daily documents only. *)
Lemma loaded_store_frame date windowDays sch s ty :
  ty <> daily ->
  filter (has_type ty) (loaded_store cfg W date windowDays sch s)
  = filter (has_type ty) s.
Proof.
  intros Hty. unfold loaded_store.
  rewrite (proj2 (complete_spec _ _ _ Hty)).
  apply ensureDailyCoverage_spec, Hty.
Qed.

(** [scoreTrends], phase by phase. *)
Lemma scoreTrends_eq now date category windowDays topN sch s :
  scoreTrends cfg W now date category windowDays topN sch s =
  match score_loaded now date category windowDays topN
          (loaded_store cfg W date windowDays sch s) with
  | (s', Ok res) =>
      (fst (complete cfg W (left_running cfg W date windowDays s)
              (before_return sch) s'), Ok res)
  | (s', Throw e) => (s', Throw e)
  end.
Proof.
  assert (Hr : ranked <> daily) by discriminate.
  unfold scoreTrends, loaded_store. unfold bind at 1.
  pose proof (proj1 (@ensureDailyCoverage_spec date windowDays s ranked Hr))
    as Hok.
  destruct (ensureDailyCoverage cfg W date windowDays s) as [s1 r1].
  simpl in Hok. subst r1. cbn [fst]. unfold bind at 1.
  set (running := left_running cfg W date windowDays s).
  pose proof (proj1 (@complete_spec running (before_load sch) s1 ranked Hr))
    as Hok.
  destruct (complete cfg W running (before_load sch) s1) as [s2 r2].
  simpl in Hok. subst r2. cbn [fst]. unfold bind at 1.
  destruct (score_loaded now date category windowDays topN s2)
    as [s3 [res|e]]; [|reflexivity].
  unfold bind.
  pose proof (proj1 (@complete_spec running (before_return sch) s3 ranked Hr))
    as Hok.
  destruct (complete cfg W running (before_return sch) s3) as [s4 r4].
  simpl in Hok. subst r4. reflexivity.
Qed.

(** The start of a window that stays within the range of time values. *)
Lemma addUTCDays_day day n :
  -100000000 <= day + n <= 100000000 ->
  addUTCDays (day * JSDate.msPerDay) n = Some ((day + n) * JSDate.msPerDay).
Proof.
  intros H. unfold addUTCDays, JSDate.TimeClip, JSDate.maxTime, JSDate.msPerDay.
  replace (day * 86400000 + n * 86400000) with ((day + n) * 86400000) by lia.
  destruct (Z.leb_spec (Z.abs ((day + n) * 86400000)) 8640000000000000);
    [reflexivity | lia].
Qed.

Lemma addUTCDays_invalid day n :
  ~ (-100000000 <= day + n <= 100000000) ->
  addUTCDays (day * JSDate.msPerDay) n = None.
Proof.
  intros H. unfold addUTCDays, JSDate.TimeClip, JSDate.maxTime, JSDate.msPerDay.
  replace (day * 86400000 + n * 86400000) with ((day + n) * 86400000) by lia.
  destruct (Z.leb_spec (Z.abs ((day + n) * 86400000)) 8640000000000000);
    [lia | reflexivity].
Qed.

(** Phase B with a window that leaves the range of time values: the
    start date cannot be formatted. *)
Lemma score_loaded_invalid now date category windowDays topN s day :
  JSDate.parse_day date = Some day ->
  ~ (-100000000 <= day - windowDays <= 100000000) ->
  score_loaded now date category windowDays topN s
  = (s, Throw (RangeError "Invalid time value")).
Proof.
  intros Hday Hw. unfold score_loaded, bind, lift. rewrite Hday.
  cbn [option_map]. rewrite addUTCDays_invalid by lia. reflexivity.
Qed.

(** Phase B with nothing to score: no write, and the empty list. *)
Lemma score_loaded_empty now date category windowDays topN s day :
  JSDate.parse_day date = Some day ->
  -100000000 <= day - windowDays <= 100000000 ->
  (Store.findOne (Store.by_key daily date category) s = None \/
   exists doc, Store.findOne (Store.by_key daily date category) s = Some doc
               /\ Trend.keywords doc = []) ->
  score_loaded now date category windowDays topN s = (s, Ok []).
Proof.
  intros Hday Hw H. unfold score_loaded, bind, lift, read. rewrite Hday.
  cbn [option_map]. rewrite addUTCDays_day by lia.
  cbn [Fetcher.toISOString_date].
  destruct H as [-> | (doc & -> & ->)]; reflexivity.
Qed.

(** Phase D: with keywords to score, a ranked document is in the store
    afterwards. *)
Lemma score_loaded_persists now date category windowDays topN s day doc :
  JSDate.parse_day date = Some day ->
  -100000000 <= day - windowDays <= 100000000 ->
  Store.findOne (Store.by_key daily date category) s = Some doc ->
  Trend.keywords doc <> [] ->
  exists res,
    snd (score_loaded now date category windowDays topN s) = Ok res /\
    exists d, In d (fst (score_loaded now date category windowDays topN s)) /\
              key3 d = (ranked, date, category) /\ Trend.timestamp d = now.
Proof.
  intros Hday Hw Hdoc Hkw. unfold score_loaded, bind, lift, read.
  rewrite Hday. cbn [option_map]. rewrite addUTCDays_day by lia.
  cbn [Fetcher.toISOString_date]. rewrite Hdoc.
  destruct (Trend.keywords doc) as [|k ks] eqn:E; [congruence|].
  destruct (rank_tiers doc _ windowDays topN) as [usedCurrent scored].
  unfold write, ret. cbn [fst snd].
  eexists. split; [reflexivity|].
  match goal with |- context [Store.findOneAndUpdate ?q ?u ?i s] =>
    set (resultDoc := i)
  end.
  exists resultDoc. split; [|split; reflexivity].
  unfold Store.findOneAndUpdate.
  destruct (Store.update_first _ _ s) as [s'|] eqn:Eu.
  - clear -Eu. revert s' Eu. induction s as [|d r IH]; simpl; [discriminate|].
    intros s'. destruct (Store.by_key ranked date category d).
    + intros [= <-]. now left.
    + destruct (Store.update_first _ _ r); [|discriminate].
      intros [= <-]. right. now apply IH.
  - apply in_or_app. right. now left.
Qed.

End ScoreTrendsFacts.

(** C9 (amended).  For a date that is a calendar day.  When the window
    stays within the range of time values: if, once the coverage of the
    baseline has been ensured, the store from which the documents are
    loaded holds no daily Trend for the date and the category, or one
    without keywords, then [scoreTrends] returns the empty list and writes
    nothing itself: what is written after that point is written by the
    fetches that the coverage left running; and the whole call, coverage
    included, leaves the ranked documents of the store as they were.
    When the window leaves that range, the call is rejected with a
    [RangeError] before the documents are loaded, and the ranked documents
    are left as they were as well. *)
Theorem scoreTrends_nothing_to_score
    (cfg : Config.t) (W : Fetcher.World) (now : JSDate.Date)
    (date : string) (category : Category) (windowDays topN : Z)
    (sch : ScoreTrends.Schedule) (s : Store.t) (day : Z) :
  JSDate.parse_day date = Some day ->
  let loaded := loaded_store cfg W date windowDays sch s in
  let out :=
    ScoreTrends.scoreTrends cfg W now date category windowDays topN sch s in
  (-100000000 <= day - windowDays <= 100000000 ->
   (Store.findOne (Store.by_key daily date category) loaded = None \/
    exists doc,
      Store.findOne (Store.by_key daily date category) loaded = Some doc
      /\ Trend.keywords doc = []) ->
   out = (fst (ScoreTrends.complete cfg W
                 (left_running cfg W date windowDays s)
                 (ScoreTrends.before_return sch) loaded), Ok []) /\
   Store.findMany (has_type ranked) (fst out)
   = Store.findMany (has_type ranked) s) /\
  (~ (-100000000 <= day - windowDays <= 100000000) ->
   out = (loaded, Throw (RangeError "Invalid time value")) /\
   Store.findMany (has_type ranked) (fst out)
   = Store.findMany (has_type ranked) s).
Proof.
  intros Hday loaded out.
  assert (Hr : ranked <> daily) by discriminate.
  pose proof (@loaded_store_frame cfg W date windowDays sch s ranked Hr)
    as Hframe.
  fold loaded in Hframe. unfold out. rewrite scoreTrends_eq. fold loaded.
  split.
  - intros Hw Hcur.
    rewrite (@score_loaded_empty now date category windowDays topN loaded day
               Hday Hw Hcur).
    split; [reflexivity|]. cbn [fst]. unfold Store.findMany.
    rewrite (proj2 (complete_spec cfg W _ _ _ Hr)). exact Hframe.
  - intros Hw.
    rewrite (@score_loaded_invalid now date category windowDays topN loaded
               day Hday Hw).
    split; [reflexivity | exact Hframe].
Qed.

Lemma scoreTrends_nothing_to_score_witness :
  let sch := ScoreTrends.mkSchedule [] [] in
  JSDate.parse_day "2024-05-01" = Some 19844 /\
  -100000000 <= 19844 - 1 <= 100000000 /\
  Store.findOne (Store.by_key daily "2024-05-01" themes)
    (loaded_store cfg0 world_none "2024-05-01" 1 sch []) = None /\
  ScoreTrends.scoreTrends cfg0 world_none 0 "2024-05-01" themes 1 50 sch []
  = ([], Ok []).
Proof.
  intros sch.
  assert (H1 : JSDate.parse_day "2024-05-01" = Some 19844)
    by (vm_compute; reflexivity).
  assert (H2 : -100000000 <= 19844 - 1 <= 100000000) by lia.
  assert (H3 : Store.findOne (Store.by_key daily "2024-05-01" themes)
                 (loaded_store cfg0 world_none "2024-05-01" 1 sch []) = None)
    by (vm_compute; reflexivity).
  split; [exact H1|]. split; [exact H2|]. split; [exact H3|].
  exact (proj1 (proj1 (@scoreTrends_nothing_to_score cfg0 world_none 0
                         "2024-05-01" themes 1 50 sch [] 19844 H1)
                  H2 (or_introl H3))).
Defined.

(** The store holds no daily Trend of 2024-05-01 when [scoreTrends] is
    called, and GDELT serves the daily file of that day: the coverage
    phase fetches and saves it, and a ranked Trend is written. *)
Lemma scoreTrends_fetches_missing_day :
  Store.findOne (Store.by_key daily "2024-05-01" themes) [] = None /\
  Store.findMany (has_type ranked)
    (fst (ScoreTrends.scoreTrends cfg0 world_today 0 "2024-05-01" themes
            1 50 (ScoreTrends.mkSchedule [] []) []))
  <> Store.findMany (has_type ranked) [].
Proof.
  split; [reflexivity|].
  rewrite scoreTrends_eq.
  set (sch := ScoreTrends.mkSchedule [] []).
  pose (doc := Trend.make 1714521600000 daily "2024-05-01" themes
                 [Keyword.make "tax" 2 None None;
                  Keyword.make "covid-19" 1 None None]).
  assert (Hday : JSDate.parse_day "2024-05-01" = Some 19844)
    by (vm_compute; reflexivity).
  assert (Hw : -100000000 <= 19844 - 1 <= 100000000) by lia.
  assert (Hfind : Store.findOne (Store.by_key daily "2024-05-01" themes)
                    (loaded_store cfg0 world_today "2024-05-01" 1 sch [])
                  = Some doc)
    by (vm_compute; reflexivity).
  assert (Hkw : Trend.keywords doc <> []) by discriminate.
  destruct (@score_loaded_persists 0 "2024-05-01" themes 1 50 _ 19844 doc
              Hday Hw Hfind Hkw) as (res & Hres & d & Hin & Hkey & _).
  destruct (ScoreTrends.score_loaded 0 "2024-05-01" themes 1 50
              (loaded_store cfg0 world_today "2024-05-01" 1 sch []))
    as [s3 r3].
  simpl in Hres, Hin. subst r3. cbn [fst].
  assert (Hrun : left_running cfg0 world_today "2024-05-01" 1 [] = [])
    by (vm_compute; reflexivity).
  rewrite Hrun.
  change (fst (ScoreTrends.complete cfg0 world_today []
                 (ScoreTrends.before_return sch) s3)) with s3.
  change (Store.findMany (has_type ranked) []) with (@nil Trend.t).
  intros Hno.
  assert (Hd : In d (Store.findMany (has_type ranked) s3)).
  { apply filter_In. split; [exact Hin|].
    unfold has_type. unfold key3 in Hkey. injection Hkey as -> _ _.
    reflexivity. }
  rewrite Hno in Hd. exact Hd.
Qed.

(* ================================================================== *)
(** ** Further properties of the tokenizer *)

Lemma collapse_from_idem l :
  (forall b, collapse_from false (collapse_from b l) = collapse_from b l) /\
  collapse_from true (collapse_from true l) = collapse_from true l.
Proof.
  induction l as [|a r [IH1 IH2]]; [split; [intros []|]; reflexivity|].
  split.
  - intros b. simpl. destruct (is_space a) eqn:Ha.
    + destruct b; [apply IH1|].
      simpl. now rewrite IH2.
    + simpl. rewrite Ha. now rewrite IH1.
  - simpl. destruct (is_space a) eqn:Ha; [apply IH2|].
    simpl. rewrite Ha. now rewrite IH1.
Qed.

Lemma chars_str l : chars (str l) = l.
Proof. apply list_ascii_of_string_of_list_ascii. Qed.

Lemma str_chars s : str (chars s) = s.
Proof. apply string_of_list_ascii_of_string. Qed.

Lemma chars_append (s t : string) : chars (s ++ t)%string = chars s ++ chars t.
Proof.
  unfold chars. induction s as [|c s IH]; simpl; [reflexivity|].
  now rewrite IH.
Qed.

Lemma eqb_empty_chars s : String.eqb s EmptyString = true <-> chars s = [].
Proof.
  destruct s; simpl; split; intros H; try reflexivity; discriminate.
Qed.

(** The form of a cleaned keyword. *)
Lemma cleanKeyword_form raw tok :
  cleanKeyword raw = Some tok ->
  chars tok <> [] /\
  is_stopword tok = false /\
  toLowerCase (chars tok) = chars tok /\
  trim (chars tok) = chars tok /\
  strip_nonword (chars tok) = chars tok /\
  collapse_spaces (chars tok) = chars tok.
Proof.
  intros H. destruct (cleanKeyword_shape _ H) as (Hstop & Hlow & Htrim).
  revert H. unfold cleanKeyword.
  destruct (String.eqb raw EmptyString); [discriminate|].
  set (s0 := trim (toLowerCase (chars raw))).
  set (s1 := strip_nonword s0).
  set (s := collapse_spaces s1).
  destruct (List.length s =? 0)%nat eqn:Hlen; [discriminate|].
  destruct (is_stopword (str s)); [discriminate|].
  intros [= <-]. rewrite chars_str in *.
  repeat split; auto.
  - intros E. rewrite E in Hlen. discriminate.
  - assert (H1 : head_not (fun c => negb (is_word c)) s1)
      by apply dropWhileEnd_head_not, dropWhile_head_not.
    assert (H2 : head_not (fun c => negb (is_word c)) (rev s1))
      by apply dropWhileEnd_rev_head_not.
    assert (Hhd : head_not (fun c => negb (is_word c)) s).
    { subst s. destruct s1 as [|c r]; simpl in *; [exact I|].
      pose proof H1 as H1'. apply negb_false_iff in H1'.
      apply is_word_not_space in H1'.
      unfold collapse_spaces. simpl. rewrite H1'. exact H1. }
    assert (Hlast : head_not (fun c => negb (is_word c)) (rev s)).
    { subst s. destruct (rev s1) as [|c r] eqn:E.
      - apply (f_equal (@rev ascii)) in E. rewrite rev_involutive in E.
        rewrite E. exact I.
      - apply (f_equal (@rev ascii)) in E. rewrite rev_involutive in E.
        simpl in E. simpl in H2. pose proof H2 as H2'.
        apply negb_false_iff in H2'. apply is_word_not_space in H2'.
        rewrite E. unfold collapse_spaces.
        rewrite collapse_from_snoc by assumption.
        rewrite rev_app_distr. simpl. exact H2. }
    unfold strip_nonword. rewrite (dropWhile_id _ _ Hhd).
    now apply dropWhileEnd_id.
  - subst s. unfold collapse_spaces. apply collapse_from_idem.
Qed.

Lemma cleanKeyword_fixed raw tok :
  cleanKeyword raw = Some tok -> cleanKeyword tok = Some tok.
Proof.
  intros H.
  destruct (cleanKeyword_form _ H) as (Hne & Hstop & Hlow & Htrim & Hstrip & Hcol).
  unfold cleanKeyword.
  destruct (String.eqb tok EmptyString) eqn:E.
  - apply eqb_empty_chars in E. contradiction.
  - rewrite Hlow, Htrim, Hstrip, Hcol, str_chars, Hstop.
    destruct (chars tok); [contradiction|reflexivity].
Qed.

(** X1. [cleanKeyword] is idempotent: a keyword that it returns is
    returned unchanged when it is cleaned again. *)
Theorem cleanKeyword_idempotent (raw tok : string) :
  cleanKeyword raw = Some tok -> cleanKeyword tok = Some tok.
Proof. apply cleanKeyword_fixed. Qed.

Lemma cleanKeyword_idempotent_witness :
  cleanKeyword "  --The  Quick Fox!! " = Some "the quick fox" /\
  cleanKeyword "the quick fox" = Some "the quick fox".
Proof.
  split; [vm_compute; reflexivity|].
  apply (cleanKeyword_idempotent "  --The  Quick Fox!! "). vm_compute. reflexivity.
Defined.

Lemma split_app sep x y :
  split sep (x ++ sep :: y) = split sep x ++ split sep y.
Proof.
  induction x as [|c r IH]; simpl.
  - now rewrite Ascii.eqb_refl.
  - destruct (Ascii.eqb c sep); [now rewrite IH|].
    rewrite IH. destruct (split sep r) as [|p ps] eqn:E; [|reflexivity].
    pose proof (split_join sep r) as Hj. rewrite E in Hj. contradiction.
Qed.

Lemma cleaned_app l1 l2 : cleaned (l1 ++ l2) = cleaned l1 ++ cleaned l2.
Proof.
  induction l1 as [|p ps IH]; simpl; [reflexivity|].
  destruct (cleanKeyword (str p)); simpl; now rewrite IH.
Qed.

Lemma splitAndClean_eq s :
  splitAndClean s
  = filter (fun token => negb (isNoiseToken token))
           (cleaned (split ";"%char (chars s))).
Proof.
  unfold splitAndClean. destruct (String.eqb s EmptyString) eqn:E; [|reflexivity].
  apply String.eqb_eq in E. subst s. reflexivity.
Qed.

(** X2. [splitAndClean] reads a field part by part: the tokens of two
    fields joined by a semicolon are the tokens of the first followed by
    the tokens of the second. *)
Theorem splitAndClean_semicolon (a b : string) :
  splitAndClean (a ++ ";" ++ b)%string = splitAndClean a ++ splitAndClean b.
Proof.
  rewrite !splitAndClean_eq, !chars_append.
  change (chars ";") with [";"%char]. simpl.
  now rewrite split_app, cleaned_app, filter_app.
Qed.

Lemma split_parts sep s :
  Forall (Forall (fun c => Ascii.eqb c sep = false)) (split sep s).
Proof.
  induction s as [|c r IH]; simpl; [repeat constructor|].
  destruct (Ascii.eqb c sep) eqn:E; [constructor; auto|].
  destruct (split sep r) as [|p ps]; [repeat constructor; auto|].
  inversion IH; subst. constructor; auto.
Qed.

Lemma cleaned_In_part parts tok :
  In tok (cleaned parts) ->
  exists p, In p parts /\ cleanKeyword (str p) = Some tok.
Proof.
  induction parts as [|q ps IH]; simpl; [tauto|].
  destruct (cleanKeyword (str q)) eqn:E; simpl.
  - intros [<- | H]; [eauto|]. destruct (IH H) as (p & ? & ?); eauto.
  - intros H. destruct (IH H) as (p & ? & ?); eauto.
Qed.

Lemma lower_char_semicolon c :
  Ascii.eqb c ";"%char = false -> Ascii.eqb (lower_char c) ";"%char = false.
Proof. destruct c as [[] [] [] [] [] [] [] []]; vm_compute; congruence. Qed.

Lemma cleanKeyword_no_semicolon raw tok :
  Forall (fun c => Ascii.eqb c ";"%char = false) (chars raw) ->
  cleanKeyword raw = Some tok ->
  Forall (fun c => Ascii.eqb c ";"%char = false) (chars tok).
Proof.
  intros Hraw. unfold cleanKeyword.
  destruct (String.eqb raw EmptyString); [discriminate|].
  match goal with |- context [(List.length ?s =? 0)%nat] => set (s1 := s) end.
  destruct (List.length s1 =? 0)%nat; [discriminate|].
  destruct (is_stopword (str s1)); [discriminate|].
  intros [= <-]. rewrite chars_str. subst s1.
  apply collapse_from_Forall; [reflexivity|].
  apply Forall_dropWhileEnd, Forall_dropWhile.
  apply Forall_dropWhileEnd, Forall_dropWhile.
  unfold toLowerCase. apply Forall_forall. intros c Hc.
  apply in_map_iff in Hc as [c0 [<- Hc0]].
  rewrite Forall_forall in Hraw. now apply lower_char_semicolon, Hraw.
Qed.

Lemma splitAndClean_token t tok :
  In tok (splitAndClean t) ->
  isNoiseToken tok = false /\ cleanKeyword tok = Some tok /\
  splitAndClean tok = [tok].
Proof.
  rewrite splitAndClean_eq. intros H. apply filter_In in H as [Hin Hnoise].
  apply negb_true_iff in Hnoise.
  apply cleaned_In_part in Hin as (p & Hp & Hclean).
  pose proof (cleanKeyword_fixed _ Hclean) as Hidem.
  split; [assumption|]. split; [assumption|].
  assert (Hsemi : Forall (fun c => Ascii.eqb c ";"%char = false) (chars tok)).
  { apply (cleanKeyword_no_semicolon (str p)); [|assumption].
    rewrite chars_str. pose proof (split_parts ";"%char (chars t)) as Hs.
    rewrite Forall_forall in Hs. now apply Hs. }
  rewrite splitAndClean_eq, (split_no_sep _ Hsemi). simpl.
  rewrite str_chars, Hidem. simpl. now rewrite Hnoise.
Qed.

(** X3. The tokens of [splitAndClean] are stable: each one is a keyword
    that [cleanKeyword] keeps as it is, and tokenizing it again gives that
    token alone. *)
Theorem splitAndClean_stable (t tok : string) :
  In tok (splitAndClean t) ->
  cleanKeyword tok = Some tok /\ splitAndClean tok = [tok].
Proof. intros H. now apply splitAndClean_token in H. Qed.

Lemma splitAndClean_stable_witness :
  In "covid-19" (splitAndClean "AND;Covid-19;example.com") /\
  splitAndClean "covid-19" = ["covid-19"].
Proof.
  split; [vm_compute; auto|].
  apply (splitAndClean_stable "AND;Covid-19;example.com"). vm_compute. auto.
Defined.

(* ================================================================== *)
(** ** Further properties of the ranker *)

Lemma or_default_0 v : or_default (Some v) 0 = v.
Proof. unfold or_default. destruct (Z.eqb_spec v 0); congruence. Qed.

Lemma get_set_same o k v : JSObject.get (JSObject.set o k v) k = Some v.
Proof.
  induction o as [|[k' v'] r IH]; simpl.
  - now rewrite String.eqb_refl.
  - destruct (String.eqb k k') eqn:E; simpl; rewrite E; auto.
Qed.

Lemma get_set_other o k k' v :
  k' <> k -> JSObject.get (JSObject.set o k v) k' = JSObject.get o k'.
Proof.
  intros Hne. induction o as [|[k0 v0] r IH]; simpl.
  - destruct (String.eqb_spec k' k); congruence.
  - destruct (String.eqb_spec k k0); simpl.
    + subst k0. destruct (String.eqb_spec k' k); congruence.
    + now rewrite IH.
Qed.

Lemma tally_count arr o k :
  or_default
    (JSObject.get
       (fold_left
          (fun counts k =>
             JSObject.set counts k (or_default (JSObject.get counts k) 0 + 1))
          arr o) k) 0
  = or_default (JSObject.get o k) 0 + occurrences arr k.
Proof.
  unfold occurrences. revert o.
  induction arr as [|w r IH]; intros o; simpl; [lia|].
  rewrite IH. destruct (string_dec w k) as [->|Hne].
  - rewrite get_set_same, or_default_0. lia.
  - rewrite get_set_other by congruence. lia.
Qed.

Lemma StronglySorted_NoDup (A : Type) (R : A -> A -> Prop) l :
  (forall a, ~ R a a) -> StronglySorted R l -> NoDup l.
Proof.
  intros Hirr. induction 1 as [|a l Hl IH Ha]; constructor; auto.
  intros Hin. rewrite Forall_forall in Ha. exact (Hirr a (Ha a Hin)).
Qed.

Lemma tally_NoDup arr : NoDup (keys (Ranker.tally arr)).
Proof.
  apply (@StronglySorted_NoDup _ (fun a b => (index_of a arr < index_of b arr)%nat));
    [intros a; lia|].
  apply (tally_spec arr).
Qed.

Lemma NoDup_get o k v : NoDup (keys o) -> In (k, v) o -> JSObject.get o k = Some v.
Proof.
  induction o as [|[k' v'] r IH]; simpl; [tauto|].
  intros Hnd [H|H]; inversion Hnd; subst.
  - injection H as -> ->. now rewrite String.eqb_refl.
  - destruct (String.eqb_spec k k') as [->|_]; auto.
    exfalso. apply H2. unfold keys. apply in_map_iff. now exists (k', v).
Qed.

Lemma tally_In arr k v :
  In (k, v) (Ranker.tally arr) -> In k arr /\ v = occurrences arr k.
Proof.
  intros H. split.
  - apply (tally_spec arr). unfold keys. apply in_map_iff. now exists (k, v).
  - pose proof (tally_count arr [] k) as Hc. fold (Ranker.tally arr) in Hc.
    rewrite (NoDup_get _ _ _ (tally_NoDup arr) H), or_default_0 in Hc.
    simpl in Hc. lia.
Qed.

Lemma tally_entries arr :
  map entry_of (Ranker.tally arr)
  = map (fun w => Ranker.mkEntry w (occurrences arr w)) (keys (Ranker.tally arr)).
Proof.
  unfold keys. rewrite map_map. apply map_ext_in. intros [k v] H.
  apply tally_In in H as [_ ->]. reflexivity.
Qed.

Lemma rankByCount_eq arr topN :
  exists k,
    Ranker.rankByCount arr topN
    = firstn k (JSArray.sort (fun a b => Ranker.count b - Ranker.count a)
                  (map entry_of (JSObject.entries (Ranker.tally arr)))).
Proof.
  unfold Ranker.rankByCount.
  match goal with |- context [JSArray.slice0 ?l ?e] =>
    destruct (slice0_firstn l e) as (k & -> & _) end.
  now exists k.
Qed.

Lemma rankByCount_perm arr :
  Permutation
    (JSArray.sort (fun a b => Ranker.count b - Ranker.count a)
       (map entry_of (JSObject.entries (Ranker.tally arr))))
    (map (fun w => Ranker.mkEntry w (occurrences arr w))
         (keys (Ranker.tally arr))).
Proof.
  rewrite sort_perm, <- tally_entries.
  apply Permutation_map, entries_perm.
Qed.

Lemma firstn_In (A : Type) k (l : list A) a : In a (firstn k l) -> In a l.
Proof.
  revert l. induction k as [|k IH]; intros [|x l]; simpl; try tauto.
  intros [H|H]; auto.
Qed.

Lemma firstn_NoDup (A : Type) k (l : list A) : NoDup l -> NoDup (firstn k l).
Proof.
  revert l. induction k as [|k IH]; intros [|x l] H; simpl; try constructor.
  - inversion H; subst. intros Hin. apply firstn_In in Hin. contradiction.
  - inversion H; subst. auto.
Qed.

(** X4. Every entry of the Ranker's [rankByCount] carries a word of the
    input with the number of its occurrences there, which is at least 1,
    and no word has two entries. *)
Theorem rankByCount_counts (arr : list string) (topN : option Z) :
  let out := Ranker.rankByCount arr topN in
  Forall (fun e => In (Ranker.word e) arr /\
                   Ranker.count e = occurrences arr (Ranker.word e) /\
                   1 <= Ranker.count e) out /\
  NoDup (map Ranker.word out).
Proof.
  intros out. subst out. destruct (rankByCount_eq arr topN) as (k & ->).
  pose proof (rankByCount_perm arr) as Hp.
  split.
  - apply Forall_forall. intros e He. apply firstn_In in He.
    apply (Permutation_in _ Hp) in He.
    apply in_map_iff in He as (w & <- & Hw). simpl.
    assert (Hin : In w arr) by now apply (tally_spec arr).
    repeat split; auto.
    unfold occurrences.
    apply (count_occ_In string_dec) in Hin. lia.
  - rewrite <- firstn_map. apply firstn_NoDup.
    apply (Permutation_map Ranker.word) in Hp. symmetry in Hp.
    apply (Permutation_NoDup Hp).
    rewrite map_map. simpl. rewrite map_id. apply tally_NoDup.
Qed.

Lemma keys_distinct arr : Permutation (keys (Ranker.tally arr)) (distinct arr).
Proof.
  apply NoDup_Permutation; [apply tally_NoDup|apply NoDup_nodup|].
  intros w. unfold distinct. rewrite nodup_In. apply (tally_spec arr).
Qed.

(** X5. When the input has at most [topN] distinct words (50 when no
    limit is given), the Ranker's [rankByCount] loses nothing: its result
    is, up to the order, one entry for each distinct word with the number
    of its occurrences. *)
Theorem rankByCount_complete (arr : list string) (topN : option Z) :
  Z.of_nat (List.length (distinct arr))
  <= match topN with Some n => n | None => 50 end ->
  Permutation (Ranker.rankByCount arr topN)
    (map (fun w => Ranker.mkEntry w (occurrences arr w)) (distinct arr)).
Proof.
  intros Hlen.
  pose proof (rankByCount_perm arr) as Hp.
  pose proof (keys_distinct arr) as Hk.
  unfold Ranker.rankByCount.
  match goal with |- context [JSArray.slice0 ?l ?e] =>
    set (sorted := l) in *; set (limit := e) in * end.
  assert (Hp' : Permutation sorted
                  (map (fun w => Ranker.mkEntry w (occurrences arr w))
                       (keys (Ranker.tally arr)))) by exact Hp.
  assert (Hn : List.length sorted = List.length (distinct arr)).
  { rewrite (Permutation_length Hp'), length_map. apply Permutation_length, Hk. }
  unfold JSArray.slice0.
  rewrite firstn_all2.
  - rewrite Hp'. apply Permutation_map, Hk.
  - destruct (limit <? 0) eqn:E; lia.
Qed.

Lemma rankByCount_complete_witness :
  Z.of_nat (List.length (distinct ["b"; "a"; "b"])) <= 50 /\
  Permutation (Ranker.rankByCount ["b"; "a"; "b"] None)
              [Ranker.mkEntry "a" 1; Ranker.mkEntry "b" 2].
Proof.
  split; [vm_compute; discriminate|].
  apply (rankByCount_complete ["b"; "a"; "b"] None). vm_compute. discriminate.
Defined.

(* ================================================================== *)
(** ** The entries of the Aggregator's [rankByCount] *)

Lemma filter_none (A : Type) (f : A -> bool) l :
  (forall x, In x l -> f x = false) -> filter f l = [].
Proof.
  induction l as [|a r IH]; simpl; intros H; [reflexivity|].
  rewrite (H a) by now left. apply IH. intros x Hx. apply H. now right.
Qed.

Lemma existsb_eqb x set : existsb (String.eqb x) set = true <-> In x set.
Proof.
  rewrite existsb_exists. split.
  - intros (y & Hy & E). apply String.eqb_eq in E. now subst.
  - intros H. exists x. split; [assumption|apply String.eqb_refl].
Qed.

Lemma add_spec set x :
  (NoDup set -> NoDup (JSSet.add set x)) /\
  (forall y, In y (JSSet.add set x) <-> In y set \/ y = x).
Proof.
  unfold JSSet.add. destruct (existsb (String.eqb x) set) eqn:E.
  - apply existsb_eqb in E. split; [auto|]. intros y. split; [auto|].
    intros [H | ->]; assumption.
  - assert (Hnin : ~ In x set).
    { intros H. apply existsb_eqb in H. congruence. }
    split.
    + intros Hnd. apply NoDup_app; [assumption|repeat constructor; simpl; tauto|].
      intros y Hy [<-|[]]. contradiction.
    + intros y. rewrite in_app_iff. simpl. intuition congruence.
Qed.

Lemma fold_add_spec l set :
  (NoDup set -> NoDup (fold_left JSSet.add l set)) /\
  (forall y, In y (fold_left JSSet.add l set) <-> In y set \/ In y l).
Proof.
  revert set. induction l as [|x r IH]; intros set; simpl.
  - split; [auto|]. tauto.
  - destruct (IH (JSSet.add set x)) as [IH1 IH2].
    destruct (add_spec set x) as [A1 A2]. split; [auto|].
    intros y. rewrite IH2, A2. intuition congruence.
Qed.

Lemma from_list_NoDup l : NoDup (JSSet.from_list l).
Proof. apply fold_add_spec. constructor. Qed.

Lemma from_list_In l y : In y (JSSet.from_list l) <-> In y l.
Proof.
  unfold JSSet.from_list. rewrite (proj2 (fold_add_spec l [])). simpl. tauto.
Qed.

Lemma total_app (A : Type) (f : A -> Z) l l' :
  total f (l ++ l') = total f l + total f l'.
Proof. unfold total. induction l; simpl; lia. Qed.

Lemma items_of_snoc w seen item :
  items_of w (seen ++ [item])
  = items_of w seen ++ (if String.eqb (lowered item) w then [item] else []).
Proof. unfold items_of. rewrite filter_app. reflexivity. Qed.

Lemma bump_Forall (P P' : Aggregator.Entry -> Prop) m w n docs :
  NoDup (map_keys m) ->
  (forall e, Aggregator.e_word e = w -> P e ->
     P' (Aggregator.mkEntry (Aggregator.e_word e) (Aggregator.e_count e + n)
           (fold_left Aggregator.set_add docs (Aggregator.e_documents e)))) ->
  (forall e, Aggregator.e_word e <> w -> P e -> P' e) ->
  Forall P m -> Forall P' (Aggregator.bump m w n docs).
Proof.
  intros Hnd Hw Hother. induction 1 as [|e r He Hr IH]; simpl; [constructor|].
  inversion Hnd as [|? ? Hnin Hnd']; subst.
  destruct (String.eqb_spec (Aggregator.e_word e) w) as [E|E].
  - constructor; [now apply Hw|].
    apply Forall_forall. intros e' He'. rewrite Forall_forall in Hr.
    apply Hother; [|now apply Hr].
    intros E'. apply Hnin. unfold map_keys. apply in_map_iff.
    exists e'. split; [congruence|assumption].
  - constructor; auto.
Qed.

Lemma loop_entries arr seen m m' :
  NoDup (map_keys m) ->
  (forall w, In w (map_keys m) <-> In w (map lowered seen)) ->
  Forall (entry_of_items seen) m ->
  Aggregator.loop m arr = Ok m' ->
  NoDup (map_keys m') /\
  (forall w, In w (map_keys m') <-> In w (map lowered (seen ++ arr))) /\
  Forall (entry_of_items (seen ++ arr)) m'.
Proof.
  revert seen m. induction arr as [|item rest IH]; intros seen m Hnd Hkeys Hall H.
  - simpl in H. injection H as <-. now rewrite app_nil_r.
  - simpl in H. unfold Aggregator.step in H.
    destruct (Aggregator.item_word item) as [wd|] eqn:Ewd; [|discriminate].
    replace (seen ++ item :: rest) with ((seen ++ [item]) ++ rest)
      by (rewrite <- app_assoc; reflexivity).
    revert H.
    set (w := JSString.str (JSString.toLowerCase (JSString.chars wd))).
    assert (Hw : lowered item = w) by (unfold lowered; now rewrite Ewd).
    set (m1 := if Aggregator.has m w then m
               else m ++ [Aggregator.mkEntry w 0 []]).
    assert (H1 : NoDup (map_keys m1) /\
                 (forall k, In k (map_keys m1)
                            <-> In k (map lowered (seen ++ [item]))) /\
                 Forall (entry_of_items seen) m1).
    { subst m1. destruct (Aggregator.has m w) eqn:Ehas.
      - apply has_iff in Ehas. repeat split; auto.
        + intros Hk. rewrite map_app, in_app_iff. left. now apply Hkeys.
        + rewrite map_app, in_app_iff. simpl. rewrite Hw.
          intros [Hk|[<-|[]]]; [now apply Hkeys|assumption].
      - assert (Hnin : ~ In w (map_keys m)).
        { intros Hin. apply has_iff in Hin. congruence. }
        repeat split.
        + rewrite map_keys_snoc. simpl.
          apply NoDup_app; [assumption|repeat constructor; simpl; tauto|].
          intros x Hx [<-|[]]. contradiction.
        + rewrite map_keys_snoc, map_app, !in_app_iff. simpl. rewrite Hw.
          rewrite Hkeys. tauto.
        + rewrite map_keys_snoc, map_app, !in_app_iff. simpl. rewrite Hw.
          rewrite Hkeys. tauto.
        + apply Forall_app. split; [assumption|]. constructor; [|constructor].
          assert (E : items_of w seen = []).
          { unfold items_of. apply filter_none. intros i Hi.
            destruct (String.eqb_spec (lowered i) w) as [E|E]; [|reflexivity].
            exfalso. apply Hnin, Hkeys. rewrite <- E. now apply in_map. }
          split; simpl; rewrite E; reflexivity. }
    destruct H1 as (Hnd1 & Hkeys1 & Hall1).
    intros H. eapply IH; [| | |exact H].
    + unfold map_keys in *. now rewrite (bump_keys m1).
    + intros k. unfold map_keys in *. rewrite (bump_keys m1). apply Hkeys1.
    + eapply bump_Forall; [exact Hnd1| | |exact Hall1].
      * intros e Ee [Hc Hd]. split; simpl; rewrite items_of_snoc, Hw, Ee;
          rewrite String.eqb_refl.
        -- rewrite total_app, <- Ee, <- Hc. simpl. fold (weight item). lia.
        -- rewrite flat_map_app. unfold JSSet.from_list.
           rewrite fold_left_app. simpl. rewrite app_nil_r.
           rewrite <- Ee. unfold JSSet.from_list in Hd. rewrite <- Hd.
           reflexivity.
      * intros e Ee [Hc Hd]. split; rewrite items_of_snoc, Hw.
        -- destruct (String.eqb_spec w (Aggregator.e_word e)); [congruence|].
           now rewrite app_nil_r.
        -- destruct (String.eqb_spec w (Aggregator.e_word e)); [congruence|].
           now rewrite app_nil_r.
Qed.

(** X7. Every entry of the Aggregator's [rankByCount] is the sum of the
    items of its word: the word is the lower-cased word of an item, the
    count is the total of the weights [count || 1] of the items of that
    word, and the documents are those of these items, each listed once in
    the order of first occurrence; no word has two entries. *)
Theorem aggregator_rankByCount_entries
    (arr : list Aggregator.Item) (topN : Z) (out : list Aggregator.Entry) :
  Aggregator.rankByCount arr topN = Ok out ->
  Forall (fun e => In (Aggregator.e_word e) (map lowered arr) /\
                   entry_of_items arr e /\
                   NoDup (Aggregator.e_documents e)) out /\
  NoDup (map Aggregator.e_word out).
Proof.
  intros H. unfold Aggregator.rankByCount in H.
  destruct (Aggregator.loop [] arr) as [m|] eqn:E; [|discriminate].
  injection H as <-.
  destruct (@loop_entries arr [] [] m) as (Hnd & Hkeys & Hall); auto;
    [constructor|simpl; tauto|].
  simpl in Hkeys, Hall.
  set (S := JSArray.sort
              (fun a b => Aggregator.e_count b - Aggregator.e_count a) m).
  assert (HS : Permutation S m) by apply sort_perm.
  destruct (slice0_firstn S topN) as (k & -> & _).
  split.
  - apply Forall_forall. intros e He. apply firstn_In in He.
    apply (Permutation_in _ HS) in He.
    rewrite Forall_forall in Hall. specialize (Hall e He).
    repeat split; try apply Hall.
    + apply Hkeys. unfold map_keys. now apply in_map.
    + destruct Hall as [_ ->]. apply from_list_NoDup.
  - rewrite <- firstn_map. apply firstn_NoDup.
    apply (Permutation_map Aggregator.e_word) in HS. symmetry in HS.
    apply (Permutation_NoDup HS). exact Hnd.
Qed.

Lemma aggregator_rankByCount_entries_witness :
  let arr := [Aggregator.mkItem (Some "Tax") None (Some ["d1"; "d2"]);
              Aggregator.mkItem (Some "covid-19") (Some 2) None;
              Aggregator.mkItem (Some "TAX") (Some 4) (Some ["d2"; "d3"])] in
  let out := [Aggregator.mkEntry "tax" 5 ["d1"; "d2"; "d3"];
              Aggregator.mkEntry "covid-19" 2 []] in
  Aggregator.rankByCount arr 50 = Ok out /\
  NoDup (map Aggregator.e_word out).
Proof.
  intros arr out.
  assert (H : Aggregator.rankByCount arr 50 = Ok out)
    by (vm_compute; reflexivity).
  split; [exact H|].
  exact (proj2 (@aggregator_rankByCount_entries arr 50 out H)).
Defined.

(* ================================================================== *)
(** ** What the upserts leave in the store *)

Section Find.
Variable q : Trend.t -> bool.
Variable upd : Trend.t -> Trend.t.
Variable ins : Trend.t.

Lemma find_app_none (s s' : Store.t) :
  (forall d, In d s -> q d = false) -> find q (s ++ s') = find q s'.
Proof.
  induction s as [|d r IH]; simpl; intros H; [reflexivity|].
  rewrite (H d) by now left. apply IH. intros x Hx. apply H. now right.
Qed.

Lemma find_upsert s :
  (forall d, q d = true -> q (upd d) = true) -> q ins = true ->
  Store.findOne q (Store.findOneAndUpdate q upd ins s)
  = Some (match Store.findOne q s with Some d => upd d | None => ins end).
Proof.
  intros Hupd Hins. unfold Store.findOne, Store.findOneAndUpdate.
  destruct (Store.update_first q upd s) as [s'|] eqn:E.
  - revert s' E. induction s as [|d r IH]; simpl; intros s' E; [discriminate|].
    destruct (q d) eqn:Hd.
    + injection E as <-. simpl. now rewrite (Hupd d Hd).
    + destruct (Store.update_first q upd r) as [r'|]; [|discriminate].
      injection E as <-. simpl. rewrite Hd. now apply IH.
  - pose proof (update_first_None q upd ins s E) as Hnone.
    rewrite find_app_none by assumption. simpl. rewrite Hins.
    assert (Hf : find q s = None).
    { destruct (find q s) as [d|] eqn:F; [|reflexivity].
      apply find_some in F as [F1 F2]. rewrite (Hnone d F1) in F2.
      discriminate. }
    now rewrite Hf.
Qed.

Lemma settled_upsert s :
  (forall d, q d = true -> q (upd d) = true /\ upd (upd d) = upd d) ->
  q ins = true -> upd ins = ins ->
  settled q upd (Store.findOneAndUpdate q upd ins s).
Proof.
  intros Hupd Hins Hfix. unfold settled, Store.findOneAndUpdate.
  destruct (Store.update_first q upd s) as [s'|] eqn:E.
  - revert s' E. induction s as [|d r IH]; simpl; intros s' E; [discriminate|].
    destruct (q d) eqn:Hd.
    + injection E as <-. simpl. destruct (Hupd d Hd) as [-> ->]. reflexivity.
    + destruct (Store.update_first q upd r) as [r'|]; [|discriminate].
      injection E as <-. simpl. rewrite Hd. now rewrite (IH r').
  - pose proof (update_first_None q upd ins s E) as Hnone. clear E.
    induction s as [|d r IH]; simpl.
    + now rewrite Hins, Hfix.
    + rewrite (Hnone d) by now left. rewrite IH; [reflexivity|].
      intros x Hx. apply Hnone. now right.
Qed.

Lemma settled_id s :
  settled q upd s -> Store.findOneAndUpdate q upd ins s = s.
Proof. unfold settled, Store.findOneAndUpdate. now intros ->. Qed.

Variable q' : Trend.t -> bool.
Variable upd' : Trend.t -> Trend.t.
Variable ins' : Trend.t.
Hypothesis Hdisj : forall d, q' d = true -> q d = false /\ q (upd' d) = false.
Hypothesis Hins' : q ins' = false.

Lemma find_upsert_other s :
  Store.findOne q (Store.findOneAndUpdate q' upd' ins' s) = Store.findOne q s.
Proof.
  unfold Store.findOne, Store.findOneAndUpdate.
  destruct (Store.update_first q' upd' s) as [s'|] eqn:E.
  - revert s' E. induction s as [|d r IH]; simpl; intros s' E; [discriminate|].
    destruct (q' d) eqn:Hd.
    + injection E as <-. simpl. destruct (Hdisj Hd) as [-> ->]. reflexivity.
    + destruct (Store.update_first q' upd' r) as [r'|]; [|discriminate].
      injection E as <-. simpl. destruct (q d); [reflexivity|]. now apply IH.
  - clear E. induction s as [|d r IH]; simpl; [now rewrite Hins'|].
    destruct (q d); [reflexivity|assumption].
Qed.

Lemma settled_upsert_other s :
  settled q upd s -> settled q upd (Store.findOneAndUpdate q' upd' ins' s).
Proof.
  unfold settled, Store.findOneAndUpdate.
  destruct (Store.update_first q' upd' s) as [s'|] eqn:E.
  - revert s' E. induction s as [|d r IH]; simpl; intros s' E H; [discriminate|].
    destruct (q' d) eqn:Hd.
    + injection E as <-. simpl. destruct (Hdisj Hd) as [Hq ->].
      rewrite Hq in H.
      destruct (Store.update_first q upd r) as [r'|]; [|discriminate].
      injection H as ->. reflexivity.
    + destruct (Store.update_first q' upd' r) as [r'|] eqn:Er; [|discriminate].
      injection E as <-. simpl. destruct (q d) eqn:Hqd.
      * injection H as Hu. now rewrite Hu.
      * destruct (Store.update_first q upd r) as [r''|] eqn:Er'';
          [|discriminate].
        injection H as ->. now rewrite (IH r').
  - clear E. induction s as [|d r IH]; simpl; intros H; [discriminate|].
    destruct (q d) eqn:Hqd; [injection H as Hu; now rewrite Hu|].
    destruct (Store.update_first q upd r) as [r''|] eqn:Er''; [|discriminate].
    injection H as ->. now rewrite IH.
Qed.

End Find.

Lemma by_key_other ty dt cat cat' d :
  cat' <> cat -> Store.by_key ty dt cat' d = true ->
  Store.by_key ty dt cat d = false.
Proof.
  intros Hne H. apply by_key_true in H.
  destruct (Store.by_key ty dt cat d) eqn:E; [|reflexivity].
  apply by_key_true in E. congruence.
Qed.

Lemma by_key_make ty dt cat ts kws :
  Store.by_key ty dt cat (Trend.make ts ty dt cat kws) = true.
Proof. now apply by_key_true. Qed.

Lemma by_key_make_other ty dt cat cat' ts kws :
  cat' <> cat -> Store.by_key ty dt cat (Trend.make ts ty dt cat' kws) = false.
Proof.
  intros Hne. apply (@by_key_other ty dt cat cat'); auto. apply by_key_make.
Qed.

(** The upsert of [aggregateDaily] for one category. *)
Lemma find_put_daily now date cat cat' kws s :
  Store.findOne (Store.by_key daily date cat)
    (Store.findOneAndUpdate (Store.by_key daily date cat')
       (fun _ => Trend.make now daily date cat' kws)
       (Trend.make now daily date cat' kws) s)
  = if Category_eqb cat' cat
    then Some (Trend.make now daily date cat' kws)
    else Store.findOne (Store.by_key daily date cat) s.
Proof.
  destruct (Category_eqb_spec cat' cat) as [->|Hne].
  - rewrite find_upsert; [|intros; apply by_key_make|apply by_key_make].
    now destruct (Store.findOne _ s).
  - apply find_upsert_other.
    + intros d Hd. split; [now apply (@by_key_other daily date cat cat')|].
      now apply by_key_make_other.
    + now apply by_key_make_other.
Qed.

(** X8. When [aggregateDaily] for the category ['all'] resolves, the
    store holds, for each of the three categories, the daily document of
    the date with the ranking of the merged collectors and the time of the
    call; the daily document of the document identifiers holds the merged
    identifiers, each once, and is left as it was when there is none. *)
Theorem aggregateDaily_stored
    (cfg : Config.t) (now : JSDate.Date)
    (collectorsArray : list Aggregator.Collector) (date : string)
    (s s' : Store.t) :
  Aggregator.aggregateDaily cfg now collectorsArray date Aggregator.all s
  = (s', Ok true) ->
  let merged := Aggregator.merge collectorsArray in
  (forall cat, In cat [themes; persons; orgs] ->
     exists ranked,
       Aggregator.rankByCount (Aggregator.bag merged cat)
                              (Config.topN_or_50 cfg) = Ok ranked /\
       Store.findOne (Store.by_key daily date cat) s'
       = Some (Trend.make now daily date cat
                 (map Aggregator.keyword_of ranked))) /\
  Store.findOne (Store.by_key daily date documents) s'
  = match Aggregator.unique (Aggregator.c_documentIdentifiers merged) with
    | [] => Store.findOne (Store.by_key daily date documents) s
    | ids => Some (Trend.make now daily date documents
                     (map Aggregator.id_keyword ids))
    end.
Proof.
  intros H merged. revert H.
  unfold Aggregator.aggregateDaily, Aggregator.categoriesToProcess,
    Aggregator.upsert_ranked.
  fold merged. unfold bind, lift, write, ret.
  destruct (Aggregator.rankByCount (Aggregator.bag merged themes) _)
    as [r1|] eqn:E1; [|discriminate].
  destruct (Aggregator.rankByCount (Aggregator.bag merged persons) _)
    as [r2|] eqn:E2; [|discriminate].
  destruct (Aggregator.rankByCount (Aggregator.bag merged orgs) _)
    as [r3|] eqn:E3; [|discriminate].
  destruct (Aggregator.unique (Aggregator.c_documentIdentifiers merged))
    as [|id ids] eqn:Eids; simpl; intros [= <-].
  - split.
    + intros cat [<-|[<-|[<-|[]]]]; eexists; (split; [eassumption|]);
        rewrite !find_put_daily; reflexivity.
    + rewrite !find_put_daily. reflexivity.
  - split.
    + intros cat [<-|[<-|[<-|[]]]]; eexists; (split; [eassumption|]);
        rewrite !find_put_daily; reflexivity.
    + rewrite !find_put_daily. reflexivity.
Qed.

Lemma aggregateDaily_stored_witness :
  let out := Aggregator.aggregateDaily cfg0 5 [one_theme] "2024-05-01"
               Aggregator.all [] in
  out = (fst out, Ok true) /\
  Store.findOne (Store.by_key daily "2024-05-01" persons) (fst out)
  = Some (Trend.make 5 daily "2024-05-01" persons []).
Proof.
  intros out.
  assert (H : out = (fst out, Ok true)) by (vm_compute; reflexivity).
  split; [exact H|].
  destruct (proj1 (aggregateDaily_stored cfg0 5 [one_theme] "2024-05-01" [] H)
              persons) as (ranked & Hr & Hf); [simpl; tauto|].
  vm_compute in Hr. injection Hr as <-. exact Hf.
Defined.

Section SaveOneFind.
Variables (ty : TrendType) (isoDate : string) (timestamp : JSDate.Date).

Let q (cat : Category) := Store.by_key ty isoDate cat.
Let upd (kws : list Keyword.t) (d : Trend.t) :=
  Trend.make timestamp (Trend.type d) (Trend.date d) (Trend.category d) kws.
Let ins (cat : Category) (kws : list Keyword.t) :=
  Trend.make timestamp ty isoDate cat kws.

Lemma upd_match cat kws d : q cat d = true -> upd kws d = ins cat kws.
Proof.
  intros H. apply by_key_true in H. unfold key3 in H.
  injection H as H1 H2 H3. unfold upd, ins. congruence.
Qed.

Lemma save_one_eq cat k ks s :
  Fetcher.save_one ty isoDate timestamp (cat, Some (k :: ks)) s
  = (Store.findOneAndUpdate (q cat) (upd (k :: ks)) (ins cat (k :: ks)) s,
     Ok tt).
Proof. reflexivity. Qed.

Lemma save_one_find cat td s :
  Store.findOne (q cat) (fst (Fetcher.save_one ty isoDate timestamp td s))
  = match td with
    | (cat', Some (k :: ks)) =>
        if Category_eqb cat' cat then Some (ins cat (k :: ks))
        else Store.findOne (q cat) s
    | _ => Store.findOne (q cat) s
    end.
Proof.
  destruct td as [cat' [[|k ks]|]]; try reflexivity.
  rewrite save_one_eq. simpl fst.
  destruct (Category_eqb_spec cat' cat) as [->|Hne].
  - rewrite find_upsert.
    + destruct (Store.findOne (q cat) s) as [d|] eqn:F; [|reflexivity].
      apply find_some in F as [_ F]. now rewrite (@upd_match _ _ _ F).
    + intros d Hd. rewrite (@upd_match _ _ _ Hd). apply by_key_make.
    + apply by_key_make.
  - apply find_upsert_other.
    + intros d Hd. rewrite (@upd_match _ _ _ Hd). split.
      * now apply (@by_key_other ty isoDate cat cat').
      * now apply by_key_make_other.
    + now apply by_key_make_other.
Qed.

Lemma for_each_find_other cat tds s :
  ~ In cat (map fst tds) ->
  Store.findOne (q cat)
    (fst (Fetcher.for_each (Fetcher.save_one ty isoDate timestamp) tds s))
  = Store.findOne (q cat) s.
Proof.
  revert s. induction tds as [|td r IH]; intros s Hnin; [reflexivity|].
  simpl in Hnin. simpl. unfold bind.
  pose proof (save_one_ok ty isoDate timestamp td s) as Hok.
  destruct (Fetcher.save_one ty isoDate timestamp td s) as [s1 res] eqn:E.
  simpl in Hok. subst res.
  rewrite IH by tauto.
  change s1 with (fst (s1, @Ok unit tt)). rewrite <- E, save_one_find.
  destruct td as [cat' [[|k ks]|]]; try reflexivity.
  destruct (Category_eqb_spec cat' cat) as [->|]; [|reflexivity].
  simpl in Hnin. tauto.
Qed.

Lemma for_each_find cat kws tds s :
  NoDup (map fst tds) -> In (cat, Some kws) tds -> kws <> [] ->
  Store.findOne (q cat)
    (fst (Fetcher.for_each (Fetcher.save_one ty isoDate timestamp) tds s))
  = Some (ins cat kws).
Proof.
  revert s. induction tds as [|td r IH]; intros s Hnd Hin Hne; [destruct Hin|].
  simpl in Hnd. inversion Hnd as [|? ? Hnin Hnd']; subst.
  simpl. unfold bind.
  pose proof (save_one_ok ty isoDate timestamp td s) as Hok.
  destruct (Fetcher.save_one ty isoDate timestamp td s) as [s1 res] eqn:E.
  simpl in Hok. subst res.
  destruct Hin as [->|Hin].
  - rewrite for_each_find_other by assumption.
    change s1 with (fst (s1, @Ok unit tt)). rewrite <- E, save_one_find.
    destruct kws as [|k ks]; [congruence|].
    destruct (Category_eqb_spec cat cat); congruence.
  - now apply IH.
Qed.

Lemma for_each_find_skipped cat tds s :
  (forall kws, In (cat, Some kws) tds -> kws = []) ->
  Store.findOne (q cat)
    (fst (Fetcher.for_each (Fetcher.save_one ty isoDate timestamp) tds s))
  = Store.findOne (q cat) s.
Proof.
  revert s. induction tds as [|td r IH]; intros s H; [reflexivity|].
  simpl. unfold bind.
  pose proof (save_one_ok ty isoDate timestamp td s) as Hok.
  destruct (Fetcher.save_one ty isoDate timestamp td s) as [s1 res] eqn:E.
  simpl in Hok. subst res.
  rewrite IH by (intros kws Hk; apply H; now right).
  change s1 with (fst (s1, @Ok unit tt)). rewrite <- E, save_one_find.
  destruct td as [cat' [[|k ks]|]]; try reflexivity.
  destruct (Category_eqb_spec cat' cat) as [->|]; [|reflexivity].
  specialize (H (k :: ks) (or_introl eq_refl)). discriminate.
Qed.

Lemma at_rest_after td s :
  at_rest ty isoDate timestamp td (fst (Fetcher.save_one ty isoDate timestamp td s)).
Proof.
  unfold at_rest. destruct td as [cat [[|k ks]|]]; try reflexivity.
  rewrite !save_one_eq. simpl fst. f_equal. apply settled_id.
  apply settled_upsert.
  - intros d Hd. rewrite (@upd_match _ _ _ Hd). split; [apply by_key_make|].
    reflexivity.
  - apply by_key_make.
  - reflexivity.
Qed.

Lemma at_rest_other td td' s :
  fst td <> fst td' -> at_rest ty isoDate timestamp td s ->
  at_rest ty isoDate timestamp td (fst (Fetcher.save_one ty isoDate timestamp td' s)).
Proof.
  unfold at_rest. destruct td as [cat [[|k ks]|]]; try reflexivity.
  destruct td' as [cat' [[|k' ks']|]]; try (intros _ H; exact H).
  cbn [fst]. intros Hne. rewrite !save_one_eq. cbn [fst]. intros H.
  f_equal. apply settled_id. apply settled_upsert_other.
  - intros d Hd. rewrite (@upd_match _ _ _ Hd). split.
    + now apply (@by_key_other ty isoDate cat cat'); auto.
    + apply by_key_make_other. auto.
  - injection H as H. unfold settled, Store.findOneAndUpdate in *.
    destruct (Store.update_first (q cat) (upd (k :: ks)) s) as [s0|] eqn:E.
    + now subst s0.
    + exfalso. apply (f_equal (@List.length _)) in H.
      rewrite length_app in H. simpl in H. lia.
Qed.

Lemma for_each_at_rest td tds s :
  NoDup (map fst tds) -> In td tds ->
  at_rest ty isoDate timestamp td
    (fst (Fetcher.for_each (Fetcher.save_one ty isoDate timestamp) tds s)).
Proof.
  revert s. induction tds as [|td0 r IH]; intros s Hnd Hin; [destruct Hin|].
  simpl in Hnd. inversion Hnd as [|? ? Hnin Hnd']; subst.
  simpl. unfold bind.
  pose proof (save_one_ok ty isoDate timestamp td0 s) as Hok.
  pose proof (at_rest_after td0 s) as Hrest.
  destruct (Fetcher.save_one ty isoDate timestamp td0 s) as [s1 res] eqn:E.
  simpl in Hok, Hrest. subst res.
  destruct Hin as [->|Hin]; [|now apply IH].
  clear IH E Hnd. revert s1 Hrest.
  induction r as [|td1 r IH]; intros s1 Hrest; [exact Hrest|].
  simpl. unfold bind.
  pose proof (save_one_ok ty isoDate timestamp td1 s1) as Hok.
  pose proof (@at_rest_other td td1 s1) as Hother.
  destruct (Fetcher.save_one ty isoDate timestamp td1 s1) as [s2 res] eqn:E.
  simpl in Hok, Hother. subst res.
  simpl in Hnin. inversion Hnd'; subst. apply IH; [tauto|assumption|].
  apply Hother; [|assumption]. intros E'. apply Hnin. now left.
Qed.

Lemma for_each_all_at_rest tds s :
  (forall td, In td tds -> at_rest ty isoDate timestamp td s) ->
  Fetcher.for_each (Fetcher.save_one ty isoDate timestamp) tds s = (s, Ok tt).
Proof.
  induction tds as [|td r IH]; intros H; [reflexivity|].
  simpl. unfold bind. rewrite (H td) by now left.
  apply IH. intros td' Htd'. apply H. now right.
Qed.

End SaveOneFind.

Lemma trends_of_NoDup a : NoDup (map fst (Fetcher.trends_of a)).
Proof.
  unfold Fetcher.trends_of.
  destruct (0 <? Z.of_nat (List.length (Fetcher.documentIdentifiers a)));
    simpl; repeat constructor; simpl; intuition discriminate.
Qed.

(** X9. [saveTrends] with a valid date does not fail, and every category
    that it is given with a non-empty keyword list is then found in the
    store under the type of the job, the day of the date and the category,
    with these keywords and the timestamp of the call. *)
Theorem saveTrends_stored
    (a : Fetcher.SaveArgs) (t : JSDate.Date) (cat : Category)
    (kws : list Keyword.t) (s : Store.t) :
  Fetcher.new_Date (Fetcher.date a) = Some t ->
  In (cat, Some kws) (Fetcher.trends_of a) -> kws <> [] ->
  let ty := Fetcher.type_of (Fetcher.jobType a) in
  snd (Fetcher.saveTrends a s) = Ok tt /\
  Store.findOne (Store.by_key ty (JSDate.isoDate t) cat)
                (fst (Fetcher.saveTrends a s))
  = Some (Trend.make (Fetcher.timestamp a) ty (JSDate.isoDate t) cat kws).
Proof.
  intros Ht Hin Hne ty. rewrite saveTrends_eq, Ht.
  cbn [Fetcher.toISOString_date]. split.
  - apply for_each_save_ok.
  - apply for_each_find; auto. apply trends_of_NoDup.
Qed.

Lemma saveTrends_stored_witness :
  let a := Fetcher.mkSaveArgs (Fetcher.DateObj 0) 7 (Some daily)
             (Some [Ranker.mkEntry "tax" 2]) (Some []) None ["doc1"] in
  Fetcher.new_Date (Fetcher.date a) = Some 0 /\
  Store.findOne (Store.by_key daily "1970-01-01" themes)
                (fst (Fetcher.saveTrends a []))
  = Some (Trend.make 7 daily "1970-01-01" themes
            [Keyword.make "tax" 2 None None]).
Proof.
  intros a. split; [reflexivity|].
  apply (@saveTrends_stored a 0 themes [Keyword.make "tax" 2 None None] []).
  - reflexivity.
  - simpl. left. reflexivity.
  - discriminate.
Defined.

(** X10. [saveTrends] is idempotent: the same call on the store that it
    left changes nothing and has the same outcome. *)
Theorem saveTrends_idempotent (a : Fetcher.SaveArgs) (s : Store.t) :
  let once := Fetcher.saveTrends a s in
  Fetcher.saveTrends a (fst once) = (fst once, snd once).
Proof.
  intros once. subst once. rewrite !saveTrends_eq.
  destruct (Fetcher.toISOString_date (Fetcher.new_Date (Fetcher.date a)))
    as [isoDate|e]; [|reflexivity].
  rewrite for_each_save_ok. apply for_each_all_at_rest.
  intros td Htd. apply for_each_at_rest; auto. apply trends_of_NoDup.
Qed.

(* ================================================================== *)
(** ** The fallback ladder *)

(** What a daily attempt leaves in the store for its day: for each
    category, the document with the keywords of the file, or what was
    there when the file has none. *)
Lemma daily_args_find cfg d c s cat :
  let dailyDate :=
    JSDate.UTC (JSDate.getUTCFullYear d) (JSDate.getUTCMonth d)
               (JSDate.getUTCDate d) in
  let q := Store.by_key daily (JSDate.isoDate dailyDate) cat in
  Store.findOne q (fst (Fetcher.saveTrends (daily_args cfg d c) s))
  = match fetched_keywords cfg c cat with
    | [] => Store.findOne q s
    | kws => Some (Trend.make dailyDate daily (JSDate.isoDate dailyDate)
                     cat kws)
    end.
Proof.
  intros dailyDate q. rewrite saveTrends_eq.
  change (Fetcher.toISOString_date
            (Fetcher.new_Date (Fetcher.date (daily_args cfg d c))))
    with (@Ok string (JSDate.isoDate dailyDate)).
  change (Fetcher.type_of (Fetcher.jobType (daily_args cfg d c))) with daily.
  change (Fetcher.timestamp (daily_args cfg d c)) with dailyDate.
  assert (Hin : forall kws,
            In (cat, Some kws) (Fetcher.trends_of (daily_args cfg d c)) ->
            kws = fetched_keywords cfg c cat).
  { intros kws. unfold Fetcher.trends_of, daily_args, fetched_keywords.
    cbn [Fetcher.s_themes Fetcher.s_persons Fetcher.s_orgs
         Fetcher.documentIdentifiers option_map].
    destruct (0 <? Z.of_nat (List.length (Fetcher.c_documentIdentifiers c)));
      cbn [app In]; destruct cat;
      intuition (try discriminate; congruence). }
  destruct (fetched_keywords cfg c cat) as [|k ks] eqn:E.
  - apply for_each_find_skipped. exact Hin.
  - apply for_each_find; [apply trends_of_NoDup | | discriminate].
    rewrite <- E. clear Hin.
    unfold Fetcher.trends_of, daily_args, fetched_keywords in *.
    cbn [Fetcher.s_themes Fetcher.s_persons Fetcher.s_orgs
         Fetcher.documentIdentifiers option_map].
    destruct cat; cbn [app In]; auto.
    destruct (Fetcher.c_documentIdentifiers c) as [|i r]; [discriminate|].
    cbn. auto 6.
Qed.

(** C4.  When the 15-minute file cannot be fetched, the daily file of
    the day of [date] is tried, then the one of the day before.  The
    first that is fetched is saved with [jobType = daily] under its own
    day, and the call returns [true]: the store then holds, for each
    category in which the file has keywords, the daily document of that
    day with these keywords, dated and stamped with the midnight of the
    day, and what it held before for the other categories.  When both
    fail the call returns [false] and the store is as it was.  The call
    never throws; it writes no realtime document; and every document it
    writes is a daily one dated to the day that was fetched. *)
Theorem fetchAndProcess_fallback_ladder
    (cfg : Config.t) (W : Fetcher.World) (date : JSDate.Date)
    (options : Fetcher.Options) (s : Store.t) :
  W (Fetcher.fifteenUrl cfg date) = None ->
  let today := Fetcher.day_before date 0 in
  let yesterday := Fetcher.day_before date 1 in
  let out := Fetcher.fetchAndProcess cfg W date options s in
  out =
    match W (Fetcher.dailyUrl cfg today) with
    | Some c =>
        (fst (Fetcher.saveTrends (daily_args cfg today c) s), Ok true)
    | None =>
        match W (Fetcher.dailyUrl cfg yesterday) with
        | Some c =>
            (fst (Fetcher.saveTrends (daily_args cfg yesterday c) s), Ok true)
        | None => (s, Ok false)
        end
    end /\
  (exists returned, snd out = Ok returned) /\
  filter (has_type realtime) (fst out) = filter (has_type realtime) s /\
  (forall d, In d (fst out) ->
     In d s \/
     (Trend.type d = daily /\
      exists day, (day = today \/ day = yesterday) /\
        W (Fetcher.dailyUrl cfg day) <> None /\
        Trend.date d
        = JSDate.isoDate
            (JSDate.UTC (JSDate.getUTCFullYear day) (JSDate.getUTCMonth day)
                        (JSDate.getUTCDate day)))) /\
  (forall day c,
     (day = today /\ W (Fetcher.dailyUrl cfg today) = Some c) \/
     (day = yesterday /\ W (Fetcher.dailyUrl cfg today) = None /\
      W (Fetcher.dailyUrl cfg yesterday) = Some c) ->
     let dailyDate :=
       JSDate.UTC (JSDate.getUTCFullYear day) (JSDate.getUTCMonth day)
                  (JSDate.getUTCDate day) in
     snd out = Ok true /\
     forall cat,
       Store.findOne (Store.by_key daily (JSDate.isoDate dailyDate) cat)
                     (fst out)
       = match fetched_keywords cfg c cat with
         | [] => Store.findOne
                   (Store.by_key daily (JSDate.isoDate dailyDate) cat) s
         | kws => Some (Trend.make dailyDate daily (JSDate.isoDate dailyDate)
                          cat kws)
         end) /\
  (W (Fetcher.dailyUrl cfg today) = None ->
   W (Fetcher.dailyUrl cfg yesterday) = None ->
   out = (s, Ok false)).
Proof.
  intros _ today yesterday out. subst out.
  rewrite fetchAndProcess_is_fallback, fallback_eq.
  fold today yesterday. split; [reflexivity|].
  destruct (W (Fetcher.dailyUrl cfg today)) as [c|] eqn:E0;
    [|destruct (W (Fetcher.dailyUrl cfg yesterday)) as [c|] eqn:E1].
  - split; [exists true; reflexivity|].
    split; [apply saveTrends_keeps_other_types; discriminate|].
    split; [|split; [|discriminate]].
    + intros d Hd. simpl in Hd.
      eapply saveTrends_written in Hd as [Hd | [Hty Hdt]];
        [auto | | reflexivity].
      right. split; [exact Hty|]. exists today. rewrite E0.
      split; [left; reflexivity|]. split; [discriminate | exact Hdt].
    + intros day c' [[-> [= <-]] | [_ [H _]]]; [|discriminate].
      intros dailyDate. split; [reflexivity|]. intros cat.
      apply daily_args_find.
  - split; [exists true; reflexivity|].
    split; [apply saveTrends_keeps_other_types; discriminate|].
    split; [|split; [|discriminate]].
    + intros d Hd. simpl in Hd.
      eapply saveTrends_written in Hd as [Hd | [Hty Hdt]];
        [auto | | reflexivity].
      right. split; [exact Hty|]. exists yesterday. rewrite E1.
      split; [right; reflexivity|]. split; [discriminate | exact Hdt].
    + intros day c' [[_ H] | [-> [_ [= <-]]]]; [discriminate|].
      intros dailyDate. split; [reflexivity|]. intros cat.
      apply daily_args_find.
  - split; [exists false; reflexivity|]. split; [reflexivity|].
    split; [auto|]. split; [|reflexivity].
    intros day c' [[_ H] | [_ [_ H]]]; discriminate.
Qed.

Lemma fetchAndProcess_fallback_ladder_witness :
  let out := Fetcher.fetchAndProcess cfg0 world_S6 may1 opts_default [] in
  world_S6 (Fetcher.fifteenUrl cfg0 may1) = None /\
  snd out = Ok true /\
  Store.findOne (Store.by_key daily "2024-04-30" themes) (fst out)
  = Some (Trend.make 1714435200000 daily "2024-04-30" themes
            [Keyword.make "tax" 2 None None;
             Keyword.make "covid-19" 1 None None]) /\
  filter (has_type realtime) (fst out) = [].
Proof.
  intros out.
  assert (H : world_S6 (Fetcher.fifteenUrl cfg0 may1) = None)
    by (vm_compute; reflexivity).
  split; [exact H|].
  pose proof (@fetchAndProcess_fallback_ladder cfg0 world_S6 may1
                opts_default [] H) as L.
  cbv zeta in L. destruct L as (_ & _ & Hreal & _ & Hfind & _).
  assert (Hy : (Fetcher.day_before may1 1 = Fetcher.day_before may1 0 /\
                world_S6 (Fetcher.dailyUrl cfg0 (Fetcher.day_before may1 0))
                = Some sample) \/
               (Fetcher.day_before may1 1 = Fetcher.day_before may1 1 /\
                world_S6 (Fetcher.dailyUrl cfg0 (Fetcher.day_before may1 0))
                = None /\
                world_S6 (Fetcher.dailyUrl cfg0 (Fetcher.day_before may1 1))
                = Some sample))
    by (right; vm_compute; repeat split; reflexivity).
  destruct (Hfind _ _ Hy) as [Hok Hdocs].
  split; [exact Hok|]. split; [|exact Hreal].
  specialize (Hdocs themes). vm_compute in Hdocs |- *. exact Hdocs.
Defined.

(* ================================================================== *)
(** ** Days and file names *)

Lemma civil_from_days_inv z :
  let '(y, m, d) := JSDate.civil_from_days z in
  JSDate.days_from_civil y m d = z /\ 1 <= m <= 12 /\ 1 <= d <= 31.
Proof.
  unfold JSDate.civil_from_days, JSDate.days_from_civil.
  set (z' := z + 719468).
  set (era := z' / 146097).
  set (doe := z' - era * 146097).
  set (yoe := (doe - doe / 1460 + doe / 36524 - doe / 146096) / 365).
  set (doy := doe - (365 * yoe + yoe / 4 - yoe / 100)).
  set (mp := (5 * doy + 2) / 153).
  assert (Hdoe : 0 <= doe < 146097).
  { subst doe era. pose proof (Z.mod_pos_bound z' 146097 ltac:(lia)) as H.
    rewrite Z.mod_eq in H by lia. lia. }
  assert (Hy : 0 <= yoe <= 399 /\ 0 <= doy <= 365).
  { subst doy yoe. clearbody doe. clear -Hdoe.
    Z.to_euclidean_division_equations. lia. }
  destruct Hy as [Hyoe Hdoy].
  assert (Hmp : 0 <= mp <= 11).
  { subst mp. clearbody doy. clear -Hdoy.
    Z.to_euclidean_division_equations. lia. }
  assert (Hd : 1 <= doy - (153 * mp + 2) / 5 + 1 <= 31).
  { subst mp. clearbody doy. clear -Hdoy.
    Z.to_euclidean_division_equations. lia. }
  set (m := if mp <? 10 then mp + 3 else mp - 9).
  assert (Hm : 1 <= m <= 12 /\ (if 2 <? m then m - 3 else m + 9) = mp).
  { subst m. destruct (mp <? 10) eqn:E.
    - apply Z.ltb_lt in E. destruct (2 <? mp + 3) eqn:E2; lia.
    - apply Z.ltb_ge in E. destruct (2 <? mp - 9) eqn:E2; lia. }
  destruct Hm as [Hm Hmp'].
  split; [|split; assumption].
  rewrite Hmp'.
  set (y := if m <=? 2 then yoe + era * 400 + 1 else yoe + era * 400).
  assert (Hy : (if m <=? 2 then y - 1 else y) = yoe + era * 400).
  { subst y. destruct (m <=? 2); lia. }
  rewrite Hy.
  assert (Hera : (yoe + era * 400) / 400 = era).
  { rewrite Z.div_add by lia. rewrite Z.div_small by lia. lia. }
  rewrite Hera.
  replace (yoe + era * 400 - era * 400) with yoe by lia.
  clear -z. clearbody mp yoe. subst doy doe. clearbody era. subst z'. lia.
Qed.

Lemma days_from_civil_day y m d :
  JSDate.days_from_civil y m d = JSDate.days_from_civil y m 1 + (d - 1).
Proof. unfold JSDate.days_from_civil. lia. Qed.

(** [Date.UTC] on the fields of a date, its day of the month moved back by
    [k] days, is the midnight [k] days before the day of the date. *)
Lemma UTC_fields t k :
  ~ (0 <= JSDate.getUTCFullYear t <= 99) ->
  JSDate.UTC (JSDate.getUTCFullYear t) (JSDate.getUTCMonth t)
             (JSDate.getUTCDate t - k)
  = (JSDate.Day t - k) * JSDate.msPerDay.
Proof.
  unfold JSDate.UTC, JSDate.getUTCFullYear, JSDate.getUTCMonth,
    JSDate.getUTCDate.
  pose proof (civil_from_days_inv (JSDate.Day t)) as H.
  destruct (JSDate.civil_from_days (JSDate.Day t)) as [[y m] d].
  destruct H as (H & _ & _). intros Hy.
  assert (E : (0 <=? y) && (y <=? 99) = false).
  { destruct (Z.leb_spec 0 y), (Z.leb_spec y 99); simpl; auto. lia. }
  rewrite E. replace (m - 1 + 1) with m by lia.
  rewrite (days_from_civil_day y m d) in H. f_equal. lia.
Qed.

Lemma year_lower_bound z :
  0 <= z -> let '(y, _, _) := JSDate.civil_from_days z in 1600 <= y.
Proof.
  intros Hz. unfold JSDate.civil_from_days.
  set (z' := z + 719468).
  set (era := z' / 146097).
  set (doe := z' - era * 146097).
  set (yoe := (doe - doe / 1460 + doe / 36524 - doe / 146096) / 365).
  set (doy := doe - (365 * yoe + yoe / 4 - yoe / 100)).
  set (mp := (5 * doy + 2) / 153).
  set (m := if mp <? 10 then mp + 3 else mp - 9).
  assert (Hdoe : 0 <= doe < 146097).
  { subst doe era. pose proof (Z.mod_pos_bound z' 146097 ltac:(lia)) as H.
    rewrite Z.mod_eq in H by lia. lia. }
  assert (Hyoe : 0 <= yoe).
  { subst yoe. clearbody doe. clear -Hdoe.
    Z.to_euclidean_division_equations. lia. }
  assert (Hera : 4 <= era).
  { subst era z'. clear -Hz. Z.to_euclidean_division_equations. lia. }
  destruct (m <=? 2); lia.
Qed.

Lemma year_not_two_digits t :
  0 <= t -> ~ (0 <= JSDate.getUTCFullYear t <= 99).
Proof.
  intros Ht. unfold JSDate.getUTCFullYear.
  assert (Hd : 0 <= JSDate.Day t).
  { unfold JSDate.Day, JSDate.msPerDay. apply Z.div_pos; lia. }
  pose proof (year_lower_bound Hd) as H.
  destruct (JSDate.civil_from_days (JSDate.Day t)) as [[y m] d]. lia.
Qed.

Lemma quarter_hour_fields t1 t2 :
  t1 / 900000 = t2 / 900000 ->
  JSDate.Day t1 = JSDate.Day t2 /\
  JSDate.getUTCHours t1 = JSDate.getUTCHours t2 /\
  JSDate.getUTCMinutes t1 / 15 * 15 = JSDate.getUTCMinutes t2 / 15 * 15.
Proof.
  unfold JSDate.getUTCHours, JSDate.getUTCMinutes, JSDate.TimeWithinDay,
    JSDate.Day, JSDate.msPerDay.
  intros H. Z.to_euclidean_division_equations. lia.
Qed.

Lemma Day_midnight t : JSDate.Day (midnight t) = JSDate.Day t.
Proof.
  unfold midnight, JSDate.Day, JSDate.msPerDay. now rewrite Z.div_mul by lia.
Qed.



Lemma same_day_fields t t' :
  JSDate.Day t = JSDate.Day t' ->
  JSDate.getUTCFullYear t = JSDate.getUTCFullYear t' /\
  JSDate.getUTCMonth t = JSDate.getUTCMonth t' /\
  JSDate.getUTCDate t = JSDate.getUTCDate t' /\
  JSDate.isoDate t = JSDate.isoDate t'.
Proof.
  unfold JSDate.getUTCFullYear, JSDate.getUTCMonth, JSDate.getUTCDate,
    JSDate.isoDate. now intros ->.
Qed.




(** X11. The file names only depend on the quarter of an hour: two
    instants of the same 15-minute slot have the same 15-minute file name,
    and the same daily file name. *)
Theorem getFilenameForUTC_quarter_hour (t1 t2 : JSDate.Date) :
  t1 / 900000 = t2 / 900000 ->
  Fetcher.getFilenameForUTC t1 = Fetcher.getFilenameForUTC t2 /\
  Fetcher.getDailyFilenameForUTC t1 = Fetcher.getDailyFilenameForUTC t2.
Proof.
  intros H. destruct (quarter_hour_fields _ _ H) as (Hd & Hh & Hm).
  destruct (same_day_fields _ _ Hd) as (Hy & Hmo & Hda & _).
  unfold Fetcher.getFilenameForUTC, Fetcher.getDailyFilenameForUTC.
  now rewrite Hy, Hmo, Hda, Hh, Hm.
Qed.

Lemma getFilenameForUTC_quarter_hour_witness :
  1714551737000 / 900000 = 1714551300000 / 900000 /\
  Fetcher.getFilenameForUTC 1714551737000 = "20240501081500.gkg.csv.zip".
Proof.
  split; [reflexivity|].
  rewrite (proj1 (@getFilenameForUTC_quarter_hour
                    1714551737000 1714551300000 eq_refl)).
  vm_compute. reflexivity.
Defined.



Lemma digit_value_le c :
  is_digit c = true -> (JSObject.digit_value c <= 9)%N.
Proof. destruct c as [[] [] [] [] [] [] [] []]; vm_compute; congruence. Qed.

Lemma decimal_step a dv P X :
  0 <= a -> 0 <= dv <= 9 -> 0 < P ->
  X < (10 * a + dv + 1) * P -> X < (a + 1) * (P * 10).
Proof.
  intros Ha Hdv HP HX.
  assert (H : (10 * a + dv + 1) * P <= (a + 1) * (P * 10)) by nia. lia.
Qed.

Lemma digits_value_range (l : list ascii) v :
  JSDate.digits_value l = Some v ->
  0 <= v < 10 ^ Z.of_nat (List.length l).
Proof.
  unfold JSDate.digits_value.
  destruct (forallb is_digit l) eqn:E; [|discriminate].
  intros [= <-]. apply forallb_Forall in E.
  unfold JSObject.decimal_value.
  assert (H : forall n : N,
            Z.of_N (fold_left (fun n c => (10 * n + JSObject.digit_value c)%N)
                              l n)
            < (Z.of_N n + 1) * 10 ^ Z.of_nat (List.length l)).
  { induction E as [|c r Hc Hr IH]; intros n; simpl fold_left.
    - simpl. lia.
    - specialize (IH (10 * n + JSObject.digit_value c)%N).
      apply digit_value_le in Hc.
      replace (Z.of_nat (List.length (c :: r)))
        with (Z.of_nat (List.length r) + 1) by (simpl List.length; lia).
      rewrite Z.pow_add_r by lia. change (10 ^ 1) with 10.
      assert (Hp : 0 < 10 ^ Z.of_nat (List.length r))
        by (apply Z.pow_pos_nonneg; lia).
      apply (@decimal_step (Z.of_N n) (Z.of_N (JSObject.digit_value c)));
        try lia.
      replace (10 * Z.of_N n + Z.of_N (JSObject.digit_value c))
        with (Z.of_N (10 * n + JSObject.digit_value c)) by lia.
      exact IH. }
  specialize (H 0%N). lia.
Qed.

(** The days that [YYYY-MM-DD] can write lie well within the range of
    time values. *)
Lemma parse_day_range s day :
  JSDate.parse_day s = Some day -> -1000000 <= day <= 3000000.
Proof.
  unfold JSDate.parse_day.
  destruct (chars s)
    as [|y1 [|y2 [|y3 [|y4 [|c1 [|m1 [|m2 [|c2 [|d1 [|d2 [|]]]]]]]]]]];
    try discriminate;
    try (destruct c1 as [[] [] [] [] [] [] [] []]; try discriminate);
    try (destruct c2 as [[] [] [] [] [] [] [] []]; try discriminate).
  destruct (JSDate.digits_value [y1; y2; y3; y4]) as [y|] eqn:Ey;
    [|discriminate].
  destruct (JSDate.digits_value [m1; m2]) as [m|] eqn:Em; [|discriminate].
  destruct (JSDate.digits_value [d1; d2]) as [d|] eqn:Ed; [|discriminate].
  destruct ((1 <=? m) && (m <=? 12) && (1 <=? d) && (d <=? 31)) eqn:E;
    [|discriminate].
  intros [= <-].
  apply andb_true_iff in E as [E Hd2]. apply andb_true_iff in E as [E Hd1].
  apply andb_true_iff in E as [Hm1 Hm2].
  apply Z.leb_le in Hm1, Hm2, Hd1, Hd2.
  apply digits_value_range in Ey. simpl in Ey.
  unfold JSDate.days_from_civil.
  destruct (m <=? 2); destruct (2 <? m);
    Z.to_euclidean_division_equations; lia.
Qed.

Lemma isoDay_eq d : 0 <= d -> ScoreTrends.isoDay d = JSDate.isoDate d.
Proof.
  intros H. unfold ScoreTrends.isoDay.
  pose proof (@UTC_fields d 0) as U. rewrite !Z.sub_0_r in U. rewrite U.
  - apply same_day_fields. apply (Day_midnight d).
  - now apply year_not_two_digits.
Qed.

(** X13. For a date [YYYY-MM-DD] and a window that does not reach before
    1970, [generateWindowDates] yields the [windowDays] days that precede
    the date, oldest first, the date itself excluded. *)
Theorem generateWindowDates_days
    (dateStr : string) (windowDays day : Z) :
  JSDate.parse_day dateStr = Some day -> windowDays <= day ->
  ScoreTrends.generateWindowDates dateStr windowDays
  = map (fun i => JSDate.isoDate
                    ((day - windowDays + Z.of_nat i) * JSDate.msPerDay))
        (seq 0 (Z.to_nat windowDays)).
Proof.
  intros Hp Hw. unfold ScoreTrends.generateWindowDates, ScoreTrends.toDate.
  rewrite Hp.
  destruct (Z.le_gt_cases windowDays 0) as [Hle | Hgt].
  { replace (Z.to_nat windowDays) with 0%nat by lia.
    now destruct (ScoreTrends.addUTCDays _ _). }
  pose proof (parse_day_range _ Hp) as Hr.
  assert (E : ScoreTrends.addUTCDays (day * JSDate.msPerDay + 43200000)
                (- windowDays)
              = Some (day * JSDate.msPerDay + 43200000
                      - windowDays * JSDate.msPerDay)).
  { unfold ScoreTrends.addUTCDays, JSDate.TimeClip, JSDate.maxTime,
      JSDate.msPerDay.
    match goal with |- (if ?c then _ else _) = _ => destruct c eqn:Ec end;
      [f_equal; lia | apply Z.leb_gt in Ec; lia]. }
  rewrite E. apply map_ext_in. intros i Hi. apply in_seq in Hi.
  assert (Hn : 0 <= (day - windowDays + Z.of_nat i) * JSDate.msPerDay)
    by (unfold JSDate.msPerDay; lia).
  rewrite isoDay_eq by (unfold JSDate.msPerDay in *; lia).
  apply same_day_fields. unfold JSDate.Day, JSDate.msPerDay.
  rewrite Z.div_mul by lia.
  replace (day * 86400000 + 43200000 - windowDays * 86400000
           + Z.of_nat i * 86400000)
    with (43200000 + (day - windowDays + Z.of_nat i) * 86400000) by lia.
  rewrite Z.div_add by lia. reflexivity.
Qed.

Lemma generateWindowDates_days_witness :
  JSDate.parse_day "2024-03-02" = Some 19784 /\ 3 <= 19784 /\
  ScoreTrends.generateWindowDates "2024-03-02" 3
  = ["2024-02-28"; "2024-02-29"; "2024-03-01"].
Proof.
  assert (H1 : JSDate.parse_day "2024-03-02" = Some 19784)
    by (vm_compute; reflexivity).
  assert (H2 : 3 <= 19784) by lia.
  split; [exact H1|]. split; [exact H2|].
  rewrite (@generateWindowDates_days "2024-03-02" 3 19784 H1 H2).
  vm_compute. reflexivity.
Defined.

(* ================================================================== *)
(** ** Further properties of the scorer *)

Lemma map_get_set_same m k v : JSMap.get (JSMap.set m k v) k = Some v.
Proof.
  induction m as [|[k' v'] r IH]; simpl.
  - now rewrite String.eqb_refl.
  - destruct (String.eqb k k') eqn:E; simpl; rewrite E; auto.
Qed.

Lemma map_get_set_other m k k' v :
  k' <> k -> JSMap.get (JSMap.set m k v) k' = JSMap.get m k'.
Proof.
  intros Hne. induction m as [|[k0 v0] r IH]; simpl.
  - destruct (String.eqb_spec k' k); congruence.
  - destruct (String.eqb_spec k k0); simpl.
    + subst k0. destruct (String.eqb_spec k' k); congruence.
    + now rewrite IH.
Qed.

Lemma merge_keywords w ks m :
  JSMap.get
    (fold_left
       (fun map k =>
          if Scorer.has_word k
          then JSMap.set map (Keyword.word k)
                 (or_default (JSMap.get map (Keyword.word k)) 0
                  + or_default (Some (Keyword.count k)) 0)
          else map) ks m) w
  = merged_value (JSMap.get m w)
      (filter (fun k => Scorer.has_word k && String.eqb (Keyword.word k) w) ks).
Proof.
  revert m. induction ks as [|k r IH]; intros m; [reflexivity|].
  cbn [fold_left]. rewrite IH. cbn [filter].
  destruct (Scorer.has_word k) eqn:Hk; cbn [andb]; [|reflexivity].
  rewrite or_default_0.
  destruct (String.eqb_spec (Keyword.word k) w) as [E|E].
  - subst w. rewrite map_get_set_same. unfold merged_value.
    destruct (filter _ r) as [|k' r'].
    + f_equal. unfold total. simpl. lia.
    + f_equal. rewrite or_default_0. unfold total. simpl. lia.
  - rewrite map_get_set_other by congruence. reflexivity.
Qed.

Lemma merged_value_app acc ks ks' :
  merged_value (merged_value acc ks) ks' = merged_value acc (ks ++ ks').
Proof.
  destruct ks as [|k r]; [reflexivity|].
  destruct ks' as [|k' r']; [now rewrite app_nil_r|].
  unfold merged_value. cbn [app]. f_equal. rewrite or_default_0.
  change (k :: r ++ k' :: r') with ((k :: r) ++ k' :: r').
  rewrite total_app. lia.
Qed.

Lemma merge_docs w docs m :
  JSMap.get
    (fold_left
       (fun map keywords =>
          fold_left
            (fun map k =>
               if Scorer.has_word k
               then JSMap.set map (Keyword.word k)
                      (or_default (JSMap.get map (Keyword.word k)) 0
                       + or_default (Some (Keyword.count k)) 0)
               else map) keywords map) docs m) w
  = merged_value (JSMap.get m w) (keywords_of w docs).
Proof.
  unfold keywords_of. revert m.
  induction docs as [|ks r IH]; intros m; [reflexivity|].
  cbn [fold_left]. rewrite IH, merge_keywords. cbn [List.concat].
  now rewrite filter_app, merged_value_app.
Qed.

(** X14. [mergeCounts] maps a word to the sum of the counts of the
    keywords that carry it in the documents, and has no entry for a word
    that no keyword carries. *)
Theorem mergeCounts_totals (docs : list (list Keyword.t)) (w : string) :
  JSMap.get (Scorer.mergeCounts docs) w
  = match keywords_of w docs with
    | [] => None
    | ks => Some (total Keyword.count ks)
    end.
Proof.
  unfold Scorer.mergeCounts. rewrite merge_docs. simpl JSMap.get.
  destruct (keywords_of w docs); reflexivity.
Qed.

Lemma slice0_length_eq (A : Type) (l : list A) e :
  List.length (JSArray.slice0 l e)
  = Z.to_nat (if e <? 0 then Z.max (Z.of_nat (List.length l) + e) 0
              else Z.min e (Z.of_nat (List.length l))).
Proof.
  unfold JSArray.slice0. rewrite length_firstn.
  destruct (e <? 0) eqn:E; lia.
Qed.

Lemma slice0_length_le (A B : Type) (l : list A) (l' : list B) e :
  (List.length l <= List.length l')%nat ->
  (List.length (JSArray.slice0 l e) <= List.length (JSArray.slice0 l' e))%nat.
Proof.
  intros H. rewrite !slice0_length_eq. destruct (e <? 0); lia.
Qed.

Lemma combine_fst (A B : Type) (l : list A) (l' : list B) :
  List.length l = List.length l' -> map fst (combine l l') = l.
Proof.
  revert l'. induction l as [|a r IH]; intros [|b r']; simpl;
    try discriminate; auto.
  intros [= H]. now rewrite IH.
Qed.

Section ScoreCoreShape.
Import Scorer.
Variable current : list Keyword.t.
Variable baselineMap : JSMap.t.
Variables windowDays topN : Z.

Let scored : list Scored :=
  map (fun wi => mkScored (Keyword.word (fst wi)) (snd wi))
      (combine current
         (normalizeTo100 (rawScores current baselineMap windowDays))).
Let sorted : list Scored :=
  JSArray.sort (fun a b => (s_score b - s_score a)%Z) scored.

Lemma scored_words : map s_word scored = map Keyword.word current.
Proof.
  unfold scored. rewrite map_map. simpl.
  rewrite <- (map_map fst Keyword.word). rewrite combine_fst; [reflexivity|].
  rewrite normalizeTo100_length. unfold rawScores.
  destruct (baseline_stats baselineMap). now rewrite length_map.
Qed.

Lemma sorted_length : List.length sorted = List.length current.
Proof.
  unfold sorted. rewrite (Permutation_length (sort_perm _ scored)).
  rewrite <- (length_map s_word), scored_words. apply length_map.
Qed.

Lemma scoreCore_length :
  List.length (scoreCore current baselineMap windowDays topN)
  = List.length (JSArray.slice0 current topN).
Proof.
  change (scoreCore current baselineMap windowDays topN)
    with (JSArray.slice0 sorted topN).
  now rewrite !slice0_length_eq, sorted_length.
Qed.

Lemma scoreCore_split :
  exists rest,
    Permutation
      (map s_word (scoreCore current baselineMap windowDays topN) ++ rest)
      (map Keyword.word current).
Proof.
  change (scoreCore current baselineMap windowDays topN)
    with (JSArray.slice0 sorted topN).
  destruct (slice0_firstn sorted topN) as (k & -> & _).
  exists (map s_word (skipn k sorted)).
  rewrite <- map_app, firstn_skipn, <- scored_words.
  apply Permutation_map, sort_perm.
Qed.

Lemma scoreCore_sorted :
  StronglySorted (fun a b => (s_score a >= s_score b)%Z)
    (scoreCore current baselineMap windowDays topN).
Proof.
  change (scoreCore current baselineMap windowDays topN)
    with (JSArray.slice0 sorted topN).
  destruct (slice0_firstn sorted topN) as (k & -> & _).
  apply StronglySorted_firstn. apply (sort_key_desc s_score).
Qed.

End ScoreCoreShape.

(** X15. For keywords with non-negative counts, a baseline with
    non-negative totals and a limit [topN] that is not negative,
    [scoreCore] scores [topN] of the current keywords, or all of them when
    there are fewer: the result is sorted by non-increasing score and its
    words are words of the current keywords, each taken as often as it
    occurs there at most. *)
Theorem scoreCore_ranked
    (current : list Keyword.t) (baselineMap : JSMap.t)
    (windowDays topN : Z) :
  Forall (fun k => 0 <= Keyword.count k) current ->
  Forall (fun kv => 0 <= snd kv) baselineMap ->
  0 <= topN ->
  let out := Scorer.scoreCore current baselineMap windowDays topN in
  Z.of_nat (List.length out) = Z.min topN (Z.of_nat (List.length current)) /\
  StronglySorted (fun a b => Scorer.s_score a >= Scorer.s_score b) out /\
  exists rest,
    Permutation (map Scorer.s_word out ++ rest) (map Keyword.word current).
Proof.
  intros _ _ Htop out. subst out. split; [|split].
  - rewrite scoreCore_length, slice0_length_eq.
    destruct (topN <? 0) eqn:E; lia.
  - apply scoreCore_sorted.
  - apply scoreCore_split.
Qed.

Lemma scoreCore_ranked_witness :
  let current := [Keyword.make "x" 50 None None; Keyword.make "y" 12 None None;
                  Keyword.make "z" 40 None None] in
  Forall (fun k => 0 <= Keyword.count k) current /\
  Forall (fun kv : string * Z => 0 <= snd kv) [("x", 10)] /\
  0 <= 2 /\
  Z.of_nat (List.length (Scorer.scoreCore current [("x", 10)] 7 2)) = 2.
Proof.
  intros current.
  assert (H1 : Forall (fun k => 0 <= Keyword.count k) current)
    by (repeat constructor; simpl; lia).
  assert (H2 : Forall (fun kv : string * Z => 0 <= snd kv) [("x", 10)])
    by (repeat constructor; simpl; lia).
  assert (H : 0 <= 2) by lia.
  split; [exact H1|]. split; [exact H2|]. split; [exact H|].
  exact (proj1 (@scoreCore_ranked current [("x", 10)] 7 2 H1 H2 H)).
Defined.

Lemma digit_not_space c : is_digit c = true -> is_space c = false.
Proof. destruct c as [[] [] [] [] [] [] [] []]; vm_compute; congruence. Qed.

Lemma re_number_no_space p :
  re_number p = true -> Forall (fun c => is_space c = false) p.
Proof.
  intros H. apply matches_number_sound in H.
  assert (Hd : forall l, Forall (fun c => is_digit c = true) l ->
                         Forall (fun c => is_space c = false) l).
  { intros l Hl. eapply Forall_impl; [|exact Hl]. apply digit_not_space. }
  destruct H as [[_ H] | (i & f & -> & _ & _ & Hi & Hf)]; auto.
  apply Forall_app. split; auto.
Qed.

Lemma re_numeric_vector_no_space s :
  re_numeric_vector s = true -> Forall (fun c => is_space c = false) s.
Proof.
  unfold re_numeric_vector. intros H. apply andb_true_iff in H as [_ H].
  pose proof (split_join ","%char s) as Hj.
  destruct (split ","%char s) as [|p0 ps]; [contradiction|].
  rewrite forallb_forall in H. rewrite Hj. apply Forall_app. split.
  - apply re_number_no_space, H. now left.
  - assert (Hps : forall p, In p ps -> re_number p = true)
      by (intros p Hp; apply H; now right).
    clear -Hps. induction ps as [|p r IH]; simpl; [constructor|].
    constructor; [reflexivity|]. apply Forall_app. split.
    + apply re_number_no_space, Hps. now left.
    + apply IH. intros q Hq. apply Hps. now right.
Qed.

Lemma trim_no_space s :
  Forall (fun c => is_space c = false) s -> trim s = s.
Proof.
  intros H. unfold trim.
  assert (H1 : head_not is_space s) by (destruct H; simpl; auto).
  assert (H2 : head_not is_space (rev s)).
  { apply Forall_rev in H. destruct H; simpl; auto. }
  rewrite (dropWhile_id _ _ H1). now apply dropWhileEnd_id.
Qed.

(** A numeric vector is noise. *)
Lemma isNumericVector_noise w :
  isNumericVector w = true -> isNoiseToken w = true.
Proof.
  intros H. unfold isNoiseToken.
  destruct (String.eqb w EmptyString) eqn:E; [reflexivity|].
  assert (Hs : trim (chars w) = chars w).
  { apply trim_no_space, re_numeric_vector_no_space.
    unfold isNumericVector in H. now rewrite E in H. }
  assert (Hsc : str (chars w) = w)
    by apply string_of_list_ascii_of_string.
  rewrite Hs, Hsc, H. destruct (len (chars w) <? 3); [reflexivity|].
  destruct (isUrl w || isStrictDomain w); reflexivity.
Qed.

Lemma filter_length_le (A : Type) (p p' : A -> bool) l :
  (forall a, p a = true -> p' a = true) ->
  (List.length (filter p l) <= List.length (filter p' l))%nat.
Proof.
  intros H. induction l as [|a r IH]; simpl; [lia|].
  destruct (p a) eqn:E.
  - rewrite (H a E). simpl. lia.
  - destruct (p' a); simpl; lia.
Qed.

Lemma strict_is_loose k :
  Scorer.has_word k && negb (isNoiseToken (Keyword.word k)) = true ->
  loose_keyword k = true.
Proof.
  unfold loose_keyword. intros H. apply andb_true_iff in H as [-> H].
  simpl. destruct (isNumericVector (Keyword.word k)) eqn:E; [|reflexivity].
  apply isNumericVector_noise in E. rewrite E in H. discriminate.
Qed.

Lemma rank_tiers_snd
    (currentDoc : Trend.t) (baselineDocs : list Trend.t)
    (windowDays topN : Z) :
  let strict :=
    Scorer.scoreCore
      (ScoreTrends.filterNoiseKeywords (Trend.keywords currentDoc))
      (Scorer.mergeCounts
         (map (fun d => ScoreTrends.filterNoiseKeywords (Trend.keywords d))
              baselineDocs))
      windowDays topN in
  let loose :=
    Scorer.scoreCore
      (filter loose_keyword (Trend.keywords currentDoc))
      (Scorer.mergeCounts
         (map (fun d => filter loose_keyword (Trend.keywords d)) baselineDocs))
      windowDays topN in
  snd (ScoreTrends.rank_tiers currentDoc baselineDocs windowDays topN)
  = match strict with
    | [] => loose
    | _ :: _ => strict
    end.
Proof.
  intros strict loose. unfold ScoreTrends.rank_tiers. cbv zeta.
  fold strict. destruct strict as [|e es] eqn:Es; [|reflexivity].
  cbn [List.length Nat.eqb negb].
  change (fun k => Scorer.has_word k
                   && negb (isNumericVector (Keyword.word k)))
    with loose_keyword.
  fold loose. destruct loose as [|e es] eqn:El; [|reflexivity].
  cbn [List.length Nat.eqb negb snd].
  match goal with |- map _ ?l = [] => assert (H : List.length l = 0%nat) end.
  { apply (f_equal (@List.length _)) in El. simpl in El.
    unfold loose in El. rewrite scoreCore_length in El.
    match goal with |- List.length (JSArray.slice0 ?l _) = _ =>
      pose proof (@slice0_length_le _ _ l
                    (filter loose_keyword (Trend.keywords currentDoc)) topN)
        as Hle
    end.
    rewrite (Permutation_length (sort_perm _ _)) in Hle.
    specialize (Hle (filter_length_le _ _ _ strict_is_loose)). lia. }
  match goal with |- map _ ?l = [] => destruct l; [reflexivity|discriminate] end.
Qed.

(** X16. The third tier of [scoreTrends] never contributes: the scores
    are those of the strict tier when it ranks something, and those of the
    loose tier otherwise. *)
Theorem rank_tiers_two_tiers
    (currentDoc : Trend.t) (baselineDocs : list Trend.t)
    (windowDays topN : Z) :
  let strict :=
    Scorer.scoreCore
      (ScoreTrends.filterNoiseKeywords (Trend.keywords currentDoc))
      (Scorer.mergeCounts
         (map (fun d => ScoreTrends.filterNoiseKeywords (Trend.keywords d))
              baselineDocs))
      windowDays topN in
  let loose :=
    Scorer.scoreCore
      (filter loose_keyword (Trend.keywords currentDoc))
      (Scorer.mergeCounts
         (map (fun d => filter loose_keyword (Trend.keywords d)) baselineDocs))
      windowDays topN in
  snd (ScoreTrends.rank_tiers currentDoc baselineDocs windowDays topN)
  = match strict with
    | [] => loose
    | _ :: _ => strict
    end.
Proof. apply rank_tiers_snd. Qed.

Lemma scoreCore_word_In current baselineMap windowDays topN e :
  In e (Scorer.scoreCore current baselineMap windowDays topN) ->
  exists k, In k current /\ Keyword.word k = Scorer.s_word e.
Proof.
  intros He.
  destruct (scoreCore_split current baselineMap windowDays topN)
    as (rest & Hp).
  assert (Hin : In (Scorer.s_word e) (map Keyword.word current)).
  { apply (Permutation_in _ Hp). apply in_or_app. left. now apply in_map. }
  apply in_map_iff in Hin as (k & Hk & Hin). eauto.
Qed.

Lemma rank_tiers_words currentDoc baselineDocs windowDays topN e :
  In e (snd (ScoreTrends.rank_tiers currentDoc baselineDocs windowDays topN)) ->
  exists k, In k (Trend.keywords currentDoc) /\
            Keyword.word k = Scorer.s_word e /\ loose_keyword k = true.
Proof.
  rewrite rank_tiers_snd.
  match goal with |- In e (match ?x with _ => _ end) -> _ =>
    destruct x as [|e0 es] eqn:E
  end.
  - intros He. apply scoreCore_word_In in He as (k & Hk & Hw).
    apply filter_In in Hk as [Hk Hl]. eauto.
  - rewrite <- E. intros He. apply scoreCore_word_In in He as (k & Hk & Hw).
    apply filter_In in Hk as [Hk Hl]. apply strict_is_loose in Hl. eauto.
Qed.

Lemma find_filter (q p : Trend.t -> bool) (l : list Trend.t) :
  (forall d, q d = true -> p d = true) ->
  find q (filter p l) = find q l.
Proof.
  intros H. induction l as [|d r IH]; simpl; [reflexivity|].
  destruct (p d) eqn:Ep; simpl.
  - now rewrite IH.
  - destruct (q d) eqn:Eq; [|exact IH].
    apply H in Eq. congruence.
Qed.

(** A query on the key only sees the documents of its type. *)
Lemma findOne_by_key_frame ty date category s s' :
  filter (has_type ty) s' = filter (has_type ty) s ->
  Store.findOne (Store.by_key ty date category) s'
  = Store.findOne (Store.by_key ty date category) s.
Proof.
  intros H. unfold Store.findOne.
  assert (Hq : forall d, Store.by_key ty date category d = true ->
                         has_type ty d = true).
  { intros d Hd. unfold Store.by_key in Hd.
    apply andb_true_iff in Hd as [Hd _]. apply andb_true_iff in Hd as [Hd _].
    exact Hd. }
  rewrite <- (find_filter _ _ s' Hq), <- (find_filter _ _ s Hq). now rewrite H.
Qed.

(** X17. For a date [YYYY-MM-DD], a window that stays within the range
    of time values and documents whose counts are not negative: when the
    daily document of the date and of the category that [scoreTrends]
    loads has keywords, the call resolves and the store then holds, as the
    ranked document of that date and category, the keywords that it
    returns with their counts and scores, and the time of the call; every
    returned word is the non-empty word of a keyword of the daily document
    and is not a numeric vector.  This holds whichever of the fetches left
    running complete meanwhile. *)
Theorem scoreTrends_persists
    (cfg : Config.t) (W : Fetcher.World) (now : JSDate.Date)
    (date : string) (category : Category) (windowDays topN : Z)
    (sch : ScoreTrends.Schedule) (s : Store.t) (day : Z) (doc : Trend.t) :
  JSDate.parse_day date = Some day ->
  -100000000 <= day - windowDays <= 100000000 ->
  let loaded := loaded_store cfg W date windowDays sch s in
  Forall (fun d => Forall (fun k => 0 <= Keyword.count k) (Trend.keywords d))
         loaded ->
  Store.findOne (Store.by_key daily date category) loaded = Some doc ->
  Trend.keywords doc <> [] ->
  let out :=
    ScoreTrends.scoreTrends cfg W now date category windowDays topN sch s in
  exists res,
    snd out = Ok res /\
    Store.findOne (Store.by_key ranked date category) (fst out)
    = Some (Trend.make now ranked date category (map stored_keyword res)) /\
    Forall (fun r =>
              exists k, In k (Trend.keywords doc) /\
                        Keyword.word k = ScoreTrends.word r /\
                        Keyword.word k <> EmptyString /\
                        isNumericVector (Keyword.word k) = false) res.
Proof.
  intros Hday Hw loaded _ Hdoc Hkw out. subst out.
  rewrite scoreTrends_eq. fold loaded.
  unfold ScoreTrends.score_loaded, bind, lift, read. rewrite Hday.
  cbn [option_map]. rewrite addUTCDays_day by lia.
  cbn [Fetcher.toISOString_date]. rewrite Hdoc.
  destruct (Trend.keywords doc) as [|k0 ks0] eqn:Ek; [congruence|].
  match goal with |- context [ScoreTrends.rank_tiers doc ?b windowDays topN] =>
    pose proof (@rank_tiers_words doc b windowDays topN) as Hwords;
    destruct (ScoreTrends.rank_tiers doc b windowDays topN)
      as [usedCurrent scored]
  end.
  unfold write, ret. cbn [fst snd].
  eexists. split; [reflexivity|]. split.
  - rewrite (@findOne_by_key_frame ranked date category _ _
               (proj2 (@complete_spec cfg W _ _ _ ranked ltac:(discriminate)))).
    rewrite find_upsert; [|intros; apply by_key_make|apply by_key_make].
    destruct (Store.findOne (Store.by_key ranked date category) loaded);
      reflexivity.
  - apply Forall_forall. intros r Hr.
    apply in_map_iff in Hr as (e & <- & He). cbn [ScoreTrends.word].
    destruct (Hwords e He) as (k & Hk & Hw' & Hl).
    rewrite Ek in Hk. exists k. repeat split; auto.
    + unfold loose_keyword, Scorer.has_word in Hl.
      apply andb_true_iff in Hl as [Hl _]. apply negb_true_iff in Hl.
      intros E'. rewrite E' in Hl. discriminate.
    + unfold loose_keyword in Hl. apply andb_true_iff in Hl as [_ Hl].
      now apply negb_true_iff in Hl.
Qed.

Lemma scoreTrends_persists_witness :
  let doc := Trend.make 1714521600000 daily "2024-05-01" themes
               [Keyword.make "tax" 2 None None;
                Keyword.make "covid-19" 1 None None;
                Keyword.make "merkel" 1 None None] in
  let sch := ScoreTrends.mkSchedule [] [] in
  let out := ScoreTrends.scoreTrends cfg0 world_none 7 "2024-05-01" themes
               1 50 sch [doc] in
  JSDate.parse_day "2024-05-01" = Some 19844 /\
  -100000000 <= 19844 - 1 <= 100000000 /\
  Forall (fun d => Forall (fun k => 0 <= Keyword.count k) (Trend.keywords d))
         (loaded_store cfg0 world_none "2024-05-01" 1 sch [doc]) /\
  Store.findOne (Store.by_key daily "2024-05-01" themes)
    (loaded_store cfg0 world_none "2024-05-01" 1 sch [doc])
  = Some doc /\
  exists res,
    snd out = Ok res /\
    Store.findOne (Store.by_key ranked "2024-05-01" themes) (fst out)
    = Some (Trend.make 7 ranked "2024-05-01" themes (map stored_keyword res)).
Proof.
  intros doc sch out.
  assert (H1 : JSDate.parse_day "2024-05-01" = Some 19844)
    by (vm_compute; reflexivity).
  assert (Hw : -100000000 <= 19844 - 1 <= 100000000) by lia.
  assert (H2 : Store.findOne (Store.by_key daily "2024-05-01" themes)
                 (loaded_store cfg0 world_none "2024-05-01" 1 sch [doc])
               = Some doc)
    by (vm_compute; reflexivity).
  assert (H3 : Trend.keywords doc <> []) by discriminate.
  assert (Hc : Forall (fun d => Forall (fun k => 0 <= Keyword.count k)
                                       (Trend.keywords d))
                 (loaded_store cfg0 world_none "2024-05-01" 1 sch [doc])).
  { change (loaded_store cfg0 world_none "2024-05-01" 1 sch [doc])
      with [doc].
    repeat constructor; simpl; lia. }
  split; [exact H1|]. split; [exact Hw|]. split; [exact Hc|].
  split; [exact H2|].
  destruct (@scoreTrends_persists cfg0 world_none 7 "2024-05-01" themes 1 50
              sch [doc] 19844 doc H1 Hw Hc H2 H3) as (res & Hres & Hfind & _).
  exists res. split; assumption.
Defined.

(** X18. For a date [YYYY-MM-DD]: [ensureDailyCoverage] fetches nothing
    when the store has a daily document for the date and for each day of
    the window: the store is left as it was and no fetch is left
    running. *)
Theorem ensureDailyCoverage_covered
    (cfg : Config.t) (W : Fetcher.World)
    (dateStr : string) (windowDays day : Z) (s : Store.t) :
  JSDate.parse_day dateStr = Some day ->
  (forall d,
      In d (dateStr :: ScoreTrends.generateWindowDates dateStr windowDays) ->
      exists doc, In doc s /\ Trend.type doc = daily /\ Trend.date doc = d) ->
  ScoreTrends.ensureDailyCoverage cfg W dateStr windowDays s = (s, Ok []).
Proof.
  intros _ H. unfold ScoreTrends.ensureDailyCoverage, read, bind.
  cbv beta iota zeta.
  match goal with |- context [(List.length ?m =? 0)%nat] =>
    assert (Hm : m = [])
  end.
  { apply filter_none. intros d Hd. apply negb_false_iff.
    apply (proj1 (from_list_In _ _)) in Hd.
    destruct (H d Hd) as (doc & Hdoc & Hty & Hdt).
    unfold JSSet.has. apply (proj2 (existsb_eqb _ _)).
    apply (proj2 (from_list_In _ _)).
    apply in_map_iff. exists doc. split; [assumption|].
    unfold Store.findMany. apply filter_In. split; [assumption|].
    rewrite Hty. cbn [TrendType_eqb andb].
    apply (proj2 (existsb_eqb _ _)). apply (proj2 (from_list_In _ _)).
    now rewrite Hdt. }
  now rewrite Hm.
Qed.

Lemma ensureDailyCoverage_covered_witness :
  let s := [Trend.make 0 daily "2024-02-30" persons [];
            Trend.make 0 daily "2024-02-28" themes [];
            Trend.make 0 daily "2024-02-29" orgs []] in
  JSDate.parse_day "2024-02-30" = Some 19783 /\
  ScoreTrends.generateWindowDates "2024-02-30" 2
  = ["2024-02-28"; "2024-02-29"] /\
  ScoreTrends.ensureDailyCoverage cfg0 world_today "2024-02-30" 2 s
  = (s, Ok []).
Proof.
  intros s.
  assert (H1 : JSDate.parse_day "2024-02-30" = Some 19783)
    by (vm_compute; reflexivity).
  assert (H2 : ScoreTrends.generateWindowDates "2024-02-30" 2
               = ["2024-02-28"; "2024-02-29"])
    by (vm_compute; reflexivity).
  split; [exact H1|]. split; [exact H2|].
  apply (@ensureDailyCoverage_covered cfg0 world_today "2024-02-30" 2 19783 s
           H1).
  intros d Hd. rewrite H2 in Hd.
  destruct Hd as [<-|[<-|[<-|[]]]].
  - exists (Trend.make 0 daily "2024-02-30" persons []).
    split; [now left|split; reflexivity].
  - exists (Trend.make 0 daily "2024-02-28" themes []).
    split; [right; now left|split; reflexivity].
  - exists (Trend.make 0 daily "2024-02-29" orgs []).
    split; [right; right; now left|split; reflexivity].
Defined.

(* ================================================================== *)
(** ** Properties of [parseWindowDays] *)

Lemma lookup_presets raw days :
  Routes.lookup raw Routes.presets = Some days -> 1 <= days.
Proof.
  unfold Routes.presets. simpl.
  repeat match goal with
         | |- context [String.eqb raw ?k] => destruct (String.eqb raw k)
         end; intros [= <-]; lia.
Qed.

(** X19. [parseWindowDays] returns at least one day, except for an input
    that names, once trimmed and lower-cased, a property that the preset
    table inherits from [Object.prototype]: it then returns that property,
    which is not a number. *)
Theorem parseWindowDays_at_least_one (input : option string) :
  match Routes.parseWindowDays input with
  | Routes.Days n => 1 <= n
  | Routes.Inherited name =>
      In name Routes.inherited /\
      exists i, input = Some i /\
                name = str (toLowerCase (trim (chars i)))
  end.
Proof.
  unfold Routes.parseWindowDays. destruct input as [i|]; [|lia].
  destruct (String.eqb i EmptyString); [lia|].
  set (raw := toLowerCase (trim (chars i))).
  destruct (negb (List.length raw =? 0)%nat && forallb is_digit raw); [lia|].
  destruct (Routes.match_unit raw) as [[digits unit]|].
  - destruct (Ascii.eqb unit "d"); [lia|].
    destruct (Ascii.eqb unit "m"); lia.
  - destruct (Routes.lookup (str raw) Routes.presets) as [days|] eqn:E.
    + now apply lookup_presets in E.
    + destruct (existsb (String.eqb (str raw)) Routes.inherited) eqn:Ei;
        [|lia].
      split; [|now exists i].
      apply existsb_exists in Ei as (x & Hx & Ex).
      apply String.eqb_eq in Ex. now subst.
Qed.

Lemma lower_char_digit c : is_digit c = true -> lower_char c = c.
Proof. destruct c as [[] [] [] [] [] [] [] []]; vm_compute; congruence. Qed.

Lemma lower_char_space c : is_space c = true -> lower_char c = c.
Proof. destruct c as [[] [] [] [] [] [] [] []]; vm_compute; congruence. Qed.

Lemma space_not_digit c : is_space c = true -> is_digit c = false.
Proof. destruct c as [[] [] [] [] [] [] [] []]; vm_compute; congruence. Qed.

Lemma map_fixed (A : Type) (f : A -> A) l :
  Forall (fun a => f a = a) l -> map f l = l.
Proof. induction 1 as [|a r Ha Hr IH]; simpl; congruence. Qed.

Lemma forallb_app_false (f : ascii -> bool) l c r :
  f c = false -> forallb f (l ++ c :: r) = false.
Proof.
  intros H. rewrite forallb_app. simpl. rewrite H.
  now rewrite andb_false_r.
Qed.

(** X20. [parseWindowDays] reads a number followed by a unit as days: a
    day for [d], 30 days for [m] and 365 days for [y], spaces between the
    number and the unit allowed, and one day at least; the number of days
    is taken below [2 ^ 53], where JavaScript's arithmetic is exact. *)
Theorem parseWindowDays_units (digits spaces : list ascii) (unit : ascii) :
  digits <> [] ->
  Forall (fun c => is_digit c = true) digits ->
  Forall (fun c => is_space c = true) spaces ->
  In unit ["d"%char; "m"%char; "y"%char] ->
  Routes.parseInt10 digits * unit_days unit < 2 ^ 53 ->
  Routes.parseWindowDays (Some (str (digits ++ spaces ++ [unit])))
  = Routes.Days (Z.max 1 (Routes.parseInt10 digits * unit_days unit)).
Proof.
  intros Hne Hd Hs Hu _.
  assert (Hun : is_digit unit = false /\ is_space unit = false /\
                lower_char unit = unit).
  { destruct Hu as [<-|[<-|[<-|[]]]]; vm_compute; auto. }
  destruct Hun as (Hud & Hus & Hul).
  set (raw := digits ++ spaces ++ [unit]).
  assert (Hchars : chars (str raw) = raw)
    by apply list_ascii_of_string_of_list_ascii.
  assert (Htrim : trim raw = raw).
  { unfold trim.
    assert (H1 : head_not is_space raw).
    { subst raw. destruct digits as [|c r]; [contradiction|].
      simpl. inversion Hd; subst. now apply digit_not_space. }
    assert (H2 : head_not is_space (rev raw)).
    { subst raw. rewrite !rev_app_distr. simpl. exact Hus. }
    rewrite (dropWhile_id _ _ H1). now apply dropWhileEnd_id. }
  assert (Hlow : toLowerCase raw = raw).
  { apply map_fixed. subst raw.
    apply Forall_app; split; [|apply Forall_app; split].
    - eapply Forall_impl; [|exact Hd]. apply lower_char_digit.
    - eapply Forall_impl; [|exact Hs]. apply lower_char_space.
    - constructor; [exact Hul|constructor]. }
  assert (Hall : forallb is_digit raw = false).
  { subst raw. rewrite app_assoc. now apply forallb_app_false. }
  assert (Hrest : exists c r, spaces ++ [unit] = c :: r /\ is_digit c = false).
  { destruct spaces as [|c r]; simpl; [eauto|].
    inversion Hs; subst. exists c, (r ++ [unit]). split; [reflexivity|].
    now apply space_not_digit. }
  destruct Hrest as (c & r & Hcr & Hc).
  assert (Hfd : forallb is_digit digits = true) by now apply Forall_forallb.
  assert (Hm : Routes.match_unit raw = Some (digits, unit)).
  { unfold Routes.match_unit. subst raw. rewrite Hcr.
    rewrite (takeWhile_app _ _ _ r Hfd Hc), (dropWhile_app _ _ _ r Hfd Hc).
    rewrite <- Hcr.
    assert (Hfs : forallb is_space spaces = true) by now apply Forall_forallb.
    rewrite (dropWhile_app _ _ _ [] Hfs Hus).
    destruct digits; [contradiction|]. simpl.
    destruct Hu as [<-|[<-|[<-|[]]]]; reflexivity. }
  unfold Routes.parseWindowDays.
  destruct (String.eqb (str raw) EmptyString) eqn:E.
  { apply String.eqb_eq in E. apply (f_equal chars) in E.
    rewrite Hchars in E. subst raw. destruct digits; [contradiction|].
    discriminate. }
  rewrite Hchars, Htrim, Hlow, Hall, andb_false_r, Hm.
  unfold unit_days.
  destruct Hu as [<-|[<-|[<-|[]]]]; simpl Ascii.eqb; cbv iota;
    rewrite ?Z.mul_1_r; reflexivity.
Qed.

Lemma parseWindowDays_units_witness :
  Routes.parseWindowDays (Some "3 m") = Routes.Days 90.
Proof.
  apply (@parseWindowDays_units ["3"%char] [" "%char] "m"%char).
  - discriminate.
  - repeat constructor.
  - repeat constructor.
  - simpl. auto.
  - reflexivity.
Defined.

Example parseWindowDays_examples :
  Routes.parseWindowDays None = Routes.Days 7 /\
  Routes.parseWindowDays (Some " 30D ") = Routes.Days 30 /\
  Routes.parseWindowDays (Some "0") = Routes.Days 1 /\
  Routes.parseWindowDays (Some "1y") = Routes.Days 365 /\
  Routes.parseWindowDays (Some "week") = Routes.Days 7 /\
  Routes.parseWindowDays (Some "Constructor")
  = Routes.Inherited "constructor".
Proof. vm_compute. repeat split. Qed.

(* ================================================================== *)
(** ** Properties of [parseCsvStreamToCollector] *)

Lemma tokens_clean raw : Forall clean_token (Rows.tokens raw).
Proof.
  unfold Rows.tokens. destruct raw as [s|]; [|constructor].
  destruct (String.eqb s EmptyString); [constructor|].
  apply Forall_forall. intros tok H.
  apply splitAndClean_token in H as (H1 & H2 & _). now split.
Qed.

Lemma collector_app_assoc c1 c2 c3 :
  collector_app (collector_app c1 c2) c3
  = collector_app c1 (collector_app c2 c3).
Proof. unfold collector_app. simpl. now rewrite <- !app_assoc. Qed.

Lemma collector_app_nil_r c :
  collector_app c (Fetcher.mkCollector [] [] [] []) = c.
Proof. destruct c. unfold collector_app. simpl. now rewrite !app_nil_r. Qed.

Lemma collector_app_nil_l c :
  collector_app (Fetcher.mkCollector [] [] [] []) c = c.
Proof. now destruct c. Qed.

Lemma collect_cons idx row rows :
  collect idx (row :: rows) = collector_app (collect idx [row]) (collect idx rows).
Proof. unfold collect, collector_app. simpl. now rewrite !app_nil_r. Qed.

Lemma on_data_data st row :
  negb (FetcherParse.headerDetected st) && FetcherParse.is_header row = false ->
  FetcherParse.on_data st row
  = FetcherParse.mkState (FetcherParse.headerDetected st)
      (FetcherParse.indices st)
      (collector_app (FetcherParse.collector st)
              (collect (FetcherParse.indices st) [row])).
Proof.
  intros H. unfold FetcherParse.on_data. rewrite H.
  unfold collector_app, collect. simpl. now rewrite !app_nil_r.
Qed.

Lemma fold_after_header idx rows c :
  fold_left FetcherParse.on_data rows (FetcherParse.mkState true idx c)
  = FetcherParse.mkState true idx (collector_app c (collect idx rows)).
Proof.
  revert c. induction rows as [|row r IH]; intros c.
  - simpl. now rewrite collector_app_nil_r.
  - cbn [fold_left]. rewrite on_data_data by reflexivity.
    cbn [FetcherParse.headerDetected FetcherParse.indices
         FetcherParse.collector].
    rewrite IH, collector_app_assoc, <- collect_cons. reflexivity.
Qed.

Lemma fold_before_header idx rows c :
  fold_left FetcherParse.on_data rows (FetcherParse.mkState false idx c)
  = match split_header rows with
    | (pre, None) =>
        FetcherParse.mkState false idx (collector_app c (collect idx pre))
    | (pre, Some (h, post)) =>
        let idx' := FetcherParse.remap idx h in
        FetcherParse.mkState true idx'
          (collector_app (collector_app c (collect idx pre)) (collect idx' post))
    end.
Proof.
  revert c. induction rows as [|row r IH]; intros c.
  - simpl. now rewrite collector_app_nil_r.
  - cbn [fold_left split_header].
    destruct (FetcherParse.is_header row) eqn:E.
    + unfold FetcherParse.on_data at 2. cbn [FetcherParse.headerDetected negb andb].
      rewrite E. cbn [FetcherParse.indices FetcherParse.collector].
      rewrite fold_after_header. cbv zeta.
      change (collect idx []) with (Fetcher.mkCollector [] [] [] []).
      now rewrite collector_app_nil_r.
    + rewrite on_data_data by (simpl; exact E).
      cbn [FetcherParse.headerDetected FetcherParse.indices
           FetcherParse.collector].
      rewrite IH. destruct (split_header r) as [pre [[h post]|]]; cbv zeta;
        now rewrite (collect_cons idx row pre), <- collector_app_assoc.
Qed.

(** X21. [parseCsvStreamToCollector] takes the first row that names a
    GKG column as the header, and no other: the rows before it are read
    with the configured indices (7, 9, 10 and 4 by default), the rows after
    it with the indices of the header, and the header's indices stay in the
    configuration. *)
Theorem parseCsvStreamToCollector_header
    (idx : Rows.ColumnIndices) (rows : list Rows.Row) :
  let idx0 := FetcherParse.with_defaults idx in
  FetcherParse.parseCsvStreamToCollector idx rows
  = match split_header rows with
    | (pre, None) => (idx0, collect idx0 pre)
    | (pre, Some (h, post)) =>
        let idx1 := FetcherParse.remap idx0 h in
        (idx1, collector_app (collect idx0 pre) (collect idx1 post))
    end.
Proof.
  intros idx0. unfold FetcherParse.parseCsvStreamToCollector.
  rewrite fold_before_header. fold idx0.
  destruct (split_header rows) as [pre [[h post]|]]; cbv zeta;
    cbn [FetcherParse.indices FetcherParse.collector];
    now rewrite collector_app_nil_l.
Qed.

Lemma collect_clean idx rows :
  let c := collect idx rows in
  Forall clean_token (Fetcher.c_themes c) /\
  Forall clean_token (Fetcher.c_persons c) /\
  Forall clean_token (Fetcher.c_orgs c).
Proof.
  unfold collect. simpl.
  repeat split; apply Forall_flat_map, Forall_forall; intros row _;
    apply tokens_clean.
Qed.

(** X22. The collector of [parseCsvStreamToCollector] holds clean tokens
    only (no noise, and keywords that [cleanKeyword] keeps as they are),
    and one document identifier per row at most. *)
Theorem parseCsvStreamToCollector_tokens
    (idx : Rows.ColumnIndices) (rows : list Rows.Row) :
  let c := snd (FetcherParse.parseCsvStreamToCollector idx rows) in
  Forall clean_token (Fetcher.c_themes c) /\
  Forall clean_token (Fetcher.c_persons c) /\
  Forall clean_token (Fetcher.c_orgs c) /\
  (List.length (Fetcher.c_documentIdentifiers c) <= List.length rows)%nat.
Proof.
  intros c. subst c. unfold FetcherParse.parseCsvStreamToCollector.
  cbn [snd].
  set (P := fun (st : FetcherParse.State) (n : nat) =>
              let c := FetcherParse.collector st in
              Forall clean_token (Fetcher.c_themes c) /\
              Forall clean_token (Fetcher.c_persons c) /\
              Forall clean_token (Fetcher.c_orgs c) /\
              (List.length (Fetcher.c_documentIdentifiers c) <= n)%nat).
  assert (H : forall rows st n,
             P st n ->
             P (fold_left FetcherParse.on_data rows st)
               (n + List.length rows)%nat).
  { clear. intros rows. induction rows as [|row r IH]; intros st n Hst.
    - simpl. now rewrite Nat.add_0_r.
    - cbn [fold_left List.length].
      replace (n + S (List.length r))%nat with (S n + List.length r)%nat
        by lia.
      apply IH. unfold P in *. cbv zeta in *. unfold FetcherParse.on_data.
      destruct Hst as (H1 & H2 & H3 & H4).
      destruct (negb (FetcherParse.headerDetected st)
                && FetcherParse.is_header row);
        cbn [FetcherParse.collector Fetcher.c_themes Fetcher.c_persons
             Fetcher.c_orgs Fetcher.c_documentIdentifiers].
      + repeat split; auto.
      + repeat split; try (apply Forall_app; split; auto; apply tokens_clean).
        rewrite length_app. unfold FetcherParse.identifier.
        destruct (Rows.getCol row _) as [id|]; [|simpl; lia].
        destruct (String.eqb id EmptyString); simpl; lia. }
  apply (H rows _ 0%nat). unfold P. simpl. repeat split; auto.
Qed.

(* ================================================================== *)
(** ** Properties of [parseCsvStream] and of the daily job *)

Lemma upsert_ranked_ok topN c put cats s :
  (forall cat, Forall has_word (Aggregator.bag c cat)) ->
  (forall cat kws s, snd (put cat kws s) = Ok tt) ->
  snd (Aggregator.upsert_ranked topN c put cats s) = Ok tt.
Proof.
  intros Hc Hput. revert s. induction cats as [|cat r IH]; intros s;
    [reflexivity|].
  cbn [Aggregator.upsert_ranked]. unfold bind, lift.
  assert (Hr : exists ranked,
             Aggregator.rankByCount (Aggregator.bag c cat) topN = Ok ranked).
  { unfold Aggregator.rankByCount.
    destruct (loop_ok [] (Hc cat)) as (m & ->). eauto. }
  destruct Hr as (ranked & ->).
  specialize (Hput cat (map Aggregator.keyword_of ranked) s).
  destruct (put cat (map Aggregator.keyword_of ranked) s) as [s1 res].
  simpl in Hput. subst res. apply IH.
Qed.

Lemma worded_bag c cat : worded c -> Forall has_word (Aggregator.bag c cat).
Proof. intros (H1 & H2 & H3). destruct cat; simpl; auto. Qed.

Lemma aggregateFromFile_ok cfg c timestamp category s :
  worded c ->
  snd (Aggregator.aggregateFromFile cfg c timestamp category s) = Ok true.
Proof.
  intros Hc. unfold Aggregator.aggregateFromFile.
  match goal with |- context [Aggregator.upsert_ranked ?t ?c ?p ?l] =>
    pose proof (@upsert_ranked_ok t c p l s (fun cat => worded_bag cat Hc)
                  (fun _ _ _ => eq_refl)) as H;
    set (put := p) in *
  end.
  unfold bind at 1. 
  destruct (Aggregator.upsert_ranked _ c put _ s) as [s1 res].
  simpl in H. subst res. unfold bind.
  destruct (0 <? Z.of_nat _); reflexivity.
Qed.

Lemma buildKeywordObjs_worded docIds raw :
  Forall has_word (Parser.buildKeywordObjs docIds raw).
Proof.
  unfold Parser.buildKeywordObjs. apply Forall_forall. intros item H.
  apply in_map_iff in H as (w & <- & _). unfold has_word. discriminate.
Qed.

Lemma parser_fold_worded category rows st :
  worded (Parser.collector st) ->
  worded (Parser.collector (fold_left (Parser.on_data category) rows st)).
Proof.
  revert st. induction rows as [|row r IH]; intros st H; [exact H|].
  cbn [fold_left]. apply IH. unfold Parser.on_data. cbv zeta.
  destruct (negb (Parser.headerDetected st) && (Parser.rowCount st + 1 =? 1)
            && Parser.is_header row); [exact H|].
  destruct H as (H1 & H2 & H3). unfold worded.
  cbn [Parser.collector Aggregator.c_themes Aggregator.c_persons
       Aggregator.c_orgs].
  repeat split;
    match goal with |- Forall _ (if ?b then _ else _) => destruct b end;
    auto; apply Forall_app; split; auto; apply buildKeywordObjs_worded.
Qed.

Lemma parser_fold_indices category rows st :
  (Parser.rowCount st >= 1) ->
  Parser.indices (fold_left (Parser.on_data category) rows st)
  = Parser.indices st.
Proof.
  revert st. induction rows as [|row r IH]; intros st H; [reflexivity|].
  cbn [fold_left]. rewrite IH.
  - unfold Parser.on_data. cbv zeta.
    destruct (Z.eqb_spec (Parser.rowCount st + 1) 1); [lia|].
    now rewrite andb_false_r.
  - unfold Parser.on_data. cbv zeta.
    destruct (negb (Parser.headerDetected st) && (Parser.rowCount st + 1 =? 1)
              && Parser.is_header row); cbn [Parser.rowCount]; lia.
Qed.

(** X23. [parseCsvStream] resolves to [true] for every file, since each
    item that it hands to [aggregateFromFile] has a word, and it looks for
    a header in the first row only: the column indices of the
    configuration change only when that row names a GKG column. *)
Theorem parseCsvStream_resolves
    (cfg : Config.t) (now : JSDate.Date) (idx : Rows.ColumnIndices)
    (rows : list Rows.Row) (opts : Parser.Options) (s : Store.t) :
  let out := Parser.parseCsvStream cfg now idx rows opts in
  snd (snd out s) = Ok true /\
  fst out = match rows with
            | first :: _ =>
                if Parser.is_header first then Parser.remap idx first else idx
            | [] => idx
            end.
Proof.
  intros out. subst out. unfold Parser.parseCsvStream. cbn [fst snd]. split.
  - apply aggregateFromFile_ok. apply parser_fold_worded.
    repeat split; constructor.
  - destruct rows as [|first rest]; [reflexivity|].
    cbn [fold_left]. rewrite parser_fold_indices.
    + unfold Parser.on_data. cbv zeta.
      cbn [Parser.headerDetected Parser.rowCount negb andb Z.add Z.eqb
           Pos.eqb].
      now destruct (Parser.is_header first).
    + unfold Parser.on_data. cbv zeta.
      destruct (negb _ && _ && _); cbn [Parser.rowCount]; simpl; lia.
Qed.

Lemma rankByCount_tokens l topN :
  Aggregator.rankByCount (map Scheduler.item_of_token l) topN
  = match l with
    | [] => Ok []
    | _ :: _ =>
        Throw (TypeError
          "Cannot read properties of undefined (reading 'toLowerCase')")
    end.
Proof.
  destruct l as [|t r]; [|reflexivity].
  unfold Aggregator.rankByCount, JSArray.slice0. simpl.
  now rewrite firstn_nil.
Qed.

Lemma merge_tokens (f : Scheduler.Local -> list string) locals
    (g : Aggregator.Collector -> list Aggregator.Item) :
  (forall c, g (Scheduler.collector_of c) = map Scheduler.item_of_token (f c)) ->
  flat_map g (map Scheduler.collector_of locals)
  = map Scheduler.item_of_token (flat_map f locals).
Proof.
  intros H. induction locals as [|c r IH]; simpl; [reflexivity|].
  now rewrite map_app, IH, H.
Qed.

Lemma merge_ids locals :
  flat_map Aggregator.c_documentIdentifiers
           (map Scheduler.collector_of locals) = [].
Proof. induction locals as [|c r IH]; simpl; auto. Qed.

Lemma flat_map_nil (A B : Type) (f : A -> list B) l :
  flat_map f l = [] <-> Forall (fun a => f a = []) l.
Proof.
  induction l as [|a r IH]; simpl; split; intros H; auto.
  - apply app_eq_nil in H as [H1 H2]. constructor; [assumption|].
    now apply IH.
  - inversion H; subst. rewrite H2. now apply IH.
Qed.

Lemma put_daily_In now date cat kws s d :
  In d (Store.findOneAndUpdate (Store.by_key daily date cat)
          (fun _ => Trend.make now daily date cat kws)
          (Trend.make now daily date cat kws) s) ->
  In d s \/ d = Trend.make now daily date cat kws.
Proof.
  intros H. apply findOneAndUpdate_In in H as [H|[H|(d0 & _ & _ & H)]]; auto.
Qed.

(** The daily aggregation of collectors of tokens. *)
Lemma aggregateDaily_tokens cfg now locals date s :
  let out :=
    Aggregator.aggregateDaily cfg now (map Scheduler.collector_of locals)
      date Aggregator.all s in
  (snd out = Ok true <-> Forall no_token locals) /\
  (forall d, In d (fst out) ->
     In d s \/
     (Trend.type d = daily /\ Trend.date d = date /\
      Trend.timestamp d = now /\ Trend.keywords d = [])).
Proof.
  intros out. subst out.
  unfold Aggregator.aggregateDaily, Aggregator.categoriesToProcess,
    Aggregator.upsert_ranked, Aggregator.merge.
  cbn [Aggregator.bag Aggregator.c_themes Aggregator.c_persons
       Aggregator.c_orgs Aggregator.c_documentIdentifiers].
  rewrite merge_ids.
  rewrite (@merge_tokens Scheduler.l_themes locals Aggregator.c_themes)
    by reflexivity.
  rewrite (@merge_tokens Scheduler.l_persons locals Aggregator.c_persons)
    by reflexivity.
  rewrite (@merge_tokens Scheduler.l_orgs locals Aggregator.c_orgs)
    by reflexivity.
  rewrite !rankByCount_tokens.
  assert (Hno : Forall no_token locals <->
                flat_map Scheduler.l_themes locals = [] /\
                flat_map Scheduler.l_persons locals = [] /\
                flat_map Scheduler.l_orgs locals = []).
  { rewrite !flat_map_nil, !Forall_forall. unfold no_token. split.
    - intros H. repeat split; intros c Hc; apply (H c Hc).
    - intros (H1 & H2 & H3) c Hc. auto. }
  rewrite Hno. unfold bind, lift, write, ret.
  cbn [Aggregator.unique JSSet.from_list fold_left List.length Z.of_nat
       Z.ltb Z.compare].
  destruct (flat_map Scheduler.l_themes locals) as [|t1 r1].
  2:{ cbn [fst snd]. split; [|intros d Hd; now left].
      split; [discriminate|intros (H & _); discriminate]. }
  destruct (flat_map Scheduler.l_persons locals) as [|t2 r2].
  2:{ cbn [fst snd map]. split.
      - split; [discriminate|intros (_ & H & _); discriminate].
      - intros d Hd. apply put_daily_In in Hd as [Hd| ->]; [now left|].
        right. repeat split. }
  destruct (flat_map Scheduler.l_orgs locals) as [|t3 r3].
  2:{ cbn [fst snd map]. split.
      - split; [discriminate|intros (_ & _ & H); discriminate].
      - intros d Hd. apply put_daily_In in Hd as [Hd| ->]; [|right; repeat split].
        apply put_daily_In in Hd as [Hd| ->]; [now left|right; repeat split]. }
  cbn [fst snd map]. split; [tauto|].
  intros d Hd. apply put_daily_In in Hd as [Hd| ->]; [|right; repeat split].
  apply put_daily_In in Hd as [Hd| ->]; [|right; repeat split].
  apply put_daily_In in Hd as [Hd| ->]; [now left|right; repeat split].
Qed.

(** X24. The daily job never stores a ranking. Its collectors hold
    tokens, which are strings and have no [word], so that [aggregateDaily]
    resolves exactly when no token was collected, and otherwise fails with
    a [TypeError] that the job logs; whatever it writes is a daily document
    of today with an empty keyword list. *)
Theorem dailyJob_never_ranks
    (cfg : Config.t) (realtimeIntervalMin : Z) (W : Scheduler.World)
    (now now1 now2 : JSDate.Date) (idx : Rows.ColumnIndices) (s : Store.t) :
  let job := snd (Scheduler.dailyJob cfg realtimeIntervalMin W
                    now now1 now2 idx) in
  let attempt := snd (Scheduler.dailyJob_try cfg realtimeIntervalMin W
                        now now1 now2 idx) in
  let collectors := collected cfg realtimeIntervalMin W now idx in
  snd (job s) = Ok tt /\
  (forall d, In d (fst (job s)) ->
     In d s \/
     (Trend.type d = daily /\ Trend.date d = JSDate.isoDate now1 /\
      Trend.timestamp d = now2 /\ Trend.keywords d = [])) /\
  (snd (attempt s) = Ok true <-> Forall no_token collectors) /\
  (~ Forall no_token collectors ->
   snd (attempt s)
   = Throw (TypeError
       "Cannot read properties of undefined (reading 'toLowerCase')")).
Proof.
  intros job attempt collectors. subst job attempt collectors.
  unfold Scheduler.dailyJob, Scheduler.dailyJob_try, collected.
  destruct (fold_left _ _ _) as [idx' collectors]. cbn [snd].
  pose proof (@aggregateDaily_tokens cfg now2 collectors
                (JSDate.isoDate now1) s) as [H1 H2].
  cbv zeta in H1, H2. unfold try_catch, bind, ret.
  assert (H3 : ~ Forall no_token collectors ->
               snd (Aggregator.aggregateDaily cfg now2
                      (map Scheduler.collector_of collectors)
                      (JSDate.isoDate now1) Aggregator.all s)
               = Throw (TypeError
                   "Cannot read properties of undefined (reading 'toLowerCase')")).
  { intros Hno. rewrite <- H1 in Hno. clear H1 H2. revert Hno.
    unfold Aggregator.aggregateDaily, Aggregator.categoriesToProcess,
      Aggregator.upsert_ranked, Aggregator.merge.
    cbn [Aggregator.bag Aggregator.c_themes Aggregator.c_persons
         Aggregator.c_orgs Aggregator.c_documentIdentifiers].
    rewrite merge_ids.
    rewrite (@merge_tokens Scheduler.l_themes collectors Aggregator.c_themes)
      by reflexivity.
    rewrite (@merge_tokens Scheduler.l_persons collectors Aggregator.c_persons)
      by reflexivity.
    rewrite (@merge_tokens Scheduler.l_orgs collectors Aggregator.c_orgs)
      by reflexivity.
    rewrite !rankByCount_tokens. unfold bind, lift, write, ret.
    destruct (flat_map Scheduler.l_themes collectors); [|reflexivity].
    destruct (flat_map Scheduler.l_persons collectors); [|reflexivity].
    destruct (flat_map Scheduler.l_orgs collectors); [|reflexivity].
    intros Hno. exfalso. apply Hno. reflexivity. }
  destruct (Aggregator.aggregateDaily cfg now2 _ _ _ s) as [s1 [b|e]] eqn:E;
    cbn [fst snd] in *; repeat split; auto; apply H1.
Qed.

Example dailyJob_with_tokens :
  let W : Scheduler.World :=
    fun url =>
      if String.eqb url
           "http://data.gdeltproject.org/gkg/20240501081500.gkg.csv.zip"
      then Some [["id"; "TAX_POLITICAL;covid-19"]]
      else None in
  let idx := Rows.mkIndices (Some 1) None None None in
  let old := Trend.make 0 daily "2024-05-01" themes
               [Keyword.make "tax" 7 None None] in
  snd (Scheduler.dailyJob_try cfg0 15 W may1 may1 may1 idx) [old]
  = ([old],
     Throw (TypeError
       "Cannot read properties of undefined (reading 'toLowerCase')")) /\
  snd (Scheduler.dailyJob_try cfg0 15 W may1 may1 may1
         (Rows.mkIndices None None None None)) [old]
  = ([Trend.make may1 daily "2024-05-01" themes [];
      Trend.make may1 daily "2024-05-01" persons [];
      Trend.make may1 daily "2024-05-01" orgs []],
     Ok true).
Proof. vm_compute. split; reflexivity. Qed.
